(** * The ingestion core of the analytics platform, embedded in Rocq

    Two Lambda handlers are modelled from their Python sources:
    - [LogParser]: [src/lambda/log-parser/handler.py], the CloudFront log
      line parser, the path filter, the event writer, the rollup writer and
      the ingestion controller;
    - [JourneyTracker]: [src/lambda/journey-tracker/handler.py], the HTTP
      tracker with its validation, item construction and routing.

    Python [str] values are Rocq strings, dictionaries are [gmap]s (or
    insertion-ordered association lists where the code iterates over them),
    [None]-able values are options, and an exception is an explicit [None] /
    error result.  Functions of the Python standard library that the handlers
    call ([str.lower], [urllib.parse], [json], [base64], [str()]) are the
    fields of an interface class, so every theorem holds for any
    implementation of them; a small executable instance is used to run the
    handlers on concrete inputs.

    What lies outside the handlers is an explicit input: the clock readings,
    the generated UUID, the content of the log objects and the environment
    variables.  The table is a finite map from the key [(PK, SK)] to a row,
    itself a map from attribute names to values.  The table of the log
    parser accepts every put, and it rejects an update only when [ADD]
    meets an attribute of another type.  The table of the tracker is
    written through a batch writer, whose requests the store may refuse:
    what it does with a request is a field of an interface, which every
    store meets that refuses a float as the client does.  Text is
    ASCII. *)

From Stdlib Require Import ZArith Ascii String List Lia Floats.
From stdpp Require Import base tactics option list gmap strings fin_maps pretty.

Local Open Scope Z_scope.

(** ** Python string primitives *)

Module PyStr.

(** [s.startswith(p)] *)
Fixpoint startswith (p s : string) : bool :=
  match p, s with
  | EmptyString, _ => true
  | String a p', String b s' => if decide (a = b) then startswith p' s' else false
  | String _ _, EmptyString => false
  end.

(** [s[n:]] *)
Fixpoint drop (n : nat) (s : string) : string :=
  match n, s with
  | O, _ => s
  | S n', String _ s' => drop n' s'
  | S _, EmptyString => EmptyString
  end.

(** [s[:n]] *)
Fixpoint take (n : nat) (s : string) : string :=
  match n, s with
  | S n', String c s' => String c (take n' s')
  | _, _ => EmptyString
  end.

(** [s[a:b]] for non-negative literals [a <= b] *)
Definition slice (a b : nat) (s : string) : string := take (b - a) (drop a s).

(** [s.endswith(p)] *)
Definition endswith (p s : string) : bool :=
  bool_decide (drop (String.length s - String.length p) s = p)
  && bool_decide (String.length p <= String.length s)%nat.

(** [s.split(sep)] for a one-character separator: never the empty list. *)
Fixpoint split (sep : ascii) (s : string) : list string :=
  match s with
  | EmptyString => [EmptyString]
  | String c s' =>
      if decide (c = sep) then EmptyString :: split sep s'
      else match split sep s' with
           | w :: ws => String c w :: ws
           | [] => [String c EmptyString]
           end
  end.

(** [s.split(sep, maxsplit)] *)
Fixpoint split_max (sep : ascii) (s : string) (maxsplit : nat) : list string :=
  match s with
  | EmptyString => [EmptyString]
  | String c s' =>
      match maxsplit with
      | O => [s]
      | S m =>
          if decide (c = sep) then EmptyString :: split_max sep s' m
          else match split_max sep s' maxsplit with
               | w :: ws => String c w :: ws
               | [] => [String c EmptyString]
               end
      end
  end.

(** The ASCII characters [str.strip()] removes: tab, line feed, vertical
    tab, form feed, carriage return, the separators 28-31 and space. *)
Definition isspace (c : ascii) : bool :=
  let n := nat_of_ascii c in
  ((9 <=? n) && (n <=? 13) || (28 <=? n) && (n <=? 32))%nat.

Fixpoint lstrip (s : string) : string :=
  match s with
  | String c s' => if isspace c then lstrip s' else s
  | EmptyString => EmptyString
  end.

(** [rstrip] drops a character when it is white space and everything after
    it has been dropped. *)
Fixpoint rstrip (s : string) : string :=
  match s with
  | EmptyString => EmptyString
  | String c s' =>
      match rstrip s' with
      | EmptyString => if isspace c then EmptyString else String c EmptyString
      | r => String c r
      end
  end.

(** [s.strip()] *)
Definition strip (s : string) : string := rstrip (lstrip s).

(** Python truthiness of a [str]. *)
Definition truthy (s : string) : bool := negb (bool_decide (s = EmptyString)).

(** [sub in s] for two strings *)
Fixpoint contains (sub s : string) : bool :=
  startswith sub s ||
  match s with
  | EmptyString => false
  | String _ s' => contains sub s'
  end.

(** [c in s] for a character *)
Fixpoint has_char (c : ascii) (s : string) : bool :=
  match s with
  | EmptyString => false
  | String c' s' => bool_decide (c' = c) || has_char c s'
  end.

(** [sep.join(parts)] *)
Fixpoint join (sep : string) (parts : list string) : string :=
  match parts with
  | [] => EmptyString
  | [p] => p
  | p :: rest => p +:+ sep +:+ join sep rest
  end.

(** [s.count(c)] for a character *)
Fixpoint count_char (c : ascii) (s : string) : nat :=
  match s with
  | EmptyString => 0
  | String c' s' => (if decide (c' = c) then 1 else 0) + count_char c s'
  end.

Definition tab : ascii := ascii_of_nat 9.
Definition newline : ascii := ascii_of_nat 10.
Definition hash : ascii := ascii_of_nat 35.

End PyStr.

(** ** The library interface of the log parser *)

(** [lower] is [str.lower], [unquote] is [urllib.parse.unquote] and
    [urlparse_netloc u] is [urlparse(u).netloc], or [None] when [urlparse]
    raises [ValueError].  The laws are facts of the library: the empty
    string has no letters to lower, a dash has no escape to decode, and a
    text without ["//"] has an empty netloc. *)
Class UrlLib := {
  lower : string → string;
  unquote : string → string;
  urlparse_netloc : string → option string;
  lower_empty : lower "" = "";
  unquote_dash : unquote "-" = "-";
  urlparse_netloc_empty : urlparse_netloc "" = Some "";
  urlparse_netloc_dash : urlparse_netloc "-" = Some "";
}.

(** An executable instance for ASCII text. *)
Module AsciiLib.

Definition lower_char (c : ascii) : ascii :=
  let n := nat_of_ascii c in
  if ((65 <=? n) && (n <=? 90))%nat then ascii_of_nat (n + 32) else c.

Fixpoint lower (s : string) : string :=
  match s with
  | EmptyString => EmptyString
  | String c s' => String (lower_char c) (lower s')
  end.

Definition hex_digit (c : ascii) : option nat :=
  let n := nat_of_ascii c in
  if ((48 <=? n) && (n <=? 57))%nat then Some (n - 48)%nat
  else if ((65 <=? n) && (n <=? 70))%nat then Some (n - 55)%nat
  else if ((97 <=? n) && (n <=? 102))%nat then Some (n - 87)%nat
  else None.

(** Percent-decoding; an escape that is not two hexadecimal digits is kept. *)
Fixpoint unquote (s : string) : string :=
  match s with
  | EmptyString => EmptyString
  | String c s' =>
      let keep := String c (unquote s') in
      if decide (c = "%"%char) then
        match s' with
        | String h (String l rest) =>
            match hex_digit h, hex_digit l with
            | Some a, Some b =>
                String (ascii_of_nat (16 * a + b))
                  (match unquote s' with
                   | String _ (String _ r) => r
                   | r => r
                   end)
            | _, _ => keep
            end
        | _ => keep
        end
      else keep
  end.

Definition is_scheme_char (c : ascii) : bool :=
  let n := nat_of_ascii c in
  ((97 <=? n) && (n <=? 122) || (65 <=? n) && (n <=? 90)
   || (48 <=? n) && (n <=? 57) || (n =? 43) || (n =? 45) || (n =? 46))%nat.

(** The text after ["scheme:"], or the whole text when there is no scheme. *)
Fixpoint after_scheme (whole s : string) : string :=
  match s with
  | String c s' =>
      if decide (c = ":"%char) then s'
      else if is_scheme_char c then after_scheme whole s' else whole
  | EmptyString => whole
  end.

Fixpoint until_delim (s : string) : string :=
  match s with
  | String c s' =>
      if bool_decide (c = "/"%char) || bool_decide (c = "?"%char)
         || bool_decide (c = "#"%char)
      then EmptyString else String c (until_delim s')
  | EmptyString => EmptyString
  end.

(** The netloc is what follows ["//"] up to the first of [/ ? #]; unbalanced
    square brackets in it make [urlparse] raise. *)
Definition urlparse_netloc (u : string) : option string :=
  let rest :=
    match u with
    | String c _ =>
        if decide (c = ":"%char) then u else after_scheme u u
    | EmptyString => u
    end in
  if PyStr.startswith "//" rest then
    let netloc := until_delim (PyStr.drop 2 rest) in
    if xorb (PyStr.contains "[" netloc) (PyStr.contains "]" netloc)
    then None else Some netloc
  else Some "".

End AsciiLib.

#[export] Instance ascii_url_lib : UrlLib := {|
  lower := AsciiLib.lower;
  unquote := AsciiLib.unquote;
  urlparse_netloc := AsciiLib.urlparse_netloc;
  lower_empty := eq_refl;
  unquote_dash := eq_refl;
  urlparse_netloc_empty := eq_refl;
  urlparse_netloc_dash := eq_refl;
|}.

(** ** The log parser: [src/lambda/log-parser/handler.py] *)

Module LogParser.

(** The dictionary returned by [_parse_cloudfront_log_line]. *)
Record event := {
  domain : string;
  timestamp : string;
  date : string;
  path : string;
  status : string;
  referrer : option string;
  referrer_domain : option string;
  user_agent : option string;
  client_ip : string;
  request_id : string;
}.

(** [x[4:] if x.startswith("www.") else x], the normalisation applied to
    both the lowercased referrer netloc and the lowercased host. *)
Definition strip_www (s : string) : string :=
  if PyStr.startswith "www." s then PyStr.drop 4 s else s.

Definition dash_to_none `{UrlLib} (field : string) : option string :=
  if decide (field = "-") then None else Some (unquote field).

(** Lines 93-109: the referrer domain, [None] for a missing referrer, a
    self-referral, an empty netloc or a referrer [urlparse] rejects. *)
Definition parse_referrer_domain `{UrlLib}
    (host : string) (referrer : option string) : option string :=
  match referrer with
  | Some ref =>
      if PyStr.truthy ref && negb (bool_decide (ref = "-")) then
        match urlparse_netloc ref with
        | Some netloc =>
            let raw_ref_domain := strip_www (lower netloc) in
            let normalized_host := strip_www (lower host) in
            if PyStr.truthy raw_ref_domain
               && negb (bool_decide (raw_ref_domain = normalized_host))
            then Some raw_ref_domain
            else None
        | None => None
        end
      else None
  | None => None
  end.

(** [_parse_cloudfront_log_line]: [None] is the [return None] of a comment
    line, of a short line and of the outer [except]. *)
Definition _parse_cloudfront_log_line `{UrlLib} (line : string) : option event :=
  if PyStr.startswith "#" line then None
  else
    let fields := PyStr.split PyStr.tab (PyStr.strip line) in
    if (length fields <? 20)%nat then None
    else
      date_str ← fields !! 0%nat;
      time_str ← fields !! 1%nat;
      client_ip ← fields !! 4%nat;
      host ← fields !! 6%nat;
      path ← unquote <$> fields !! 7%nat;
      status ← fields !! 8%nat;
      referrer ← dash_to_none <$> fields !! 9%nat;
      user_agent ← dash_to_none <$> fields !! 10%nat;
      request_id ← fields !! 14%nat;
      let referrer_domain := parse_referrer_domain host referrer in
      let timestamp := date_str +:+ "T" +:+ time_str +:+ "Z" in
      Some {| domain := host; timestamp := timestamp; date := date_str;
              path := path; status := status; referrer := referrer;
              referrer_domain := referrer_domain; user_agent := user_agent;
              client_ip := client_ip; request_id := request_id |}.

(** [parsed["domain"] = actual_domain] *)
Definition with_domain (actual_domain : string) (parsed : event) : event :=
  {| domain := actual_domain; timestamp := timestamp parsed;
     date := date parsed; path := path parsed; status := status parsed;
     referrer := referrer parsed; referrer_domain := referrer_domain parsed;
     user_agent := user_agent parsed; client_ip := client_ip parsed;
     request_id := request_id parsed |}.

(** [_extract_domain_from_s3_key]: [split] never returns an empty list, so
    the first segment is always returned. *)
Definition _extract_domain_from_s3_key (key : string) : option string :=
  match PyStr.split "/"%char key with
  | part :: _ => Some part
  | [] => None
  end.

(** The module-level configuration read from the environment. *)
Record config := {
  EXCLUDED_EXTENSIONS : list string;
  EXCLUDED_PATHS : list string;
}.

(** [_should_exclude_path] *)
Definition _should_exclude_path `{UrlLib} (cfg : config) (path : string) : bool :=
  let path_lower := lower path in
  if existsb (λ ext, PyStr.endswith ext path_lower) (EXCLUDED_EXTENSIONS cfg) then true
  else if existsb (λ prefix, PyStr.startswith (lower prefix) path_lower)
            (EXCLUDED_PATHS cfg) then true
  else false.

(** *** The table *)

(** Attribute values: strings, numbers and string sets. *)
Inductive attr :=
| AStr (s : string)
| ANum (n : Z)
| ASet (ss : gset string).

(** A row is a map from attribute names to values; the table maps the
    primary key [(PK, SK)] to its row. *)
Abbreviation row := (gmap string attr).
Abbreviation table := (gmap (string * string) (gmap string attr)).

Definition TTL_DAYS : Z := 90.

(** [int((now + timedelta(days=TTL_DAYS)).timestamp())], with [now] the
    clock reading in whole epoch seconds. *)
Definition ttl_of (now : Z) : Z := now + TTL_DAYS * 86400.

(** [if item.get(name): db_item[name] = item[name]] *)
Definition set_opt (name : string) (v : option string) (r : row) : row :=
  match v with
  | Some s => if PyStr.truthy s then <[name := AStr s]> r else r
  | None => r
  end.

(** Lines 179-211: the item built for one parsed event. *)
Definition build_db_item (item : event) (ttl : Z) : row :=
  let pk := domain item +:+ "#" +:+ date item in
  let sk := timestamp item +:+ "#" +:+ request_id item in
  let db_item : row :=
    <["GSI1SK" := AStr (timestamp item)]>
    (<["GSI1PK" := AStr (domain item +:+ "#" +:+ path item)]>
    (<["ttl" := ANum ttl]>
    (<["request_id" := AStr (request_id item)]>
    (<["status" := AStr (status item)]>
    (<["path" := AStr (path item)]>
    (<["timestamp" := AStr (timestamp item)]>
    (<["domain" := AStr (domain item)]>
    (<["SK" := AStr sk]>
    (<["PK" := AStr pk]> ∅))))))))) in
  let db_item := set_opt "referrer" (referrer item) db_item in
  let db_item :=
    match referrer_domain item with
    | Some rd =>
        if PyStr.truthy rd then
          <["GSI2SK" := AStr (timestamp item)]>
          (<["GSI2PK" := AStr (domain item +:+ "#" +:+ rd)]>
          (<["referrer_domain" := AStr rd]> db_item))
        else db_item
    | None => db_item
    end in
  let db_item := set_opt "user_agent" (user_agent item) db_item in
  set_opt "client_ip" (Some (client_ip item)) db_item.

(** [writer.put_item(Item=db_item)]: the row stored under the item's key
    is replaced by the item. *)
Definition put_item (db_item : row) (t : table) : table :=
  match db_item !! "PK", db_item !! "SK" with
  | Some (AStr pk), Some (AStr sk) => <[(pk, sk) := db_item]> t
  | _, _ => t
  end.

(** [items[i : i + 25] for i in range(0, len(items), 25)] *)
Fixpoint batches (fuel : nat) (items : list event) : list (list event) :=
  match fuel, items with
  | S fuel', _ :: _ => take 25 items :: batches fuel' (drop 25 items)
  | _, _ => []
  end.

(** The inner loop over one batch: [clock n] is the clock reading taken
    for the item written after [n] earlier ones. *)
Definition write_batch (clock : nat → Z) (batch : list event)
    (st : table * nat) : table * nat :=
  foldl (λ '(t, written) item,
           let ttl := ttl_of (clock written) in
           (put_item (build_db_item item ttl) t, S written))
        st batch.

(** [_batch_write_to_dynamodb]: the new table and the number written. *)
Definition _batch_write_to_dynamodb (clock : nat → Z) (items : list event)
    (t : table) : table * nat :=
  match items with
  | [] => (t, 0%nat)
  | _ => foldl (λ st batch, write_batch clock batch st) (t, 0%nat)
           (batches (length items) items)
  end.

(** *** The rollup writer *)

(** A [defaultdict] kept in insertion order: [d[k] = f(d[k])], a missing
    key starting from the default value. *)
Fixpoint dict_update {V} (dflt : V) (f : V → V) (k : string)
    (d : list (string * V)) : list (string * V) :=
  match d with
  | [] => [(k, f dflt)]
  | (k', v) :: d' =>
      if decide (k = k') then (k', f v) :: d'
      else (k', v) :: dict_update dflt f k d'
  end.

(** The four in-memory maps of phase 1. *)
Record accumulators := {
  daily_stats : list (string * (Z * gset string));
  page_counts : list (string * Z);
  referrer_counts : list (string * Z);
  hourly_counts : list (string * Z);
}.

Definition no_accumulators : accumulators :=
  {| daily_stats := []; page_counts := []; referrer_counts := [];
     hourly_counts := [] |}.

(** [item["timestamp"][11:13] if len(item["timestamp"]) >= 13 else "00"] *)
Definition hour_of (ts : string) : string :=
  if (13 <=? String.length ts)%nat then PyStr.slice 11 13 ts else "00".

Definition hour_key (item : event) : string :=
  domain item +:+ "#" +:+ date item +:+ "#" +:+ hour_of (timestamp item).

(** The body of the aggregation loop, lines 238-265. *)
Definition aggregate (acc : accumulators) (item : event) : accumulators :=
  let daily_key := domain item +:+ "#" +:+ date item in
  let daily :=
    dict_update (0, ∅) (λ st, (st.1 + 1, st.2)) daily_key (daily_stats acc) in
  let daily :=
    if PyStr.truthy (client_ip item)
    then dict_update (0, ∅) (λ st, (st.1, {[client_ip item]} ∪ st.2)) daily_key daily
    else daily in
  let page_key := domain item +:+ "#" +:+ date item +:+ "#" +:+ path item in
  let pages := dict_update 0 (Z.add 1) page_key (page_counts acc) in
  let referrers :=
    match referrer_domain item with
    | Some rd =>
        if PyStr.truthy rd
        then dict_update 0 (Z.add 1)
               (domain item +:+ "#" +:+ date item +:+ "#" +:+ rd)
               (referrer_counts acc)
        else referrer_counts acc
    | None => referrer_counts acc
    end in
  let hours := dict_update 0 (Z.add 1) (hour_key item) (hourly_counts acc) in
  {| daily_stats := daily; page_counts := pages; referrer_counts := referrers;
     hourly_counts := hours |}.

(** One [ADD] clause of an update expression. *)
Inductive add_clause :=
| AddNum (name : string) (v : Z)
| AddSet (name : string) (ss : gset string).

(** [ADD] creates a missing attribute, adds to a number and unites with a
    set; on an attribute of another type the store rejects the update. *)
Definition apply_add (c : add_clause) (r : row) : option row :=
  match c with
  | AddNum name v =>
      match r !! name with
      | None => Some (<[name := ANum v]> r)
      | Some (ANum n) => Some (<[name := ANum (n + v)]> r)
      | Some _ => None
      end
  | AddSet name ss =>
      match r !! name with
      | None => Some (<[name := ASet ss]> r)
      | Some (ASet old) => Some (<[name := ASet (old ∪ ss)]> r)
      | Some _ => None
      end
  end.

(** [table.update_item(Key={PK, SK}, "SET #ttl = :ttl ADD ...")]: atomic on
    one row, which is created with its key when missing; [None] when the
    store raises. *)
Definition update_item (pk sk : string) (ttl : Z) (adds : list add_clause)
    (t : table) : option table :=
  let old := default (<["SK" := AStr sk]> (<["PK" := AStr pk]> ∅)) (t !! (pk, sk)) in
  new ← foldl (λ r c, r ≫= apply_add c) (Some (<["ttl" := ANum ttl]> old)) adds;
  Some (<[(pk, sk) := new]> t).

(** [try: table.update_item(...) except Exception: logger.warning(...)] *)
Definition try_update_item (pk sk : string) (ttl : Z) (adds : list add_clause)
    (t : table) : table :=
  default t (update_item pk sk ttl adds t).

(** Tuple unpacking of a [split] result; [None] is the [ValueError] of a
    wrong number of parts, raised outside the [try]. *)
Definition unpack2 (parts : list string) : option (string * string) :=
  match parts with
  | [a; b] => Some (a, b)
  | _ => None
  end.

Definition unpack3 (parts : list string) : option (string * string * string) :=
  match parts with
  | [a; b; c] => Some (a, b, c)
  | _ => None
  end.

(** Lines 274-291, one iteration. *)
Definition update_daily (ttl : Z) (t : table)
    (entry : string * (Z * gset string)) : option table :=
  '(domain, date) ← unpack2 (PyStr.split_max PyStr.hash entry.1 1);
  let adds :=
    AddNum "requests" entry.2.1
    :: (if decide (entry.2.2 = ∅) then [] else [AddSet "unique_ips" entry.2.2]) in
  Some (try_update_item ("ROLLUP#" +:+ domain) ("STATS#" +:+ date) ttl adds t).

(** Lines 294-330, one iteration of the page, referrer or hourly loop;
    [family] is ["PAGE#"], ["REF#"] or ["HOUR#"]. *)
Definition update_count (family : string) (ttl : Z) (t : table)
    (entry : string * Z) : option table :=
  '(domain, date, rest) ← unpack3 (PyStr.split_max PyStr.hash entry.1 2);
  Some (try_update_item ("ROLLUP#" +:+ domain)
          (family +:+ date +:+ "#" +:+ rest) ttl [AddNum "count" entry.2] t).

(** A [for] loop whose body may raise. *)
Definition for_each {A S} (body : S → A → option S) (l : list A) (s : S) : option S :=
  foldl (λ os a, os ≫= λ s, body s a) (Some s) l.

(** [_update_rollups]: [now] is the one clock reading of line 271; [None]
    when the function raises. *)
Definition _update_rollups (now : Z) (items : list event) (t : table) : option table :=
  match items with
  | [] => Some t
  | _ =>
      let acc := foldl aggregate no_accumulators items in
      let ttl := ttl_of now in
      t ← for_each (update_daily ttl) (daily_stats acc) t;
      t ← for_each (update_count "PAGE#" ttl) (page_counts acc) t;
      t ← for_each (update_count "REF#" ttl) (referrer_counts acc) t;
      for_each (update_count "HOUR#" ttl) (hourly_counts acc) t
  end.

(** *** The ingestion controller *)

(** What the handler reads from outside: [get_object bucket key] is the
    decompressed, decoded text of the object, [None] when fetching,
    decompressing or decoding raises; [now r n] is the [n]-th clock reading
    taken while record [r] is processed. *)
Record world := {
  get_object : string → string → option string;
  now : nat → nat → Z;
}.

(** The success response; [processed] and [written] are the two counts of
    its JSON body. *)
Record response := {
  statusCode : Z;
  message : string;
  processed : nat;
  written : nat;
}.

Record totals := {
  total_processed : nat;
  total_written : nat;
  store : table;
}.

(** Lines 372-384: the kept events of one object, the skipped count and
    the running total. *)
Definition collect_items `{UrlLib} (cfg : config) (actual_domain content : string)
    (total : nat) : list event * nat * nat :=
  foldl (λ '(items, skipped, total) line,
           match _parse_cloudfront_log_line line with
           | Some parsed =>
               if _should_exclude_path cfg (path parsed)
               then (items, S skipped, total)
               else (items ++ [with_domain actual_domain parsed], skipped, S total)
           | None => (items, skipped, total)
           end)
        ([], 0%nat, total) (PyStr.split PyStr.newline content).

(** The body of the loop over [event["Records"]]; a record is [None] when
    it lacks the bucket name or the object key ([KeyError]). *)
Definition process_record `{UrlLib} (w : world) (cfg : config) (st : totals)
    (rec : nat * option (string * string)) : option totals :=
  '(bucket, key) ← rec.2;
  content ← get_object w bucket key;
  match _extract_domain_from_s3_key key with
  | Some actual_domain =>
      if PyStr.truthy actual_domain then
        let '(items, skipped, total) :=
          collect_items cfg actual_domain content (total_processed st) in
        match items with
        | [] => Some {| total_processed := total;
                        total_written := total_written st; store := store st |}
        | _ =>
            let '(t, n) := _batch_write_to_dynamodb (now w rec.1) items (store st) in
            t ← _update_rollups (now w rec.1 (length items)) items t;
            Some {| total_processed := total;
                    total_written := total_written st + n; store := t |}
        end
      else Some st
  | None => Some st
  end.

(** [lambda_handler]: the response and the table, [None] when it raises. *)
Definition lambda_handler `{UrlLib} (w : world) (cfg : config)
    (records : list (option (string * string))) (t : table)
    : option (response * table) :=
  st ← for_each (process_record w cfg)
         (zip (seq 0 (length records)) records)
         {| total_processed := 0; total_written := 0; store := t |};
  Some ({| statusCode := 200; message := "Success";
           processed := total_processed st; written := total_written st |},
        store st).

(** *** Vocabulary of the statements *)

(** [line.strip().split("\t")] *)
Definition fields_of (line : string) : list string :=
  PyStr.split PyStr.tab (PyStr.strip line).

(** [fields[i]] for an index in range. *)
Definition field (fields : list string) (i : nat) : string :=
  default "" (fields !! i).

(** [normalize(x) = lowercase(x).trim_prefix("www.")] *)
Definition normalize `{UrlLib} (x : string) : string := strip_www (lower x).

(** The event of a line in terms of its fields. *)
Definition event_of_fields `{UrlLib} (fields : list string) : event :=
  {| domain := field fields 6;
     timestamp := field fields 0 +:+ "T" +:+ field fields 1 +:+ "Z";
     date := field fields 0;
     path := unquote (field fields 7);
     status := field fields 8;
     referrer := dash_to_none (field fields 9);
     referrer_domain :=
       parse_referrer_domain (field fields 6) (dash_to_none (field fields 9));
     user_agent := dash_to_none (field fields 10);
     client_ip := field fields 4;
     request_id := field fields 14 |}.

(** Rows that agree on every attribute but [ttl]. *)
Definition same_but_ttl (r1 r2 : row) : Prop :=
  ∀ k, k ≠ "ttl" → r1 !! k = r2 !! k.

(** The primary key the event writer gives an event. *)
Definition event_key (item : event) : string * string :=
  (domain item +:+ "#" +:+ date item,
   timestamp item +:+ "#" +:+ request_id item).

(** One event written once per clock reading of [nows], each time by a
    call of the event writer. *)
Definition write_times (item : event) (nows : list Z) (t : table) : table :=
  foldl (λ t now, (_batch_write_to_dynamodb (λ _, now) [item] t).1) t nows.

Definition is_digit (c : ascii) : bool :=
  (48 <=? nat_of_ascii c)%nat && (nat_of_ascii c <=? 57)%nat.

(** Two decimal digits that name an hour of the day. *)
Definition is_two_digit_hour (s : string) : bool :=
  match s with
  | String a (String b EmptyString) =>
      is_digit a && is_digit b
      && (10 * (nat_of_ascii a - 48) + (nat_of_ascii b - 48) <? 24)%nat
  | _ => false
  end.

(** [d.get(k)] on an accumulator. *)
Fixpoint dict_get {V} (k : string) (d : list (string * V)) : option V :=
  match d with
  | [] => None
  | (k', v) :: d' => if decide (k = k') then Some v else dict_get k d'
  end.

(** One remote update of phase 2: its key and what it adds. *)
Inductive upd :=
| UDaily (pk sk : string) (requests : Z) (ips : gset string)
| UCount (pk sk : string) (count : Z).

Definition upd_key (u : upd) : string * string :=
  match u with
  | UDaily pk sk _ _ => (pk, sk)
  | UCount pk sk _ => (pk, sk)
  end.

Definition upd_adds (u : upd) : list add_clause :=
  match u with
  | UDaily _ _ r ips =>
      AddNum "requests" r
      :: (if decide (ips = ∅) then [] else [AddSet "unique_ips" ips])
  | UCount _ _ c => [AddNum "count" c]
  end.

Definition run_upd (ttl : Z) (t : table) (u : upd) : table :=
  try_update_item (upd_key u).1 (upd_key u).2 ttl (upd_adds u) t.

(** The update of one daily entry; the second case never arises for a
    key built by phase 1. *)
Definition daily_upd (entry : string * (Z * gset string)) : upd :=
  match PyStr.split_max PyStr.hash entry.1 1 with
  | [domain; date] =>
      UDaily ("ROLLUP#" +:+ domain) ("STATS#" +:+ date) entry.2.1 entry.2.2
  | _ => UDaily "" "" 0 ∅
  end.

Definition count_upd (family : string) (entry : string * Z) : upd :=
  match PyStr.split_max PyStr.hash entry.1 2 with
  | [domain; date; rest] =>
      UCount ("ROLLUP#" +:+ domain) (family +:+ date +:+ "#" +:+ rest) entry.2
  | _ => UCount "" "" 0
  end.

(** The updates phase 2 issues for the accumulators, in order. *)
Definition plan (acc : accumulators) : list upd :=
  (daily_upd <$> daily_stats acc)
  ++ (count_upd "PAGE#" <$> page_counts acc)
  ++ (count_upd "REF#" <$> referrer_counts acc)
  ++ (count_upd "HOUR#" <$> hourly_counts acc).

(** The table with the [ttl] attribute of every row erased. *)
Definition strip_ttl (t : table) : table := delete "ttl" <$> t.

(** The counters of the row stored under a key: [requests], [count] and
    [unique_ips]. *)
Definition counters (t : table) (key : string * string)
    : option (option attr * option attr * option attr) :=
  (λ r : row, (r !! "requests", r !! "count", r !! "unique_ips")) <$> t !! key.

(** Every key of an accumulator holds at least [n] separators. *)
Definition keys_ok {V} (n : nat) (d : list (string * V)) : Prop :=
  Forall (λ kv, (n <= PyStr.count_char PyStr.hash kv.1)%nat) d.

Definition acc_ok (acc : accumulators) : Prop :=
  keys_ok 1 (daily_stats acc) ∧ keys_ok 2 (page_counts acc)
  ∧ keys_ok 2 (referrer_counts acc) ∧ keys_ok 2 (hourly_counts acc).

(** The [ADD] clauses of one update expression, applied in turn. *)
Definition run_adds (adds : list add_clause) (r : row) : option row :=
  foldl (λ r c, r ≫= apply_add c) (Some r) adds.

(** The effect of an update on a row with its [ttl] erased; a rejected
    update changes nothing. *)
Definition add_to_row (u : upd) (r : row) : row :=
  default r (run_adds (upd_adds u) r).

(** The row [update_item] starts from when the key is new. *)
Definition key_row (k : string * string) : row :=
  <["SK" := AStr k.2]> (<["PK" := AStr k.1]> ∅).

Definition add_to_table (s : table) (u : upd) : table :=
  <[upd_key u := add_to_row u (default (key_row (upd_key u)) (s !! upd_key u))]> s.

Definition add_name (c : add_clause) : string :=
  match c with
  | AddNum name _ => name
  | AddSet name _ => name
  end.

(** What the loop of lines 372-384 does with one line: the event it
    appends to [items], if any. *)
Definition kept_event `{UrlLib} (cfg : config) (actual_domain line : string)
    : option event :=
  parsed ← _parse_cloudfront_log_line line;
  if _should_exclude_path cfg (path parsed) then None
  else Some (with_domain actual_domain parsed).

(** The events the handler keeps from the object of a record: those of
    the lines that parse and are not excluded, none when the key gives no
    domain. *)
Definition kept_of_record `{UrlLib} (w : world) (cfg : config)
    (rec : option (string * string)) : list event :=
  match rec with
  | Some (bucket, key) =>
      match get_object w bucket key, _extract_domain_from_s3_key key with
      | Some content, Some actual_domain =>
          if PyStr.truthy actual_domain
          then omap (kept_event cfg actual_domain) (PyStr.split PyStr.newline content)
          else []
      | _, _ => []
      end
  | None => []
  end.

(** *** Example inputs *)

(** The twenty fields of a request for [/] on [example.com], referred by
    a search engine. *)
Definition example_fields : list string :=
  ["2024-01-15"; "12:00:00"; "SEA19-C1"; "1234"; "192.168.1.1"; "GET";
   "example.com"; "/"; "200"; "https://google.com/search"; "Mozilla/5.0";
   "-"; "-"; "Hit"; "abcd1234"; "example.com"; "https"; "567"; "0.001"; "-"].

(** ["\t".join(fields)] *)
Definition line_of (fields : list string) : string :=
  PyStr.join (String PyStr.tab EmptyString) fields.

Definition example_line : string := line_of example_fields.

(** The same request with the referrer [http://www./x]. *)
Definition www_only_line : string :=
  line_of (<[9%nat := "http://www./x"]> example_fields).

(** The same request with dashes for user agent and request id. *)
Definition dashes_line : string :=
  line_of (<[14%nat := "-"]> (<[10%nat := "-"]> example_fields)).

(** The same request with the date written without leading zeros. *)
Definition short_date_line : string :=
  line_of (<[0%nat := "2024-1-5"]> example_fields).

Definition example_event : event :=
  {| domain := "example.com"; timestamp := "2024-01-15T12:00:00Z";
     date := "2024-01-15"; path := "/"; status := "200";
     referrer := Some "https://google.com/search";
     referrer_domain := Some "google.com";
     user_agent := Some "Mozilla/5.0"; client_ip := "192.168.1.1";
     request_id := "abcd1234" |}.

Definition example_config : config :=
  {| EXCLUDED_EXTENSIONS := [".css"; ".js"]; EXCLUDED_PATHS := ["/wp-admin"] |}.

(** One object holding a comment line and two requests, one of them for a
    style sheet. *)
Definition example_content : string :=
  PyStr.join (String PyStr.newline EmptyString)
    ["#Version: 1.0"; example_line;
     line_of (<[7%nat := "/app.css"]> example_fields);
     line_of (<[14%nat := "efgh5678"]> (<[7%nat := "/about"]> example_fields));
     ""].

Definition example_world : world :=
  {| get_object := λ bucket key,
       if decide (key = "example.com/2024/01/15/E1.2024-01-15-12.abc.gz")
       then Some example_content else None;
     now := λ _ n, 1705320000 + Z.of_nat n |}.

Definition example_records : list (option (string * string)) :=
  [Some ("logs", "example.com/2024/01/15/E1.2024-01-15-12.abc.gz")].

(** *** The configuration read at import time *)

(** Line 36: [set(ext.strip().lower() for ext in s.split(",") if
    ext.strip())], kept as the list of its elements, which is all that
    [any] looks at. *)
Definition excluded_extensions_of_env `{UrlLib} (s : string) : list string :=
  (λ ext, lower (PyStr.strip ext))
    <$> filter (λ ext, PyStr.truthy (PyStr.strip ext) = true) (PyStr.split ","%char s).

(** Line 40: [[p.strip() for p in s.split(",") if p.strip()]] *)
Definition excluded_paths_of_env (s : string) : list string :=
  PyStr.strip
    <$> filter (λ p, PyStr.truthy (PyStr.strip p) = true) (PyStr.split ","%char s).

(** The configuration for the two environment variables, [None] for a
    variable that is not set: [os.environ.get(name, "")]. *)
Definition config_of_env `{UrlLib} (extensions paths : option string) : config :=
  {| EXCLUDED_EXTENSIONS := excluded_extensions_of_env (default "" extensions);
     EXCLUDED_PATHS := excluded_paths_of_env (default "" paths) |}.

(** *** Vocabulary of the rollup rows *)

(** The keys of the aggregation loop: [daily_key] (line 252), [page_key]
    (line 258) and [ref_key] (line 263), which only an event with a
    non-empty [referrer_domain] has. *)
Definition daily_key (item : event) : string := domain item +:+ "#" +:+ date item.

Definition page_key (item : event) : string :=
  domain item +:+ "#" +:+ date item +:+ "#" +:+ path item.

Definition ref_key (item : event) : option string :=
  match referrer_domain item with
  | Some rd =>
      if PyStr.truthy rd then Some (domain item +:+ "#" +:+ date item +:+ "#" +:+ rd)
      else None
  | None => None
  end.

(** The three families of counting rollups. *)
Inductive family := Page | Referrer | Hour.

Definition family_prefix (f : family) : string :=
  match f with
  | Page => "PAGE#"
  | Referrer => "REF#"
  | Hour => "HOUR#"
  end.

Definition family_key (f : family) (item : event) : option string :=
  match f with
  | Page => Some (page_key item)
  | Referrer => ref_key item
  | Hour => Some (hour_key item)
  end.

Definition family_counts (f : family) (acc : accumulators) : list (string * Z) :=
  match f with
  | Page => page_counts acc
  | Referrer => referrer_counts acc
  | Hour => hourly_counts acc
  end.

(** The non-empty client addresses of a list of events. *)
Definition client_ips (items : list event) : gset string :=
  list_to_set (filter (λ ip, PyStr.truthy ip = true) (client_ip <$> items)).

(** The number stored under [name] in a row that may be missing, [0] when
    the row or the attribute is missing and [None] when the attribute is
    not a number. *)
Definition num_attr (name : string) (r : option row) : option Z :=
  match r ≫= (.!! name) with
  | None => Some 0
  | Some (ANum n) => Some n
  | Some _ => None
  end.

(** The same for a string set, empty when missing. *)
Definition set_attr (name : string) (r : option row) : option (gset string) :=
  match r ≫= (.!! name) with
  | None => Some ∅
  | Some (ASet s) => Some s
  | Some _ => None
  end.

(** What one update does to the row under its key: the row is created
    when missing, and is left as it was when the store rejects the
    update. *)
Definition row_step (ttl : Z) (u : upd) (r : option row) : option row :=
  match run_adds (upd_adds u)
          (<["ttl" := ANum ttl]> (default (key_row (upd_key u)) r)) with
  | Some new => Some new
  | None => r
  end.

(** *** Vocabulary of the controller *)

(** A record that names an object the handler can fetch, decompress and
    decode. *)
Definition readable (w : world) (rec : option (string * string)) : bool :=
  match rec with
  | Some (bucket, key) => bool_decide (is_Some (get_object w bucket key))
  | None => false
  end.

(** *** More example inputs *)

(** A store in which every object holds the two header lines of a log
    file and nothing else. *)
Definition header_world : world :=
  {| get_object := λ _ _,
       Some (PyStr.join (String PyStr.newline EmptyString)
               ["#Version: 1.0"; "#Fields: date time x-edge-location"; ""]);
     now := λ _ _, 0 |}.

(** Two deliveries, the second under a key without a domain. *)
Definition header_records : list (option (string * string)) :=
  [Some ("logs", "example.com/2024/01/15/E1.gz"); Some ("logs", "/stray.gz")].

End LogParser.

(** ** The journey tracker: [src/lambda/journey-tracker/handler.py] *)

(** A decoded JSON value, as [json.loads] returns it. [JNull] is Python's
    [None], an object keeps its members in order. *)
#[local] Unset Elimination Schemes.
Inductive json :=
| JNull
| JBool (b : bool)
| JInt (n : Z)
| JFloat (f : float)
| JStr (s : string)
| JArr (items : list json)
| JObj (members : list (string * json)).
#[local] Set Elimination Schemes.

(** The exceptions the tracker can meet; [OtherError] stands for those only
    the library raises ([binascii.Error], [UnicodeDecodeError],
    [RecursionError]). *)
Inductive exn :=
| TypeError
| AttributeError
| KeyError
| ValueError (msg : string)
| OtherError (name : string).

(** A computation that returns or raises. *)
Inductive result (A : Type) :=
| Ok (a : A)
| Raise (e : exn).
Arguments Ok {A} a.
Arguments Raise {A} e.

Definition bind {A B} (m : result A) (k : A → result B) : result B :=
  match m with
  | Ok a => k a
  | Raise e => Raise e
  end.

Notation "x <- m ;; k" := (bind m (λ x, k))
  (at level 100, m at next level, right associativity, only parsing).

(** What [json.loads] does with a text. *)
Inductive loads_result :=
| Loaded (v : json)
| JSONDecodeError
| LoadsRaises (e : exn).

(** The library interface of the tracker: [json_loads] is [json.loads];
    [b64decode_utf8 s] is [base64.b64decode(s).decode("utf-8")]; [py_str v]
    is the text an f-string gives for [v], which for a [str] is the string
    itself; [exn_str e] is [str(e)]; [slice_hashable] tells whether slice
    objects are hashable, as they are from Python 3.12 on, which decides the
    exception of [d[:10]] on a dictionary. *)
Class JsonLib := {
  json_loads : string → loads_result;
  b64decode_utf8 : string → result string;
  py_str : json → string;
  py_str_JStr : ∀ s, py_str (JStr s) = s;
  exn_str : exn → string;
  slice_hashable : bool;
}.

(** An executable instance for the request bodies of the examples. *)
Module ExampleJson.

(** The double quote, which a string literal cannot hold. *)
Definition dq : string := String (ascii_of_nat 34) EmptyString.

Definition quoted (s : string) : string := dq +:+ s +:+ dq.

(** The text [{"k1": "v1", ...}] of an object with string members. *)
Definition object_text (members : list (string * string)) : string :=
  "{" +:+ PyStr.join ", " ((λ kv, quoted kv.1 +:+ ": " +:+ quoted kv.2) <$> members)
  +:+ "}".

Definition object_value (members : list (string * string)) : json :=
  JObj ((λ kv, (kv.1, JStr kv.2)) <$> members).

(** A valid page view. *)
Definition pageview : list (string * string) :=
  [("session_id", "s1"); ("event_type", "pageview");
   ("domain", "example.com"); ("path", "/")].

(** The same event without its path. *)
Definition no_path : list (string * string) :=
  [("session_id", "s1"); ("event_type", "pageview"); ("domain", "example.com")].

(** The two page views of a visit, told apart by their event ids. *)
Definition first_view : list (string * string) := pageview ++ [("event_id", "e1")].

Definition second_view : list (string * string) := pageview ++ [("event_id", "e2")].

(** The text of the page view with one more member, given as text. *)
Definition pageview_with (member : string) : string :=
  "{" +:+ PyStr.join ", " (((λ kv, quoted kv.1 +:+ ": " +:+ quoted kv.2) <$> pageview)
                           ++ [member])
  +:+ "}".

(** The page view with a scroll depth that is not a whole number. *)
Definition scrolled_text : string := pageview_with (quoted "scroll_depth" +:+ ": 55.5").

Definition scrolled_value : json :=
  JObj (((λ kv, (kv.1, JStr kv.2)) <$> pageview)
        ++ [("scroll_depth", JFloat 55.5%float)]).

(** The page view with an object as its timestamp. *)
Definition stamped_text : string :=
  pageview_with (quoted "timestamp" +:+ ": {" +:+ quoted "ms" +:+ ": 1705320000000}").

Definition stamped_value : json :=
  JObj (((λ kv, (kv.1, JStr kv.2)) <$> pageview)
        ++ [("timestamp", JObj [("ms", JInt 1705320000000)])]).

(** The text [{"events": [event]}] of a batch of one event. *)
Definition batch_of (event : string) : string :=
  "{" +:+ quoted "events" +:+ ": [" +:+ event +:+ "]}".

Definition batch_text (events : list (list (string * string))) : string :=
  "{" +:+ quoted "events" +:+ ": ["
  +:+ PyStr.join ", " (object_text <$> events) +:+ "]}".

Definition batch_value (events : list (list (string * string))) : json :=
  JObj [("events", JArr (object_value <$> events))].

(** The texts the examples decode, each with the value [json.loads] gives
    for it. *)
Definition loads_table : list (string * json) :=
  [("{}", JObj []);
   ("[]", JArr []);
   ("null", JNull);
   (object_text pageview, object_value pageview);
   (object_text no_path, object_value no_path);
   (batch_text [first_view; no_path; second_view],
    batch_value [first_view; no_path; second_view]);
   (batch_of scrolled_text, JObj [("events", JArr [scrolled_value])]);
   (batch_of stamped_text, JObj [("events", JArr [stamped_value])])].

Fixpoint assoc (k : string) (l : list (string * json)) : option json :=
  match l with
  | [] => None
  | (k', v) :: l' => if decide (k = k') then Some v else assoc k l'
  end.

(** Every other text of the examples is malformed. *)
Definition json_loads (s : string) : loads_result :=
  match assoc s loads_table with
  | Some v => Loaded v
  | None => JSONDecodeError
  end.

Definition b64_value (c : ascii) : option nat :=
  let n := nat_of_ascii c in
  if ((65 <=? n) && (n <=? 90))%nat then Some (n - 65)%nat
  else if ((97 <=? n) && (n <=? 122))%nat then Some (n - 71)%nat
  else if ((48 <=? n) && (n <=? 57))%nat then Some (n + 4)%nat
  else if (n =? 43)%nat then Some 62%nat
  else if (n =? 47)%nat then Some 63%nat
  else None.

Definition pad : ascii := "="%char.

(** Strict base64: groups of four characters, padding only at the end. *)
Fixpoint b64_bytes (cs : list ascii) : option (list nat) :=
  match cs with
  | [] => Some []
  | a :: b :: c :: d :: rest =>
      x ← b64_value a; y ← b64_value b;
      let b0 := (4 * x + y / 16)%nat in
      if decide (c = pad) then
        if decide (d = pad) then
          match rest with [] => Some [b0] | _ => None end
        else None
      else
        z ← b64_value c;
        let b1 := (16 * (y mod 16) + z / 4)%nat in
        if decide (d = pad) then
          match rest with [] => Some [b0; b1] | _ => None end
        else
          w ← b64_value d;
          tl ← b64_bytes rest;
          Some (b0 :: b1 :: (64 * (z mod 4) + w)%nat :: tl)
  | _ => None
  end.

(** Bytes below 128 decode to themselves; other UTF-8 is not needed by the
    examples and is reported as an error. *)
Definition b64decode_utf8 (s : string) : result string :=
  match b64_bytes (list_ascii_of_string s) with
  | Some bytes =>
      if forallb (λ b, b <? 128)%nat bytes
      then Ok (string_of_list_ascii (ascii_of_nat <$> bytes))
      else Raise (OtherError "UnicodeDecodeError")
  | None => Raise (OtherError "binascii.Error")
  end.

(** f-string formatting of the scalars the examples format. *)
Definition py_str (v : json) : string :=
  match v with
  | JStr s => s
  | JNull => "None"
  | JBool true => "True"
  | JBool false => "False"
  | JInt n => pretty n
  | JFloat _ => "<float>"
  | JArr _ => "<list>"
  | JObj _ => "<dict>"
  end.

Definition exn_str (e : exn) : string :=
  match e with
  | TypeError => "TypeError"
  | AttributeError => "AttributeError"
  | KeyError => "KeyError"
  | ValueError msg => msg
  | OtherError name => name
  end.

End ExampleJson.

#[export] Instance example_json_lib : JsonLib := {|
  json_loads := ExampleJson.json_loads;
  b64decode_utf8 := ExampleJson.b64decode_utf8;
  py_str := ExampleJson.py_str;
  py_str_JStr := λ s, eq_refl;
  exn_str := ExampleJson.exn_str;
  slice_hashable := true;
|}.

Module JourneyTracker.

(** The module-level configuration: [os.environ.get("SESSIONS_TABLE")] and
    [os.environ.get("ALLOWED_DOMAINS", "").split(",")]. *)
Record config := {
  SESSIONS_TABLE : option string;
  ALLOWED_DOMAINS : list string;
}.

(** The response dictionary; [body] is the value handed to [json.dumps]. *)
Record response := {
  statusCode : Z;
  headers : list (string * string);
  body : json;
}.

(** [_response] *)
Definition _response (status_code : Z) (body : json) : response :=
  {| statusCode := status_code;
     headers := [("Content-Type", "application/json");
                 ("Access-Control-Allow-Origin", "*");
                 ("Access-Control-Allow-Headers", "Content-Type");
                 ("Access-Control-Allow-Methods", "OPTIONS,POST")];
     body := body |}.

(** [_error] *)
Definition _error (status_code : Z) (message : string) : response :=
  _response status_code (JObj [("error", JStr message)]).

(** *** Python operations on decoded JSON *)

(** Truthiness. *)
Definition truthy (v : json) : bool :=
  match v with
  | JNull => false
  | JBool b => b
  | JInt n => negb (n =? 0)
  | JFloat f => negb (PrimFloat.eqb f PrimFloat.zero)
  | JStr s => PyStr.truthy s
  | JArr l => match l with [] => false | _ => true end
  | JObj ms => match ms with [] => false | _ => true end
  end.

(** [v == s] for a string [s]. *)
Definition eq_str (s : string) (v : json) : bool :=
  match v with
  | JStr s' => bool_decide (s' = s)
  | _ => false
  end.

(** Dictionary lookup in the members of an object. *)
Fixpoint lookup_member (k : string) (ms : list (string * json)) : option json :=
  match ms with
  | [] => None
  | (k', v) :: ms' => if decide (k = k') then Some v else lookup_member k ms'
  end.

(** [k in v]: key membership for a dictionary, element membership for a
    list, substring for a string, [TypeError] otherwise. *)
Definition py_in (k : string) (v : json) : result bool :=
  match v with
  | JObj ms => Ok (bool_decide (is_Some (lookup_member k ms)))
  | JArr l => Ok (existsb (eq_str k) l)
  | JStr s => Ok (PyStr.contains k s)
  | _ => Raise TypeError
  end.

(** [v.get(k, dflt)]: only a dictionary has [get]. *)
Definition py_get (v : json) (k : string) (dflt : json) : result json :=
  match v with
  | JObj ms => Ok (default dflt (lookup_member k ms))
  | _ => Raise AttributeError
  end.

(** [v[k]] for a string key. *)
Definition py_getitem (v : json) (k : string) : result json :=
  match v with
  | JObj ms =>
      match lookup_member k ms with
      | Some x => Ok x
      | None => Raise KeyError
      end
  | _ => Raise TypeError
  end.

(** [v in l] for a list of strings. *)
Definition in_strs (v : json) (l : list string) : bool :=
  existsb (λ s, eq_str s v) l.

(** *** Validation *)

Definition required_fields : list string :=
  ["session_id"; "event_type"; "domain"; "path"].

Definition valid_types : list string :=
  ["session_start"; "pageview"; "navigation"; "scroll"; "time_on_page";
   "session_end"; "not_found"].

(** The first loop of [_validate_event]: the message for the first missing
    field, if any. *)
Fixpoint check_required (fields : list string) (event_data : json)
    : result (option string) :=
  match fields with
  | [] => Ok None
  | field :: rest =>
      present <- py_in field event_data;;
      if present then check_required rest event_data
      else Ok (Some ("Missing required field: " +:+ field))
  end.

(** [_validate_event]: [Ok None] for a valid event, [Ok (Some msg)] for a
    rejected one. *)
Definition _validate_event `{JsonLib} (cfg : config) (event_data : json)
    : result (option string) :=
  missing <- check_required required_fields event_data;;
  match missing with
  | Some msg => Ok (Some msg)
  | None =>
      domain <- py_get event_data "domain" (JStr "");;
      if negb (in_strs domain (ALLOWED_DOMAINS cfg))
      then Ok (Some ("Domain not allowed: " +:+ py_str domain))
      else
        event_type <- py_get event_data "event_type" JNull;;
        if negb (in_strs event_type valid_types)
        then Ok (Some ("Invalid event type: " +:+ py_str event_type))
        else Ok None
  end.

(** *** Item construction *)

(** What one call of [_build_dynamodb_item] reads from outside:
    [datetime.utcnow().isoformat()], [datetime.utcnow().strftime("%Y-%m-%d")],
    [str(uuid.uuid4())], which has 36 characters, and [int(time.time())]. *)
Record reading := {
  utcnow_isoformat : string;
  utcnow_date : string;
  uuid4_str : string;
  time_time : Z;
  uuid4_str_length : String.length uuid4_str = 36%nat;
}.

Abbreviation item := (gmap string json).
Abbreviation table := (gmap (string * string) (gmap string json)).

(** [a or b] *)
Definition py_or (a b : json) : json := if truthy a then a else b.

(** [timestamp[:10]] *)
Definition slice10 `{JsonLib} (timestamp : json) : result json :=
  match timestamp with
  | JStr s => Ok (JStr (PyStr.take 10 s))
  | JArr l => Ok (JArr (take 10 l))
  | JObj _ => Raise (if slice_hashable then KeyError else TypeError)
  | _ => Raise TypeError
  end.

(** Lines 101-104: [except (TypeError, IndexError)] only. *)
Definition date_of `{JsonLib} (rd : reading) (timestamp : json) : result json :=
  match slice10 timestamp with
  | Ok d => Ok d
  | Raise TypeError => Ok (JStr (utcnow_date rd))
  | Raise e => Raise e
  end.

Definition optional_fields : list string :=
  ["referrer"; "previous_path"; "scroll_depth"; "time_on_page"; "user_agent";
   "screen_width"; "screen_height"; "viewport_width"; "viewport_height";
   "is_ai_pattern"; "matched_pattern"].

(** One iteration of the loop over [optional_fields]. *)
Definition copy_optional (event_data : json) (it : result item) (field : string)
    : result item :=
  it <- it;;
  present <- py_in field event_data;;
  if present then
    v <- py_getitem event_data field;;
    match v with
    | JNull => Ok it
    | _ => Ok (<[field := v]> it)
    end
  else Ok it.

(** [_build_dynamodb_item] *)
Definition _build_dynamodb_item `{JsonLib} (rd : reading) (event_data : json)
    : result item :=
  session_id <- py_getitem event_data "session_id";;
  event_type <- py_getitem event_data "event_type";;
  domain <- py_getitem event_data "domain";;
  path <- py_getitem event_data "path";;
  ts <- py_get event_data "timestamp" JNull;;
  let timestamp := py_or ts (JStr (utcnow_isoformat rd +:+ "Z")) in
  eid <- py_get event_data "event_id" JNull;;
  let event_id := py_or eid (JStr (PyStr.take 8 (uuid4_str rd))) in
  date <- date_of rd timestamp;;
  let ttl := time_time rd + 90 * 24 * 60 * 60 in
  let it : item :=
    <["ttl" := JInt ttl]>
    (<["timestamp" := timestamp]>
    (<["path" := path]>
    (<["domain" := domain]>
    (<["event_type" := event_type]>
    (<["session_id" := session_id]>
    (<["GSI2SK" := timestamp]>
    (<["GSI2PK" := JStr ("DOMAIN#" +:+ py_str domain +:+ "#PATH#" +:+ py_str path)]>
    (<["GSI1SK" := JStr ("SESSION#" +:+ py_str session_id)]>
    (<["GSI1PK" := JStr ("DOMAIN#" +:+ py_str domain +:+ "#DATE#" +:+ py_str date)]>
    (<["SK" := JStr ("EVENT#" +:+ py_str timestamp +:+ "#" +:+ py_str event_id)]>
    (<["PK" := JStr ("SESSION#" +:+ py_str session_id)]> ∅))))))))))) in
  foldl (copy_optional event_data) (Ok it) optional_fields.

(** *** The store *)

(** A JSON float anywhere in a value. *)
Fixpoint holds_float (v : json) : bool :=
  match v with
  | JFloat _ => true
  | JArr l =>
      (fix any (l : list json) : bool :=
         match l with
         | [] => false
         | x :: l' => holds_float x || any l'
         end) l
  | JObj ms =>
      (fix any (ms : list (string * json)) : bool :=
         match ms with
         | [] => false
         | (_, x) :: ms' => holds_float x || any ms'
         end) ms
  | _ => false
  end.

(** The table behind [table.batch_writer()].  [batch_write_error items] is
    what one [batch_write_item] request for [items] meets: [None] when the
    request is carried out, leaving no item unprocessed, and the exception
    when the client or the service refuses it.  The client serialises every
    item of a request before it sends it and raises [TypeError] on a
    float, which [json.loads] gives for a number with a fraction or an
    exponent; so a request with an item that holds a float is refused. *)
Class Store := {
  batch_write_error : list item → option exn;
  float_refused : ∀ (items : list item) (it : item) (k : string) (v : json),
    it ∈ items → it !! k = Some v → holds_float v = true →
    is_Some (batch_write_error items);
}.

(** One put of a request that is carried out: the row under the key of
    the item is replaced by the item. *)
Definition store_put (it : item) (t : table) : table :=
  match it !! "PK", it !! "SK" with
  | Some (JStr pk), Some (JStr sk) => <[(pk, sk) := it]> t
  | _, _ => t
  end.

(** *** The batch writer *)

(** [flush_amount], 25 unless [batch_writer] is told otherwise. *)
Definition flush_amount : nat := 25.

(** [BatchWriter._flush]: the first [flush_amount] items leave the buffer
    and are sent in one request.  The result is the exception raised, if
    any, the items still held and the table. *)
Definition _flush `{Store} (buffer : list item) (t : table)
    : option exn * list item * table :=
  let items_to_send := take flush_amount buffer in
  let rest := drop flush_amount buffer in
  match batch_write_error items_to_send with
  | Some e => (Some e, rest, t)
  | None => (None, rest, foldl (λ t it, store_put it t) t items_to_send)
  end.

(** [batch.put_item(Item=item)]: the item joins the buffer, which is
    flushed as soon as it holds [flush_amount] items. *)
Definition put_item `{Store} (it : item) (buffer : list item) (t : table)
    : option exn * list item * table :=
  let buffer := buffer ++ [it] in
  if (flush_amount <=? length buffer)%nat then _flush buffer t
  else (None, buffer, t).

(** Leaving [with table.batch_writer() as batch]:
    [while self._items_buffer: self._flush()].  Every flush takes at least
    one item, so the length of the buffer is fuel enough. *)
Fixpoint writer_exit `{Store} (fuel : nat) (buffer : list item) (t : table)
    : option exn * table :=
  match fuel, buffer with
  | S fuel', _ :: _ =>
      match _flush buffer t with
      | (Some e, _, t') => (Some e, t')
      | (None, rest, t') => writer_exit fuel' rest t'
      end
  | _, _ => (None, t)
  end.

(** *** Writing *)

(** The state of the loop of [_write_events]: the two results, the items
    the batch writer holds and the table. *)
Record write_state := {
  written : nat;
  errors : list string;
  buffer : list item;
  sessions : table;
}.

(** Lines 156-168, one iteration; [rd] is what this event's item
    construction reads from the clock and the UUID generator.  A flush
    that [put_item] sets off and that raises is caught like every other
    exception of the iteration. *)
Definition write_event `{JsonLib} `{Store} (cfg : config) (st : write_state)
    (entry : reading * json) : write_state :=
  let reject msg :=
    {| written := written st; errors := errors st ++ [msg];
       buffer := buffer st; sessions := sessions st |} in
  match _validate_event cfg entry.2 with
  | Ok (Some validation_error) => reject validation_error
  | Ok None =>
      match _build_dynamodb_item entry.1 entry.2 with
      | Ok it =>
          match put_item it (buffer st) (sessions st) with
          | (None, held, t) =>
              {| written := S (written st); errors := errors st;
                 buffer := held; sessions := t |}
          | (Some e, held, t) =>
              {| written := written st; errors := errors st ++ [exn_str e];
                 buffer := held; sessions := t |}
          end
      | Raise e => reject (exn_str e)
      end
  | Raise e => reject (exn_str e)
  end.

(** [_write_events]: the dictionary it returns, or the exception it
    raises, and the table it leaves; [rds] gives each event its readings.
    The flush on leaving the [with] block is outside the [try] of the
    loop. *)
Definition _write_events `{JsonLib} `{Store} (cfg : config) (rds : nat → reading)
    (events : list json) (t : table) : result (nat * list string) * table :=
  let unset := ValueError "SESSIONS_TABLE environment variable not set" in
  match SESSIONS_TABLE cfg with
  | Some name =>
      if PyStr.truthy name then
        let st :=
          foldl (write_event cfg)
            {| written := 0; errors := []; buffer := []; sessions := t |}
            (zip (rds <$> seq 0 (length events)) events) in
        match writer_exit (length (buffer st)) (buffer st) (sessions st) with
        | (Some e, t') => (Raise e, t')
        | (None, t') => (Ok (written st, errors st), t')
        end
      else (Raise unset, t)
  | None => (Raise unset, t)
  end.

(** [_handle_single_event] *)
Definition _handle_single_event `{JsonLib} `{Store} (cfg : config)
    (rds : nat → reading) (body : json) (t : table) : result response * table :=
  match _write_events cfg rds [body] t with
  | (Ok result, t') =>
      (Ok (if decide (result.1 = 1%nat)
           then _response 200 (JObj [("status", JStr "ok")])
           else _error 400 (match result.2 with
                            | msg :: _ => msg
                            | [] => "Unknown error"
                            end)), t')
  | (Raise e, t') => (Raise e, t')
  end.

(** [len(events)] and [for event_data in events] see a list as it is, a
    string as its characters and a dictionary as its keys; a number or a
    boolean has no [len]. *)
Definition py_list (v : json) : result (list json) :=
  match v with
  | JArr l => Ok l
  | JStr s => Ok (JStr <$> ((λ c, String c EmptyString) <$> list_ascii_of_string s))
  | JObj ms => Ok (JStr <$> ms.*1)
  | _ => Raise TypeError
  end.

(** [_handle_batch_events] *)
Definition _handle_batch_events `{JsonLib} `{Store} (cfg : config)
    (rds : nat → reading) (body : json) (t : table) : result response * table :=
  match py_get body "events" (JArr []) with
  | Raise e => (Raise e, t)
  | Ok events =>
      if negb (truthy events) then (Ok (_error 400 "No events provided"), t)
      else
        match py_list events with
        | Raise e => (Raise e, t)
        | Ok evs =>
            if (100 <? length evs)%nat
            then (Ok (_error 400 "Maximum 100 events per batch"), t)
            else
              match _write_events cfg rds evs t with
              | (Ok result, t') =>
                  (Ok (_response 200
                         (JObj [("status", JStr "ok");
                                ("written", JInt (Z.of_nat result.1));
                                ("errors", JInt (Z.of_nat (length result.2)))])),
                   t')
              | (Raise e, t') => (Raise e, t')
              end
        end
  end.

(** *** The handler *)

Inductive body_field :=
| BodyAbsent
| BodyNull
| BodyText (s : string).

(** The parts of the invocation event the handler reads:
    [requestContext.http.method] (default [""]), [rawPath] (default [""]),
    [body] and the truthiness of [isBase64Encoded]. *)
Record http_event := {
  http_method : string;
  rawPath : string;
  raw_body : body_field;
  isBase64Encoded : bool;
}.

(** Lines 220-224: the body text, [None] for a [null] body. *)
Definition body_text `{JsonLib} (ev : http_event) : result (option string) :=
  let body_str :=
    match raw_body ev with
    | BodyAbsent => Some "{}"
    | BodyNull => None
    | BodyText s => Some s
    end in
  if isBase64Encoded ev then
    match body_str with
    | Some s => s' <- b64decode_utf8 s;; Ok (Some s')
    | None => Raise TypeError
    end
  else Ok body_str.

(** Lines 220-229: [json.loads(body_str) if body_str else {}]. *)
Definition decode_body `{JsonLib} (ev : http_event) : result loads_result :=
  body_str <- body_text ev;;
  match body_str with
  | Some s => if PyStr.truthy s then Ok (json_loads s) else Ok (Loaded (JObj []))
  | None => Ok (Loaded (JObj []))
  end.

(** Lines 207-237, the body of the outer [try], with the table it
    leaves. *)
Definition route `{JsonLib} `{Store} (cfg : config) (rds : nat → reading)
    (ev : http_event) (t : table) : result response * table :=
  if decide (http_method ev = "OPTIONS") then (Ok (_response 200 (JObj [])), t)
  else if negb (bool_decide (http_method ev = "POST"))
  then (Ok (_error 405 "Method not allowed"), t)
  else
    match decode_body ev with
    | Raise e => (Raise e, t)
    | Ok JSONDecodeError => (Ok (_error 400 "Invalid JSON body"), t)
    | Ok (LoadsRaises e) => (Raise e, t)
    | Ok (Loaded body) =>
        if decide (rawPath ev = "/t") then _handle_single_event cfg rds body t
        else if decide (rawPath ev = "/t/batch")
        then _handle_batch_events cfg rds body t
        else (Ok (_error 404 "Not found"), t)
    end.

(** [lambda_handler]: an exception becomes a 500 response; the table is
    the one the requests carried out until then have left. *)
Definition lambda_handler `{JsonLib} `{Store} (cfg : config) (rds : nat → reading)
    (ev : http_event) (t : table) : response * table :=
  match route cfg rds ev t with
  | (Ok resp, t') => (resp, t')
  | (Raise e, t') => (_error 500 ("Internal error: " +:+ exn_str e), t')
  end.

(** *** Vocabulary of the statements *)

(** The item written for an event, [None] for a rejected event: one that
    fails validation or whose handling raises. *)
Definition accept `{JsonLib} (cfg : config) (entry : reading * json) : option item :=
  match _validate_event cfg entry.2 with
  | Ok None =>
      match _build_dynamodb_item entry.1 entry.2 with
      | Ok it => Some it
      | Raise _ => None
      end
  | _ => None
  end.

(** [SESSIONS_TABLE] is set to a non-empty name. *)
Definition table_configured (cfg : config) : bool :=
  match SESSIONS_TABLE cfg with
  | Some name => PyStr.truthy name
  | None => false
  end.

(** The events of a batch, each with the readings of its turn. *)
Definition entries (rds : nat → reading) (evs : list json) : list (reading * json) :=
  zip (rds <$> seq 0 (length evs)) evs.

(** An event passes validation: [_validate_event] returns [None]. *)
Definition valid `{JsonLib} (cfg : config) (event_data : json) : bool :=
  match _validate_event cfg event_data with
  | Ok None => true
  | _ => false
  end.

(** The requests the batch writer makes for a list of items while none
    is refused: [flush_amount] items at a time as they come, then those
    left on leaving. *)
Fixpoint requests (fuel : nat) (items : list item) : list (list item) :=
  match fuel, items with
  | S fuel', _ :: _ =>
      take flush_amount items :: requests fuel' (drop flush_amount items)
  | _, _ => []
  end.

(** The value under ["timestamp"] is a dictionary. *)
Definition object_timestamp (event_data : json) : bool :=
  match event_data with
  | JObj ms =>
      match lookup_member "timestamp" ms with
      | Some (JObj _) => true
      | _ => false
      end
  | _ => false
  end.

Definition cors_headers : list (string * string) :=
  [("Content-Type", "application/json");
   ("Access-Control-Allow-Origin", "*");
   ("Access-Control-Allow-Headers", "Content-Type");
   ("Access-Control-Allow-Methods", "OPTIONS,POST")].

(** The item before the optional attributes are copied. *)
Definition base_item `{JsonLib} (rd : reading)
    (session_id event_type domain path timestamp event_id date : json) : item :=
  <["ttl" := JInt (time_time rd + 90 * 24 * 60 * 60)]>
  (<["timestamp" := timestamp]>
  (<["path" := path]>
  (<["domain" := domain]>
  (<["event_type" := event_type]>
  (<["session_id" := session_id]>
  (<["GSI2SK" := timestamp]>
  (<["GSI2PK" := JStr ("DOMAIN#" +:+ py_str domain +:+ "#PATH#" +:+ py_str path)]>
  (<["GSI1SK" := JStr ("SESSION#" +:+ py_str session_id)]>
  (<["GSI1PK" := JStr ("DOMAIN#" +:+ py_str domain +:+ "#DATE#" +:+ py_str date)]>
  (<["SK" := JStr ("EVENT#" +:+ py_str timestamp +:+ "#" +:+ py_str event_id)]>
  (<["PK" := JStr ("SESSION#" +:+ py_str session_id)]> ∅))))))))))).

(** [event_data.get("timestamp") or datetime.utcnow().isoformat() + "Z"] *)
Definition timestamp_of (rd : reading) (ms : list (string * json)) : json :=
  py_or (default JNull (lookup_member "timestamp" ms))
        (JStr (utcnow_isoformat rd +:+ "Z")).

(** [event_data.get("event_id") or str(uuid.uuid4())[:8]] *)
Definition event_id_of (rd : reading) (ms : list (string * json)) : json :=
  py_or (default JNull (lookup_member "event_id" ms))
        (JStr (PyStr.take 8 (uuid4_str rd))).

(** *** Example inputs *)

Definition example_reading (n : nat) : reading :=
  {| utcnow_isoformat := "2024-01-15T12:00:00.000001";
     utcnow_date := "2024-01-15";
     uuid4_str := "0f8fad5b-d9cb-469f-a165-70867728950e";
     time_time := 1705320000 + Z.of_nat n;
     uuid4_str_length := eq_refl |}.

Definition example_config : config :=
  {| SESSIONS_TABLE := Some "sessions"; ALLOWED_DOMAINS := ["example.com"] |}.

(** The same deployment without its [SESSIONS_TABLE] variable. *)
Definition unconfigured : config :=
  {| SESSIONS_TABLE := None; ALLOWED_DOMAINS := ["example.com"] |}.

Definition post (path body : string) : http_event :=
  {| http_method := "POST"; rawPath := path; raw_body := BodyText body;
     isBase64Encoded := false |}.

(** A batch of three events, the second without its path. *)
Definition example_batch : http_event :=
  post "/t/batch"
    (ExampleJson.batch_text
       [ExampleJson.first_view; ExampleJson.no_path; ExampleJson.second_view]).

(** A batch of one valid page view whose scroll depth is [55.5]. *)
Definition scrolled_batch : http_event :=
  post "/t/batch" (ExampleJson.batch_of ExampleJson.scrolled_text).

(** A batch of one valid page view whose timestamp is an object. *)
Definition stamped_batch : http_event :=
  post "/t/batch" (ExampleJson.batch_of ExampleJson.stamped_text).

(** A store that refuses a float, as the client does, and two items with
    one key in a request, as the service does, and that carries out every
    other request. *)
Module ExampleStore.

Definition item_holds_float (it : item) : bool :=
  existsb holds_float (map_to_list it).*2.

Definition key_text (it : item) : option (string * string) :=
  match it !! "PK", it !! "SK" with
  | Some (JStr pk), Some (JStr sk) => Some (pk, sk)
  | _, _ => None
  end.

Definition batch_write_error (items : list item) : option exn :=
  if existsb item_holds_float items then Some TypeError
  else if bool_decide (NoDup (key_text <$> items)) then None
  else Some (OtherError "ClientError").

Lemma example_store_refuses_floats (items : list item) (it : item) (k : string)
    (v : json) :
  it ∈ items → it !! k = Some v → holds_float v = true →
  is_Some (batch_write_error items).
Proof.
  intros Hit Hk Hv. unfold batch_write_error.
  assert (existsb item_holds_float items = true) as ->; [|by eexists].
  apply existsb_exists. exists it. split; [by apply list_elem_of_In|].
  apply existsb_exists. exists v. split; [|done].
  apply list_elem_of_In, list_elem_of_fmap. exists (k, v).
  split; [done|]. by apply elem_of_map_to_list.
Qed.

End ExampleStore.

#[export] Instance example_store : Store := {|
  batch_write_error := ExampleStore.batch_write_error;
  float_refused := ExampleStore.example_store_refuses_floats;
|}.

(** A valid page view whose timestamp is not a timestamp. *)
Definition malformed_event : json :=
  JObj [("session_id", JStr "s1"); ("event_type", JStr "pageview");
        ("domain", JStr "example.com"); ("path", JStr "/");
        ("timestamp", JStr "not-a-timestamp")].

(** *** The configuration read at import time *)

(** Lines 29-30: the configuration for the two environment variables,
    [None] for a variable that is not set; the list of domains is split at
    commas and nothing is stripped. *)
Definition config_of_env (sessions_table allowed_domains : option string) : config :=
  {| SESSIONS_TABLE := sessions_table;
     ALLOWED_DOMAINS := PyStr.split ","%char (default "" allowed_domains) |}.

(** The attributes every item has (lines 109-122). *)
Definition base_names : list string :=
  ["PK"; "SK"; "GSI1PK"; "GSI1SK"; "GSI2PK"; "GSI2SK"; "session_id";
   "event_type"; "domain"; "path"; "timestamp"; "ttl"].

(** The request with its body replaced by a plain text. *)
Definition with_plain_body (ev : http_event) (s : string) : http_event :=
  {| http_method := http_method ev; rawPath := rawPath ev;
     raw_body := BodyText s; isBase64Encoded := false |}.

(** *** Vocabulary of the rows *)

(** The key a put stores an item under, when its [PK] and [SK] are
    strings. *)
Definition item_key (it : item) : option (string * string) :=
  match it !! "PK", it !! "SK" with
  | Some (JStr pk), Some (JStr sk) => Some (pk, sk)
  | _, _ => None
  end.

(** An item built from an event that passes validation. *)
Definition built `{JsonLib} (cfg : config) (it : item) : Prop :=
  ∃ rd event_data, accept cfg (rd, event_data) = Some it.

(** [related cfg t t']: each row of [t'] is the row of [t] under the same
    key or an item built from a valid event, stored under its own key. *)
Definition related `{JsonLib} (cfg : config) (t t' : table) : Prop :=
  ∀ k, t' !! k = t !! k
       ∨ ∃ it, built cfg it ∧ item_key it = Some k ∧ t' !! k = Some it.

(** A batch of 24 page views that differ in their event id, followed by
    the page view whose scroll depth is [55.5]. *)
Definition numbered_view (n : nat) : json :=
  JObj [("session_id", JStr "s1"); ("event_type", JStr "pageview");
        ("domain", JStr "example.com"); ("path", JStr "/");
        ("event_id", JInt (Z.of_nat n))].

Definition full_batch : json :=
  JObj [("events", JArr ((numbered_view <$> seq 0 24) ++ [ExampleJson.scrolled_value]))].

End JourneyTracker.

(** ** Facts about the string primitives *)

Module PyStrFacts.
Import PyStr.

Lemma app_nil_l (s : string) : "" +:+ s = s.
Proof. reflexivity. Qed.

Lemma app_cons (c : ascii) (a b : string) : String c a +:+ b = String c (a +:+ b).
Proof. reflexivity. Qed.

Lemma app_assoc (a b c : string) : (a +:+ b) +:+ c = a +:+ (b +:+ c).
Proof. induction a as [|x a IH]; [done|]. rewrite !app_cons. by rewrite IH. Qed.

Lemma take_app_length (a b : string) : take (String.length a) (a +:+ b) = a.
Proof. induction a as [|x a IH]; simpl; [by destruct b|]. by rewrite IH. Qed.

Lemma drop_app_length (a b : string) : drop (String.length a) (a +:+ b) = b.
Proof. induction a as [|x a IH]; simpl; done. Qed.

Lemma take_take_app (n : nat) (a b : string) :
  (n <= String.length a)%nat → take n (a +:+ b) = take n a.
Proof.
  revert n. induction a as [|x a IH]; intros [|n] Hn; simpl in *; try done; try lia.
  rewrite IH; [done|lia].
Qed.

Lemma split_nonempty sep s : split sep s ≠ [].
Proof. destruct s as [|c s]; simpl; [done|]. case_decide; [done|]. by destruct (split sep s). Qed.

Lemma split_no_sep sep s : has_char sep s = false → split sep s = [s].
Proof.
  induction s as [|c s IH]; simpl; [done|]. intros [Hc Hs]%orb_false_iff.
  apply bool_decide_eq_false in Hc. case_decide; [done|]. by rewrite IH.
Qed.

Lemma split_app_sep sep a b :
  has_char sep a = false → split sep (a +:+ String sep b) = a :: split sep b.
Proof.
  induction a as [|c a IH]; simpl.
  - intros _. by rewrite decide_True.
  - intros [Hc Hs]%orb_false_iff. apply bool_decide_eq_false in Hc.
    case_decide; [done|]. by rewrite IH.
Qed.

Lemma split_max_length sep s n :
  length (split_max sep s n) = S (Nat.min n (count_char sep s)).
Proof.
  revert n. induction s as [|c s IH]; intros n; simpl.
  - by rewrite Nat.min_0_r.
  - destruct n as [|n]; [done|]. case_decide; simpl.
    + by rewrite IH.
    + specialize (IH (S n)). destruct (split_max sep s (S n)); simpl in *; [done|]. done.
Qed.

Lemma count_char_app c a b : count_char c (a +:+ b) = (count_char c a + count_char c b)%nat.
Proof. induction a as [|x a IH]; [done|]. simpl. rewrite IH. lia. Qed.

End PyStrFacts.

(** ** The log parser: proofs *)

Module LogParserProofs.
Import LogParser PyStrFacts.


Section parser.
Context `{UrlLib}.

Lemma lookup_field (fields : list string) (i : nat) :
  (i < length fields)%nat → fields !! i = Some (field fields i).
Proof.
  intros Hi. unfold field. destruct (lookup_lt_is_Some_2 fields i Hi) as [x ->]. done.
Qed.

Lemma parse_eq (line : string) :
  _parse_cloudfront_log_line line =
    if PyStr.startswith "#" line then None
    else if (length (fields_of line) <? 20)%nat then None
         else Some (event_of_fields (fields_of line)).
Proof.
  unfold _parse_cloudfront_log_line. fold (fields_of line).
  destruct (PyStr.startswith "#" line); [done|].
  destruct (Nat.ltb_spec (length (fields_of line)) 20) as [|Hlen]; [done|].
  rewrite !lookup_field by lia. done.
Qed.

Lemma parse_Some (line : string) (ev : event) :
  _parse_cloudfront_log_line line = Some ev ↔
    PyStr.startswith "#" line = false ∧ (20 <= length (fields_of line))%nat
    ∧ ev = event_of_fields (fields_of line).
Proof.
  rewrite parse_eq. destruct (PyStr.startswith "#" line); [naive_solver|].
  destruct (Nat.ltb_spec (length (fields_of line)) 20); [naive_solver lia|].
  naive_solver.
Qed.

Lemma truthy_true (s : string) : PyStr.truthy s = true ↔ s ≠ "".
Proof. unfold PyStr.truthy. rewrite negb_true_iff, bool_decide_eq_false. done. Qed.

Lemma truthy_false (s : string) : PyStr.truthy s = false ↔ s = "".
Proof. unfold PyStr.truthy. rewrite negb_false_iff, bool_decide_eq_true. done. Qed.

Lemma normalize_empty : normalize "" = "".
Proof. unfold normalize. by rewrite lower_empty. Qed.

(** What the referrer-domain derivation computes, for a referrer whose
    URL has netloc [r]. *)
Lemma parse_referrer_domain_spec (host ref r : string) :
  urlparse_netloc ref = Some r →
  parse_referrer_domain host (Some ref) =
    if decide (normalize r = "" ∨ normalize r = normalize host)
    then None else Some (normalize r).
Proof.
  intros Hr. unfold parse_referrer_domain.
  destruct (PyStr.truthy ref) eqn:Href; simpl.
  - case_bool_decide as Hdash; simpl.
    + subst ref. rewrite urlparse_netloc_dash in Hr. simplify_eq.
      rewrite normalize_empty. by rewrite decide_True by auto.
    + rewrite Hr. fold (normalize r) (normalize host).
      destruct (PyStr.truthy (normalize r)) eqn:Hn; simpl.
      * apply truthy_true in Hn. case_bool_decide; simpl.
        -- by rewrite decide_True by auto.
        -- by rewrite decide_False by naive_solver.
      * apply truthy_false in Hn. by rewrite decide_True by auto.
  - apply truthy_false in Href. subst ref.
    rewrite urlparse_netloc_empty in Hr. simplify_eq.
    rewrite normalize_empty. by rewrite decide_True by auto.
Qed.

(** C1, amended.  For a log line whose host field is [h] and whose
    referer field, once URL-decoded, parses to a URL with netloc [r], the
    parsed event has no [referrer_domain] exactly when [normalize r]
    equals [normalize h] or [normalize r] is empty, where [normalize]
    lowercases and strips one leading ["www."]; a [referrer_domain] that
    is present equals [normalize r]. *)
Theorem referrer_domain_policy (line : string) (ev : event) (h raw r : string) :
  _parse_cloudfront_log_line line = Some ev →
  fields_of line !! 6%nat = Some h →
  fields_of line !! 9%nat = Some raw →
  urlparse_netloc (unquote raw) = Some r →
  (referrer_domain ev = None ↔ normalize r = normalize h ∨ normalize r = "")
  ∧ (∀ d, referrer_domain ev = Some d → d = normalize r).
Proof.
  intros (_ & _ & ->)%parse_Some Hh Hraw Hr. simpl.
  unfold field. rewrite Hh, Hraw. simpl.
  unfold dash_to_none. destruct (decide (raw = "-")) as [->|Hdash].
  - rewrite unquote_dash, urlparse_netloc_dash in Hr. simplify_eq. simpl.
    rewrite normalize_empty. split; [split; auto|done].
  - rewrite (parse_referrer_domain_spec _ _ r Hr).
    case_decide; split; naive_solver.
Qed.

(** C2, amended.  For a line that is not a comment and has at least 20
    tab-separated fields once stripped, the parser returns an event in
    which a ["-"] in the referer slot (field 9) leaves [referrer] and
    [referrer_domain] absent and a ["-"] in the user-agent slot (field
    10) leaves [user_agent] absent; the request_id slot (field 14) is
    copied as it is. *)
Theorem dash_fields (line : string) :
  PyStr.startswith "#" line = false →
  (20 <= length (fields_of line))%nat →
  ∃ ev, _parse_cloudfront_log_line line = Some ev
    ∧ (fields_of line !! 9%nat = Some "-" →
         referrer ev = None ∧ referrer_domain ev = None)
    ∧ (fields_of line !! 10%nat = Some "-" → user_agent ev = None)
    ∧ fields_of line !! 14%nat = Some (request_id ev).
Proof.
  intros Hc Hlen. exists (event_of_fields (fields_of line)).
  split; [by apply parse_Some|]. simpl. unfold field.
  split; [|split].
  - intros ->. done.
  - intros ->. done.
  - by rewrite lookup_field by lia.
Qed.
End parser.

Section writer.

Lemma same_but_ttl_refl r : same_but_ttl r r.
Proof. by intros k _. Qed.

Lemma same_but_ttl_delete r1 r2 :
  same_but_ttl r1 r2 ↔ delete "ttl" r1 = delete "ttl" r2.
Proof.
  split.
  - intros Hr. apply map_eq. intros k. destruct (decide (k = "ttl")) as [->|Hk].
    + by rewrite !lookup_delete_eq.
    + rewrite !lookup_delete_ne by done. by apply Hr.
  - intros Hd k Hk. rewrite <- (lookup_delete_ne r1 "ttl" k) by done.
    rewrite Hd. by rewrite lookup_delete_ne.
Qed.

Lemma same_but_ttl_insert r1 r2 k v :
  same_but_ttl r1 r2 → same_but_ttl (<[k := v]> r1) (<[k := v]> r2).
Proof.
  intros Hr j Hj. destruct (decide (k = j)) as [->|].
  - by rewrite !lookup_insert_eq.
  - rewrite !lookup_insert_ne by done. by apply Hr.
Qed.

Lemma same_but_ttl_insert_ttl r1 r2 v1 v2 :
  same_but_ttl r1 r2 → same_but_ttl (<["ttl" := v1]> r1) (<["ttl" := v2]> r2).
Proof. intros Hr j Hj. rewrite !lookup_insert_ne by done. by apply Hr. Qed.

Lemma same_but_ttl_set_opt r1 r2 name v :
  same_but_ttl r1 r2 → same_but_ttl (set_opt name v r1) (set_opt name v r2).
Proof.
  intros Hr. unfold set_opt. destruct v as [s|]; [|done].
  destruct (PyStr.truthy s); [|done]. by apply same_but_ttl_insert.
Qed.

Lemma build_db_item_same_but_ttl item ttl ttl' :
  same_but_ttl (build_db_item item ttl) (build_db_item item ttl').
Proof.
  unfold build_db_item.
  repeat first
    [ apply same_but_ttl_set_opt
    | apply same_but_ttl_insert_ttl
    | apply same_but_ttl_insert
    | apply same_but_ttl_refl
    | match goal with |- context [match ?x with _ => _ end] => destruct x end ].
Qed.

Lemma set_opt_lookup_ne name v (r : row) k :
  k ≠ name → set_opt name v r !! k = r !! k.
Proof.
  intros Hk. unfold set_opt. destruct v as [s|]; [|done].
  destruct (PyStr.truthy s); [|done]. by rewrite lookup_insert_ne.
Qed.

Ltac build_lookup :=
  unfold build_db_item; cbv zeta;
  repeat first
    [ rewrite set_opt_lookup_ne by done
    | rewrite lookup_insert_eq
    | rewrite lookup_insert_ne by done
    | match goal with
      | |- context [referrer_domain ?item] =>
          destruct (referrer_domain item) as [rd|]; [destruct (PyStr.truthy rd)|]
      end ];
  reflexivity.

Lemma build_db_item_PK item ttl :
  build_db_item item ttl !! "PK" = Some (AStr (domain item +:+ "#" +:+ date item)).
Proof. build_lookup. Qed.

Lemma build_db_item_SK item ttl :
  build_db_item item ttl !! "SK"
  = Some (AStr (timestamp item +:+ "#" +:+ request_id item)).
Proof. build_lookup. Qed.

Lemma build_db_item_timestamp item ttl :
  build_db_item item ttl !! "timestamp" = Some (AStr (timestamp item)).
Proof. build_lookup. Qed.

Lemma build_db_item_request_id item ttl :
  build_db_item item ttl !! "request_id" = Some (AStr (request_id item)).
Proof. build_lookup. Qed.

Lemma build_db_item_ttl item ttl :
  build_db_item item ttl !! "ttl" = Some (ANum ttl).
Proof. build_lookup. Qed.

Lemma put_build_db_item item ttl t :
  put_item (build_db_item item ttl) t
  = <[event_key item := build_db_item item ttl]> t.
Proof. unfold put_item. by rewrite build_db_item_PK, build_db_item_SK. Qed.

(** The batches, put together again, are the items. *)
Lemma concat_batches fuel (items : list event) :
  (length items <= fuel)%nat → concat (batches fuel items) = items.
Proof.
  revert items. induction fuel as [|fuel IH]; intros items Hlen.
  - destruct items; [done|simpl in Hlen; lia].
  - destruct items as [|x items]; [done|].
    change (batches (S fuel) (x :: items))
      with (take 25 (x :: items) :: batches fuel (drop 25 (x :: items))).
    rewrite concat_cons. rewrite IH.
    + apply take_drop.
    + rewrite length_drop. simpl in *. lia.
Qed.

Lemma write_batch_app clock l1 l2 st :
  write_batch clock (l1 ++ l2) st = write_batch clock l2 (write_batch clock l1 st).
Proof. unfold write_batch. by rewrite foldl_app. Qed.

Lemma fold_batches clock (bs : list (list event)) st :
  foldl (λ st batch, write_batch clock batch st) st bs
  = write_batch clock (concat bs) st.
Proof.
  revert st. induction bs as [|b bs IH]; intros st; [done|].
  simpl. rewrite IH. by rewrite write_batch_app.
Qed.

(** Batching is invisible: the writer puts the items one after the
    other. *)
Lemma batch_write_eq clock items t :
  _batch_write_to_dynamodb clock items t = write_batch clock items (t, 0%nat).
Proof.
  unfold _batch_write_to_dynamodb. destruct items as [|x items]; [done|].
  rewrite fold_batches. by rewrite concat_batches.
Qed.

Lemma write_batch_count clock items t n :
  (write_batch clock items (t, n)).2 = (n + length items)%nat.
Proof.
  revert t n. induction items as [|x items IH]; intros t n; simpl; [lia|].
  unfold write_batch in *. simpl. rewrite IH. lia.
Qed.

Lemma batch_write_count clock items t :
  (_batch_write_to_dynamodb clock items t).2 = length items.
Proof. rewrite batch_write_eq. by rewrite write_batch_count. Qed.

Lemma write_once item now t :
  (_batch_write_to_dynamodb (λ _, now) [item] t).1
  = <[event_key item := build_db_item item (ttl_of now)]> t.
Proof. rewrite batch_write_eq. simpl. apply put_build_db_item. Qed.

Lemma write_times_snoc item nows now t :
  write_times item (nows ++ [now]) t
  = <[event_key item := build_db_item item (ttl_of now)]> (write_times item nows t).
Proof. unfold write_times. rewrite foldl_app. simpl. apply write_once. Qed.

Lemma write_times_dom item nows t :
  nows ≠ [] → dom (write_times item nows t) = {[event_key item]} ∪ dom t.
Proof.
  induction nows as [|now nows IH] using rev_ind; [done|]. intros _.
  rewrite write_times_snoc, dom_insert_L.
  destruct nows as [|n0 nows']; [done|].
  rewrite IH by done. set_solver.
Qed.

(** C4, amended.  Every write of one parsed event targets the key
    [(PK, SK)] of that event and builds the same item but for its [ttl],
    which is stamped from the clock of the write.  After [N >= 1]
    writes the table is the first table with the one row of that key
    replaced by the item of the last write: no other key appears, and
    from an empty table exactly one row exists. *)
Theorem event_replay (item : event) (nows : list Z) (now : Z) (t : table) :
  let key := event_key item in
  let t' := write_times item (nows ++ [now]) t in
  (∀ n, build_db_item item (ttl_of n) !! "PK" = Some (AStr key.1)
        ∧ build_db_item item (ttl_of n) !! "SK" = Some (AStr key.2))
  ∧ (∀ n n', delete "ttl" (build_db_item item (ttl_of n))
             = delete "ttl" (build_db_item item (ttl_of n')))
  ∧ t' = <[key := build_db_item item (ttl_of now)]> t
  ∧ dom t' = {[key]} ∪ dom t
  ∧ size (write_times item (nows ++ [now]) ∅) = 1%nat.
Proof.
  intros key t'. split; [|split; [|split; [|split]]].
  - intros n. by rewrite build_db_item_PK, build_db_item_SK.
  - intros n n'. apply same_but_ttl_delete, build_db_item_same_but_ttl.
  - subst t' key. revert now.
    induction nows as [|n0 nows IH] using rev_ind; intros now.
    + apply write_times_snoc.
    + rewrite write_times_snoc, IH. apply insert_insert_eq.
  - apply write_times_dom. by destruct nows.
  - rewrite <- size_dom, write_times_dom by (by destruct nows).
    rewrite dom_empty_L, (right_id_L ∅ (∪)). apply size_singleton.
Qed.
End writer.

Section dates.
Context `{UrlLib}.

Lemma split_key2 a b :
  PyStr.has_char PyStr.hash a = false →
  PyStr.has_char PyStr.hash b = false →
  PyStr.split PyStr.hash (a +:+ "#" +:+ b) = [a; b].
Proof.
  intros Ha Hb. change ("#" +:+ b) with (String PyStr.hash b).
  rewrite split_app_sep by done. by rewrite split_no_sep.
Qed.

(** C6, amended.  For an event row written from a parsed log line whose
    date field has exactly ten characters, when neither the domain nor
    the date holds a ["#"], the second ["#"]-separated part of [PK]
    equals the first ten characters of the row's [timestamp]. *)
Theorem pk_date_is_timestamp_prefix
    (line : string) (ev : event) (actual_domain : string) (ttl : Z) :
  _parse_cloudfront_log_line line = Some ev →
  String.length (date ev) = 10%nat →
  PyStr.has_char PyStr.hash actual_domain = false →
  PyStr.has_char PyStr.hash (date ev) = false →
  let db_item := build_db_item (with_domain actual_domain ev) ttl in
  ∃ pk ts,
    db_item !! "PK" = Some (AStr pk)
    ∧ db_item !! "timestamp" = Some (AStr ts)
    ∧ PyStr.split PyStr.hash pk !! 1%nat = Some (PyStr.slice 0 10 ts).
Proof.
  intros (_ & _ & ->)%parse_Some Hlen Hdom Hdate db_item.
  eexists _, _. subst db_item.
  rewrite build_db_item_PK, build_db_item_timestamp.
  split; [done|]. split; [done|]. simpl in *.
  rewrite split_key2 by done. simpl. f_equal.
  unfold PyStr.slice. simpl PyStr.drop. change (10 - 0)%nat with 10%nat.
  rewrite <- Hlen. by rewrite take_app_length.
Qed.

Lemma dict_get_update_eq {V} (dflt : V) f k d :
  dict_get k (dict_update dflt f k d) = Some (f (default dflt (dict_get k d))).
Proof.
  induction d as [|[k' v] d IH]; simpl.
  - by rewrite decide_True.
  - destruct (decide (k = k')) as [->|Hk]; simpl.
    + by rewrite decide_True.
    + by rewrite decide_False.
Qed.

Lemma dict_get_update_ne {V} (dflt : V) f k j d :
  j ≠ k → dict_get j (dict_update dflt f k d) = dict_get j d.
Proof.
  intros Hj. induction d as [|[k' v] d IH]; simpl.
  - by rewrite decide_False.
  - destruct (decide (k = k')) as [->|Hk]; simpl.
    + by rewrite !decide_False.
    + destruct (decide (j = k')); [done|apply IH].
Qed.

Lemma hour_of_iso (d hh rest : string) :
  String.length d = 10%nat → String.length hh = 2%nat →
  hour_of (d +:+ "T" +:+ hh +:+ rest) = hh.
Proof.
  intros Hd Hh.
  destruct d as [|d0 [|d1 [|d2 [|d3 [|d4 [|d5 [|d6 [|d7 [|d8 [|d9 [|]]]]]]]]]]];
    try discriminate.
  destruct hh as [|h0 [|h1 [|]]]; try discriminate.
  unfold hour_of.
  match goal with |- context [(13 <=? ?n)%nat] =>
    destruct (Nat.leb_spec 13 n) as [_|Hshort] end.
  - reflexivity.
  - simpl in Hshort. lia.
Qed.

(** C7, amended.  For every event the rollup writer processes, [HH] is
    [timestamp[11:13]] when the timestamp has at least 13 characters and
    ["00"] otherwise, and the hourly accumulator is incremented by one
    under the key [domain#date#HH], every other key keeping its count.
    When the timestamp is a ten-character date, ["T"], then a
    two-character hour, [HH] is that hour. *)
Theorem hourly_key_hour (acc : accumulators) (item : event) :
  let ts := timestamp item in
  let key := domain item +:+ "#" +:+ date item +:+ "#" +:+ hour_of ts in
  ((13 <= String.length ts)%nat → hour_of ts = PyStr.slice 11 13 ts)
  ∧ ((String.length ts < 13)%nat → hour_of ts = "00")
  ∧ dict_get key (hourly_counts (aggregate acc item))
    = Some (1 + default 0 (dict_get key (hourly_counts acc)))
  ∧ (∀ k, k ≠ key →
       dict_get k (hourly_counts (aggregate acc item))
       = dict_get k (hourly_counts acc))
  ∧ (∀ d hh rest, String.length d = 10%nat → String.length hh = 2%nat →
       ts = d +:+ "T" +:+ hh +:+ rest → hour_of ts = hh).
Proof.
  intros ts key. repeat split.
  - intros Hlen. unfold hour_of. by apply Nat.leb_le in Hlen as ->.
  - intros Hlen. unfold hour_of. by apply Nat.leb_gt in Hlen as ->.
  - apply dict_get_update_eq.
  - intros k Hk. by apply dict_get_update_ne.
  - intros d hh rest Hd Hh ->. by apply hour_of_iso.
Qed.
End dates.

Section rollups.

Lemma for_each_nil {A S} (body : S → A → option S) s : for_each body [] s = Some s.
Proof. done. Qed.

Lemma for_each_None {A S} (body : S → A → option S) l :
  foldl (λ os a, os ≫= λ s, body s a) None l = None.
Proof. induction l; simpl; auto. Qed.

Lemma for_each_cons {A S} (body : S → A → option S) a l s :
  for_each body (a :: l) s = body s a ≫= for_each body l.
Proof.
  unfold for_each. simpl. destruct (body s a); simpl; [done|apply for_each_None].
Qed.

Lemma for_each_total {A S} (body : S → A → option S) (f : S → A → S) l s :
  Forall (λ a, ∀ s, body s a = Some (f s a)) l →
  for_each body l s = Some (foldl f s l).
Proof.
  intros Hl. revert s. induction Hl as [|a l Ha _ IH]; intros s; [done|].
  rewrite for_each_cons, Ha. simpl. apply IH.
Qed.

Lemma for_each_invariant {A S} (body : S → A → option S) (P : S → Prop) l s s' :
  (∀ s a s', P s → body s a = Some s' → P s') →
  P s → for_each body l s = Some s' → P s'.
Proof.
  intros Hbody. revert s. induction l as [|a l IH]; intros s Hs.
  - rewrite for_each_nil. by intros [= <-].
  - rewrite for_each_cons. destruct (body s a) as [s1|] eqn:Hb; [|done].
    simpl. apply IH. by eapply Hbody.
Qed.

(** **** Keys built by phase 1 always split *)

Lemma keys_ok_update {V} n (dflt : V) f k d :
  (n <= PyStr.count_char PyStr.hash k)%nat → keys_ok n d → keys_ok n (dict_update dflt f k d).
Proof.
  intros Hk Hd. induction Hd as [|[k' v] d Hkv Hd IH]; simpl.
  - by repeat constructor.
  - case_decide; constructor; auto.
Qed.

Lemma count_hash_2 a b : (1 <= PyStr.count_char PyStr.hash (a +:+ "#" +:+ b))%nat.
Proof. rewrite !count_char_app. simpl. lia. Qed.

Lemma count_hash_3 a b c :
  (2 <= PyStr.count_char PyStr.hash (a +:+ "#" +:+ b +:+ "#" +:+ c))%nat.
Proof. rewrite !count_char_app. simpl. lia. Qed.

Lemma aggregate_ok acc item : acc_ok acc → acc_ok (aggregate acc item).
Proof.
  intros (Hd & Hp & Hr & Hh). unfold aggregate. repeat split; simpl.
  - destruct (PyStr.truthy (client_ip item));
      repeat apply keys_ok_update; auto using count_hash_2.
  - apply keys_ok_update; auto using count_hash_3.
  - destruct (referrer_domain item) as [rd|]; [|done].
    destruct (PyStr.truthy rd); [|done].
    apply keys_ok_update; auto using count_hash_3.
  - apply keys_ok_update; auto. apply count_hash_3.
Qed.

Lemma aggregate_all_ok items acc : acc_ok acc → acc_ok (foldl aggregate acc items).
Proof.
  revert acc. induction items as [|x items IH]; intros acc Hacc; [done|].
  simpl. apply IH. by apply aggregate_ok.
Qed.

Lemma no_accumulators_ok : acc_ok no_accumulators.
Proof. by repeat split; constructor. Qed.

Lemma update_daily_eq ttl t entry :
  (1 <= PyStr.count_char PyStr.hash entry.1)%nat →
  update_daily ttl t entry = Some (run_upd ttl t (daily_upd entry)).
Proof.
  intros Hk. unfold update_daily, daily_upd, run_upd.
  pose proof (split_max_length PyStr.hash entry.1 1) as Hlen.
  rewrite Nat.min_l in Hlen by done.
  destruct (PyStr.split_max PyStr.hash entry.1 1) as [|a [|b [|]]];
    simpl in Hlen; try lia. done.
Qed.

Lemma update_count_eq family ttl t entry :
  (2 <= PyStr.count_char PyStr.hash entry.1)%nat →
  update_count family ttl t entry = Some (run_upd ttl t (count_upd family entry)).
Proof.
  intros Hk. unfold update_count, count_upd, run_upd.
  pose proof (split_max_length PyStr.hash entry.1 2) as Hlen.
  rewrite Nat.min_l in Hlen by done.
  destruct (PyStr.split_max PyStr.hash entry.1 2) as [|a [|b [|c [|]]]];
    simpl in Hlen; try lia. done.
Qed.

Lemma for_each_daily ttl d t :
  keys_ok 1 d →
  for_each (update_daily ttl) d t = Some (foldl (run_upd ttl) t (daily_upd <$> d)).
Proof.
  intros Hd. rewrite foldl_fmap.
  apply (for_each_total _ (λ t e, run_upd ttl t (daily_upd e))).
  eapply Forall_impl; [exact Hd|]. intros e He s. by apply update_daily_eq.
Qed.

Lemma for_each_count family ttl d t :
  keys_ok 2 d →
  for_each (update_count family ttl) d t
  = Some (foldl (run_upd ttl) t (count_upd family <$> d)).
Proof.
  intros Hd. rewrite foldl_fmap.
  apply (for_each_total _ (λ t e, run_upd ttl t (count_upd family e))).
  eapply Forall_impl; [exact Hd|]. intros e He s. by apply update_count_eq.
Qed.

(** [_update_rollups] never raises: it runs the planned updates. *)
Lemma update_rollups_eq now items t :
  _update_rollups now items t
  = Some (match items with
          | [] => t
          | _ => foldl (run_upd (ttl_of now)) t (plan (foldl aggregate no_accumulators items))
          end).
Proof.
  unfold _update_rollups. destruct items as [|x items]; [done|].
  destruct (aggregate_all_ok (x :: items) _ no_accumulators_ok) as (Hd & Hp & Hr & Hh).
  set (acc := foldl aggregate no_accumulators (x :: items)) in *.
  rewrite for_each_daily by done. simpl.
  rewrite for_each_count by done. simpl.
  rewrite for_each_count by done. simpl.
  rewrite for_each_count by done.
  unfold plan. by rewrite !foldl_app.
Qed.
End rollups.

Section commute.

Lemma apply_add_insert_ttl c r v :
  add_name c ≠ "ttl" →
  apply_add c (<["ttl" := v]> r) = (insert "ttl" v) <$> apply_add c r.
Proof.
  intros Hc. destruct c as [n x|n x]; simpl in *;
    rewrite lookup_insert_ne by done;
    destruct (r !! n) as [[]|]; simpl; try done;
    by rewrite insert_insert_ne.
Qed.

Lemma apply_add_delete_ttl c r :
  add_name c ≠ "ttl" →
  apply_add c (delete "ttl" r) = (delete "ttl") <$> apply_add c r.
Proof.
  intros Hc. destruct c as [n x|n x]; simpl in *;
    rewrite lookup_delete_ne by done;
    destruct (r !! n) as [[]|]; simpl; try done;
    by rewrite delete_insert_ne.
Qed.

Lemma run_adds_cons c adds r :
  run_adds (c :: adds) r = apply_add c r ≫= run_adds adds.
Proof.
  unfold run_adds. simpl. destruct (apply_add c r); simpl; [done|].
  induction adds; simpl; auto.
Qed.

Lemma run_adds_insert_ttl adds r v :
  Forall (λ c, add_name c ≠ "ttl") adds →
  run_adds adds (<["ttl" := v]> r) = (insert "ttl" v) <$> run_adds adds r.
Proof.
  intros Hadds. revert r. induction Hadds as [|c adds Hc _ IH]; intros r; [done|].
  rewrite !run_adds_cons, apply_add_insert_ttl by done.
  destruct (apply_add c r); simpl; [apply IH|done].
Qed.

Lemma run_adds_delete_ttl adds r :
  Forall (λ c, add_name c ≠ "ttl") adds →
  run_adds adds (delete "ttl" r) = (delete "ttl") <$> run_adds adds r.
Proof.
  intros Hadds. revert r. induction Hadds as [|c adds Hc _ IH]; intros r; [done|].
  rewrite !run_adds_cons, apply_add_delete_ttl by done.
  destruct (apply_add c r); simpl; [apply IH|done].
Qed.

Lemma upd_adds_names u : Forall (λ c, add_name c ≠ "ttl") (upd_adds u).
Proof. destruct u; simpl; [case_decide|]; repeat constructor; done. Qed.

Lemma run_adds_key_row u k : is_Some (run_adds (upd_adds u) (key_row k)).
Proof.
  destruct u as [pk sk r ips|pk sk c]; unfold run_adds, key_row; simpl.
  - case_decide; simpl; [by eexists|].
    repeat (first [rewrite lookup_insert_ne by done | rewrite lookup_empty]; simpl).
    by eexists.
  - by eexists.
Qed.

Lemma delete_ttl_key_row k : delete "ttl" (key_row k) = key_row k.
Proof. apply delete_id. unfold key_row. by rewrite !lookup_insert_ne. Qed.

Lemma add_to_row_delete_ttl u r :
  add_to_row u (delete "ttl" r) = delete "ttl" (add_to_row u r).
Proof.
  unfold add_to_row. rewrite run_adds_delete_ttl by apply upd_adds_names.
  by destruct (run_adds (upd_adds u) r).
Qed.

(** Erasing [ttl] after a real update is the ttl-free update of the
    erased table. *)
Lemma update_item_eq pk sk ttl adds t :
  update_item pk sk ttl adds t
  = new ← run_adds adds (<["ttl" := ANum ttl]> (default (key_row (pk, sk)) (t !! (pk, sk))));
    Some (<[(pk, sk) := new]> t).
Proof. reflexivity. Qed.

Lemma strip_ttl_run_upd ttl t u :
  strip_ttl (run_upd ttl t u) = add_to_table (strip_ttl t) u.
Proof.
  unfold run_upd, try_update_item, add_to_table.
  destruct (upd_key u) as [pk sk] eqn:Hk. simpl.
  rewrite update_item_eq.
  set (old := default (key_row (pk, sk)) (t !! (pk, sk))).
  assert (default (key_row (pk, sk)) (strip_ttl t !! (pk, sk)) = delete "ttl" old) as ->.
  { unfold strip_ttl, old. rewrite lookup_fmap.
    destruct (t !! (pk, sk)); simpl; [done|]. by rewrite delete_ttl_key_row. }
  rewrite add_to_row_delete_ttl. unfold add_to_row.
  rewrite run_adds_insert_ttl by apply upd_adds_names.
  destruct (run_adds (upd_adds u) old) as [new|] eqn:Hrun; simpl.
  - unfold strip_ttl. rewrite fmap_insert. by rewrite delete_insert_eq.
  - symmetry. apply insert_id. unfold strip_ttl. rewrite lookup_fmap.
    subst old. destruct (t !! (pk, sk)) as [r|]; simpl; [done|].
    simpl in Hrun. destruct (run_adds_key_row u (pk, sk)) as [? ?]. congruence.
Qed.

Lemma strip_ttl_foldl ttl us t :
  strip_ttl (foldl (run_upd ttl) t us) = foldl add_to_table (strip_ttl t) us.
Proof.
  revert t. induction us as [|u us IH]; intros t; [done|].
  simpl. by rewrite IH, strip_ttl_run_upd.
Qed.


Ltac row_eval :=
  repeat first
    [ progress simpl
    | rewrite lookup_insert_eq
    | rewrite lookup_insert_ne by done
    | match goal with
      | H : ?r !! ?n = _ |- context [?r !! ?n] => rewrite H
      | |- context [decide (?s = ∅)] => destruct (decide (s = ∅))
      end ].

Ltac row_close :=
  apply map_eq; intros j; rewrite ?lookup_insert;
  repeat case_decide; simplify_eq; try done;
  do 2 f_equal; first [lia | set_solver].

Lemma add_to_row_comm u1 u2 r :
  add_to_row u1 (add_to_row u2 r) = add_to_row u2 (add_to_row u1 r).
Proof.
  destruct u1 as [pk1 sk1 r1 ips1|pk1 sk1 c1], u2 as [pk2 sk2 r2 ips2|pk2 sk2 c2];
    unfold add_to_row, run_adds, upd_adds.
  - destruct (r !! "requests") as [[]|] eqn:Hreq;
      destruct (r !! "unique_ips") as [[]|] eqn:Hips;
      row_eval; try done; row_close.
  - destruct (r !! "requests") as [[]|] eqn:Hreq;
      destruct (r !! "unique_ips") as [[]|] eqn:Hips;
      destruct (r !! "count") as [[]|] eqn:Hcnt;
      row_eval; try done; row_close.
  - destruct (r !! "requests") as [[]|] eqn:Hreq;
      destruct (r !! "unique_ips") as [[]|] eqn:Hips;
      destruct (r !! "count") as [[]|] eqn:Hcnt;
      row_eval; try done; row_close.
  - destruct (r !! "count") as [[]|] eqn:Hcnt;
      row_eval; try done; row_close.
Qed.


Lemma add_to_table_comm s u1 u2 :
  add_to_table (add_to_table s u1) u2 = add_to_table (add_to_table s u2) u1.
Proof.
  unfold add_to_table. destruct (decide (upd_key u1 = upd_key u2)) as [Hk|Hk].
  - rewrite <- Hk. rewrite !lookup_insert_eq, !insert_insert_eq. simpl.
    by rewrite add_to_row_comm.
  - rewrite !lookup_insert_ne by done. by rewrite insert_insert_ne.
Qed.

Lemma add_to_table_foldl_comm s u us :
  add_to_table (foldl add_to_table s us) u = foldl add_to_table (add_to_table s u) us.
Proof.
  revert s. induction us as [|u' us IH]; intros s; [done|].
  simpl. rewrite IH. by rewrite add_to_table_comm.
Qed.

Lemma foldl_add_to_table_comm s us vs :
  foldl add_to_table (foldl add_to_table s us) vs
  = foldl add_to_table (foldl add_to_table s vs) us.
Proof.
  revert s. induction vs as [|v vs IH]; intros s; [done|].
  simpl. rewrite <- IH. by rewrite add_to_table_foldl_comm.
Qed.

Lemma strip_ttl_update_rollups now items t :
  ∃ t', _update_rollups now items t = Some t'
    ∧ strip_ttl t'
      = foldl add_to_table (strip_ttl t)
          (match items with
           | [] => []
           | _ => plan (foldl aggregate no_accumulators items)
           end).
Proof.
  rewrite update_rollups_eq. eexists; split; [done|].
  destruct items; [done|]. apply strip_ttl_foldl.
Qed.

Lemma counters_strip_ttl t key : counters (strip_ttl t) key = counters t key.
Proof.
  unfold counters, strip_ttl. rewrite lookup_fmap.
  destruct (t !! key) as [r|]; simpl; [|done].
  by rewrite !lookup_delete_ne.
Qed.

(** C5.  For any two lists of parsed events [A] and [B], whatever the
    clock readings, running the rollup writer on [A] then [B] and on [B]
    then [A] both succeed and yield tables that are equal once [ttl] is
    erased: every rollup row has the same [requests], [count] and
    [unique_ips] in both. *)
Theorem rollup_order_irrelevant
    (A B : list event) (nowA nowB nowA' nowB' : Z) (t : table) :
  ∃ tAB tBA,
    _update_rollups nowA A t ≫= _update_rollups nowB B = Some tAB
    ∧ _update_rollups nowB' B t ≫= _update_rollups nowA' A = Some tBA
    ∧ strip_ttl tAB = strip_ttl tBA
    ∧ ∀ key, counters tAB key = counters tBA key.
Proof.
  destruct (strip_ttl_update_rollups nowA A t) as (tA & HA & HsA).
  destruct (strip_ttl_update_rollups nowB B tA) as (tAB & HAB & HsAB).
  destruct (strip_ttl_update_rollups nowB' B t) as (tB & HB & HsB).
  destruct (strip_ttl_update_rollups nowA' A tB) as (tBA & HBA & HsBA).
  exists tAB, tBA. rewrite HA, HB. simpl. rewrite HAB, HBA.
  assert (strip_ttl tAB = strip_ttl tBA) as Heq.
  { rewrite HsAB, HsA, HsBA, HsB. apply foldl_add_to_table_comm. }
  repeat split; [done|]. intros key.
  by rewrite <- (counters_strip_ttl tAB), <- (counters_strip_ttl tBA), Heq.
Qed.
End commute.

Section controller.
Context `{UrlLib}.

Lemma collect_items_total cfg actual_domain content total :
  ∃ items skipped,
    collect_items cfg actual_domain content total
    = (items, skipped, (total + length items)%nat).
Proof.
  unfold collect_items.
  assert (∀ lines items0 sk0 total0,
    ∃ items skipped,
      foldl (λ '(items, skipped, total) line,
               match _parse_cloudfront_log_line line with
               | Some parsed =>
                   if _should_exclude_path cfg (path parsed)
                   then (items, S skipped, total)
                   else (items ++ [with_domain actual_domain parsed], skipped, S total)
               | None => (items, skipped, total)
               end) (items0, sk0, total0) lines
      = (items, skipped, (total0 + (length items - length items0))%nat)
      ∧ (length items0 <= length items)%nat) as Hgen.
  { induction lines as [|line lines IH]; intros items0 sk0 total0; simpl.
    - exists items0, sk0. split; [f_equal; lia|lia].
    - destruct (_parse_cloudfront_log_line line) as [parsed|]; [|apply IH].
      destruct (_should_exclude_path cfg (path parsed)); [apply IH|].
      destruct (IH (items0 ++ [with_domain actual_domain parsed]) sk0 (S total0))
        as (items & sk & -> & Hlen).
      rewrite length_app in *. simpl in *.
      exists items, sk. split; [f_equal; lia|lia]. }
  destruct (Hgen (PyStr.split PyStr.newline content) [] 0%nat total)
    as (items & sk & -> & _).
  exists items, sk. simpl. f_equal. lia.
Qed.

(** The loop over the lines keeps the events of the lines that parse and
    are not excluded, in order, and counts them. *)
Lemma collect_items_kept cfg actual_domain content total :
  let items := omap (kept_event cfg actual_domain) (PyStr.split PyStr.newline content) in
  (collect_items cfg actual_domain content total).1.1 = items
  ∧ (collect_items cfg actual_domain content total).2 = (total + length items)%nat.
Proof.
  unfold collect_items.
  set (body := λ '(items, skipped, total) line, _).
  assert (∀ lines items skipped total,
            (foldl body (items, skipped, total) lines).1.1
            = items ++ omap (kept_event cfg actual_domain) lines
            ∧ (foldl body (items, skipped, total) lines).2
              = (total + length (omap (kept_event cfg actual_domain) lines))%nat) as Hloop.
  { induction lines as [|line lines IH]; intros items skipped tot.
    - simpl. rewrite app_nil_r. split; [done|lia].
    - assert (∃ skipped',
                body (items, skipped, tot) line
                = match kept_event cfg actual_domain line with
                  | Some ev => (items ++ [ev], skipped', S tot)
                  | None => (items, skipped', tot)
                  end) as [skipped' Hbody].
      { unfold body, kept_event.
        destruct (_parse_cloudfront_log_line line) as [parsed|]; simpl;
          [destruct (_should_exclude_path cfg (path parsed))|]; eauto. }
      cbn [foldl omap list_omap]. rewrite Hbody.
      destruct (kept_event cfg actual_domain line) as [ev|]; [|apply IH].
      destruct (IH (items ++ [ev]) skipped' (S tot)) as [-> ->].
      rewrite <- List.app_assoc. split; [done|simpl; lia]. }
  cbv zeta. apply (Hloop (PyStr.split PyStr.newline content) [] 0%nat total).
Qed.

Lemma write_batch_dom (clock : nat → Z) (items : list event) (st : table * nat) :
  dom (write_batch clock items st).1 = dom st.1 ∪ list_to_set (event_key <$> items).
Proof.
  revert st. induction items as [|x items IH]; intros [t n].
  - simpl. set_solver.
  - unfold write_batch in *. cbn [foldl]. rewrite IH, put_build_db_item.
    cbn [fst]. rewrite dom_insert_L, fmap_cons, list_to_set_cons. set_solver.
Qed.

Lemma run_upd_dom (ttl : Z) (t : table) (u : upd) : dom t ⊆ dom (run_upd ttl t u).
Proof.
  unfold run_upd, try_update_item. rewrite update_item_eq.
  destruct (run_adds _ _); simpl; [|done].
  rewrite dom_insert_L. set_solver.
Qed.

Lemma foldl_run_upd_dom (ttl : Z) (us : list upd) (t : table) :
  dom t ⊆ dom (foldl (run_upd ttl) t us).
Proof.
  revert t. induction us as [|u us IH]; intros t; simpl; [done|].
  etrans; [apply (run_upd_dom ttl t u)|apply IH].
Qed.

Lemma update_rollups_dom now items t t' :
  _update_rollups now items t = Some t' → dom t ⊆ dom t'.
Proof.
  rewrite update_rollups_eq. intros [= <-].
  destruct items; [done|]. apply foldl_run_upd_dom.
Qed.

(** One record adds the number of its kept events to both totals and
    leaves the row of each of them in the table. *)
Lemma process_record_kept w cfg st st' n rec :
  process_record w cfg st (n, rec) = Some st' →
  total_processed st' = (total_processed st + length (kept_of_record w cfg rec))%nat
  ∧ total_written st' = (total_written st + length (kept_of_record w cfg rec))%nat
  ∧ dom (store st) ⊆ dom (store st')
  ∧ ∀ it, it ∈ kept_of_record w cfg rec → event_key it ∈ dom (store st').
Proof.
  unfold process_record, kept_of_record.
  destruct rec as [[bucket key]|]; [|done]. simpl.
  destruct (get_object w bucket key) as [content|]; [|done]. simpl.
  destruct (_extract_domain_from_s3_key key) as [actual_domain|];
    [|intros; simplify_eq; split_and!; [simpl; lia..|done|set_solver]].
  destruct (PyStr.truthy actual_domain);
    [|intros; simplify_eq; split_and!; [simpl; lia..|done|set_solver]].
  destruct (collect_items_kept cfg actual_domain content (total_processed st))
    as [Hitems Htotal].
  destruct (collect_items cfg actual_domain content (total_processed st))
    as [[items skipped] total] eqn:Hc.
  simpl in Hitems, Htotal. rewrite <- Hitems in Htotal. rewrite <- Hitems.
  destruct items as [|x items].
  - intros; simplify_eq. split_and!; [simpl; lia..|done|set_solver].
  - destruct (_batch_write_to_dynamodb _ _ _) as [t1 n1] eqn:Hw.
    pose proof (batch_write_count (now w n) (x :: items) (store st)) as Hn.
    pose proof (write_batch_dom (now w n) (x :: items) (store st, 0%nat)) as Hdom.
    rewrite <- batch_write_eq, Hw in Hdom. rewrite Hw in Hn. cbn [fst snd] in Hdom, Hn.
    destruct (_update_rollups _ _ t1) as [t2|] eqn:Hroll; simpl; [|done].
    apply update_rollups_dom in Hroll.
    intros; simplify_eq. cbn [total_processed total_written store].
    split_and!; [done|done|set_solver|].
    intros it Hit. apply Hroll. rewrite Hdom.
    apply elem_of_union_r, elem_of_list_to_set, list_elem_of_fmap. by exists it.
Qed.

Lemma for_each_kept w cfg (records : list (option (string * string))) n st st' :
  for_each (process_record w cfg) (zip (seq n (length records)) records) st = Some st' →
  total_processed st'
  = (total_processed st + length (concat (kept_of_record w cfg <$> records)))%nat
  ∧ total_written st'
    = (total_written st + length (concat (kept_of_record w cfg <$> records)))%nat
  ∧ dom (store st) ⊆ dom (store st')
  ∧ ∀ it, it ∈ concat (kept_of_record w cfg <$> records) →
          event_key it ∈ dom (store st').
Proof.
  revert n st. induction records as [|rec records IH]; intros n st.
  - cbn [length seq zip zip_with]. rewrite for_each_nil.
    intros; simplify_eq. split_and!; [simpl; lia..|done|set_solver].
  - intros Hrest. cbn [length seq zip zip_with] in Hrest.
    rewrite for_each_cons in Hrest.
    destruct (process_record w cfg st (n, rec)) as [st1|] eqn:Hrec; [|done].
    simpl in Hrest. apply IH in Hrest as (Hp & Hw & Hdom & Hrows).
    apply process_record_kept in Hrec as (Hp1 & Hw1 & Hdom1 & Hrows1).
    rewrite fmap_cons, concat_cons, length_app.
    split_and!; [lia|lia|set_solver|].
    intros it [Hit|Hit]%elem_of_app; [apply Hdom; auto|auto].
Qed.

(** C10.  Whenever [lambda_handler] completes without raising, the
    [processed] and [written] counts of its response are equal, and each
    is the number of kept events: the events of the lines that parse and
    are not excluded, in every object of the invocation whose key starts
    with a domain.  Each of them is counted once in each total, and the
    row of each is in the table the handler leaves. *)
Theorem processed_equals_written w cfg records t resp t' :
  lambda_handler w cfg records t = Some (resp, t') →
  let kept := concat (kept_of_record w cfg <$> records) in
  processed resp = written resp
  ∧ processed resp = length kept
  ∧ written resp = length kept
  ∧ ∀ it, it ∈ kept → event_key it ∈ dom t'.
Proof.
  unfold lambda_handler.
  destruct (for_each _ _ _) as [st|] eqn:Hloop; [|done]. simpl.
  intros [= <- <-]. simpl.
  apply for_each_kept in Hloop as (Hp & Hw & _ & Hrows). simpl in Hp, Hw.
  split_and!; [lia|done|done|done].
Qed.

(** The handler raises only on a malformed record or a failed read. *)
Lemma process_record_Some w cfg st n bucket key content :
  get_object w bucket key = Some content →
  is_Some (process_record w cfg st (n, Some (bucket, key))).
Proof.
  intros Hget. unfold process_record. simpl. rewrite Hget. simpl.
  destruct (_extract_domain_from_s3_key key) as [actual_domain|]; [|by eexists].
  destruct (PyStr.truthy actual_domain); [|by eexists].
  destruct (collect_items _ _ _ _) as [[items sk] total].
  destruct items as [|x items]; [by eexists|].
  destruct (_batch_write_to_dynamodb _ _ _) as [t n'].
  rewrite update_rollups_eq. simpl. by eexists.
Qed.

Lemma lambda_handler_completes w cfg (objects : list (string * string)) t :
  Forall (λ o, is_Some (get_object w o.1 o.2)) objects →
  is_Some (lambda_handler w cfg (Some <$> objects) t).
Proof.
  intros Hobj. unfold lambda_handler.
  assert (∀ start st, is_Some (for_each (process_record w cfg)
            (zip (seq start (length (Some <$> objects))) (Some <$> objects)) st)) as Hloop.
  { induction Hobj as [|[bucket key] objects [content Hget] _ IH]; intros start st.
    - by eexists.
    - simpl. rewrite for_each_cons.
      destruct (process_record_Some w cfg st start bucket key content Hget) as [st1 ->].
      simpl. apply IH. }
  destruct (Hloop 0%nat {| total_processed := 0; total_written := 0; store := t |})
    as [st ->]. by eexists.
Qed.
End controller.

(** *** The theorems at work on the example inputs *)

(** C1 at the example request, referred by [https://google.com/search]. *)
Lemma referrer_domain_policy_witness :
  (referrer_domain example_event = None
   ↔ normalize "google.com" = normalize "example.com" ∨ normalize "google.com" = "")
  ∧ (∀ d, referrer_domain example_event = Some d → d = normalize "google.com").
Proof.
  apply (referrer_domain_policy example_line example_event
           "example.com" "https://google.com/search" "google.com");
    vm_compute; reflexivity.
Defined.

(** C1 as stated fails: the referrer [http://www./x] has the netloc
    ["www."], which is not empty and does not normalise to the host, and
    yet the event has no [referrer_domain]. *)
Lemma www_only_referrer_is_dropped :
  ∃ ev,
    _parse_cloudfront_log_line www_only_line = Some ev
    ∧ fields_of www_only_line !! 6%nat = Some "example.com"
    ∧ fields_of www_only_line !! 9%nat = Some "http://www./x"
    ∧ urlparse_netloc (unquote "http://www./x") = Some "www."
    ∧ ¬ (referrer_domain ev = None
         ↔ normalize "www." = normalize "example.com" ∨ "www." = "").
Proof.
  eexists. split; [vm_compute; reflexivity|].
  repeat split; try (vm_compute; reflexivity).
  intros [Hiff _]. destruct (Hiff eq_refl) as [Heq|Heq]; discriminate Heq.
Qed.

(** C2 at the line with dashes. *)
Lemma dash_fields_witness :
  ∃ ev, _parse_cloudfront_log_line dashes_line = Some ev
    ∧ (fields_of dashes_line !! 9%nat = Some "-" →
         referrer ev = None ∧ referrer_domain ev = None)
    ∧ (fields_of dashes_line !! 10%nat = Some "-" → user_agent ev = None)
    ∧ fields_of dashes_line !! 14%nat = Some (request_id ev).
Proof. apply (dash_fields dashes_line); [reflexivity|vm_compute; lia]. Defined.

(** C2 as stated fails: a dash in the user-agent slot leaves the event and
    the written row without a user agent, while a dash in the request_id
    slot is kept as the request id and ends the sort key. *)
Lemma request_id_dash_is_kept :
  ∃ ev,
    _parse_cloudfront_log_line dashes_line = Some ev
    ∧ fields_of dashes_line !! 10%nat = Some "-"
    ∧ fields_of dashes_line !! 14%nat = Some "-"
    ∧ user_agent ev = None
    ∧ build_db_item ev 0 !! "user_agent" = None
    ∧ request_id ev = "-"
    ∧ build_db_item ev 0 !! "request_id" = Some (AStr "-")
    ∧ build_db_item ev 0 !! "SK" = Some (AStr "2024-01-15T12:00:00Z#-").
Proof.
  eexists. split; [vm_compute; reflexivity|].
  repeat split; vm_compute; reflexivity.
Qed.

(** C4 as stated fails: two writes of one event at different clock
    readings build different items, and the row left by the replay is not
    the row of the first write. *)
Lemma replay_restamps_ttl :
  build_db_item example_event (ttl_of 0) ≠ build_db_item example_event (ttl_of 1)
  ∧ write_times example_event [0; 1] ∅ !! event_key example_event
    ≠ write_times example_event [0] ∅ !! event_key example_event.
Proof.
  assert (build_db_item example_event (ttl_of 0)
          ≠ build_db_item example_event (ttl_of 1)) as Hne.
  { intros Heq. apply (f_equal (λ r : row, r !! "ttl")) in Heq.
    rewrite !build_db_item_ttl in Heq. discriminate Heq. }
  split; [exact Hne|].
  change [0; 1] with ([0] ++ [1]). change [0] with ([] ++ [0]) at 2.
  rewrite !write_times_snoc, !lookup_insert_eq. congruence.
Qed.

(** C6 at the example request, filed under [example.com]. *)
Lemma pk_date_is_timestamp_prefix_witness :
  ∃ pk ts,
    build_db_item (with_domain "example.com" example_event) 0 !! "PK" = Some (AStr pk)
    ∧ build_db_item (with_domain "example.com" example_event) 0 !! "timestamp"
      = Some (AStr ts)
    ∧ PyStr.split PyStr.hash pk !! 1%nat = Some (PyStr.slice 0 10 ts).
Proof.
  apply (pk_date_is_timestamp_prefix example_line example_event "example.com" 0);
    vm_compute; reflexivity.
Defined.

(** C6 as stated fails: for the date field [2024-1-5] the partition key
    holds [2024-1-5], while the first ten characters of the timestamp are
    [2024-1-5T1]. *)
Lemma short_date_breaks_pk_date :
  ∃ ev,
    _parse_cloudfront_log_line short_date_line = Some ev
    ∧ build_db_item ev 0 !! "PK" = Some (AStr "example.com#2024-1-5")
    ∧ build_db_item ev 0 !! "timestamp" = Some (AStr "2024-1-5T12:00:00Z")
    ∧ PyStr.split PyStr.hash "example.com#2024-1-5" !! 1%nat = Some "2024-1-5"
    ∧ PyStr.slice 0 10 "2024-1-5T12:00:00Z" = "2024-1-5T1"
    ∧ PyStr.split PyStr.hash "example.com#2024-1-5" !! 1%nat
      ≠ Some (PyStr.slice 0 10 "2024-1-5T12:00:00Z").
Proof.
  eexists. split; [vm_compute; reflexivity|].
  repeat split; try (vm_compute; reflexivity). vm_compute. discriminate.
Qed.

(** C7 at the example request: the hour of [2024-01-15T12:00:00Z]. *)
Lemma hourly_key_hour_witness : hour_of (timestamp example_event) = "12".
Proof.
  destruct (hourly_key_hour no_accumulators example_event) as (_ & _ & _ & _ & Hiso).
  apply (Hiso "2024-01-15" "12" ":00:00Z"); reflexivity.
Defined.

(** C7 as stated fails: for the date field [2024-1-5] the timestamp is
    [2024-1-5T12:00:00Z], whose characters 11 and 12 are [:0], not an
    hour. *)
Lemma hour_slice_is_not_an_hour :
  ∃ ev,
    _parse_cloudfront_log_line short_date_line = Some ev
    ∧ timestamp ev = "2024-1-5T12:00:00Z"
    ∧ hour_of (timestamp ev) = ":0"
    ∧ hour_key ev = "example.com#2024-1-5#:0"
    ∧ is_two_digit_hour (hour_of (timestamp ev)) = false.
Proof.
  eexists. split; [vm_compute; reflexivity|].
  repeat split; vm_compute; reflexivity.
Qed.

(** C10 at the example object; the run completes because its one object
    can be read. *)
Lemma processed_equals_written_witness :
  ∃ resp t',
    lambda_handler example_world example_config example_records ∅ = Some (resp, t')
    ∧ processed resp = written resp
    ∧ processed resp
      = length (concat (kept_of_record example_world example_config <$> example_records))
    ∧ written resp
      = length (concat (kept_of_record example_world example_config <$> example_records))
    ∧ ∀ it, it ∈ concat (kept_of_record example_world example_config <$> example_records) →
            event_key it ∈ dom t'.
Proof.
  assert (is_Some (lambda_handler example_world example_config example_records ∅))
    as [[resp t'] Hrun].
  { apply (lambda_handler_completes example_world example_config
             [("logs", "example.com/2024/01/15/E1.2024-01-15-12.abc.gz")] ∅).
    repeat constructor. vm_compute. eexists. reflexivity. }
  exists resp, t'. split; [exact Hrun|].
  exact (processed_equals_written _ _ _ _ _ _ Hrun).
Defined.

(** The example object holds a comment, two kept requests and one request
    for a style sheet: two events are processed and two are written. *)
Lemma example_run_counts :
  (λ r, (processed r.1, written r.1)) <$>
    lambda_handler example_world example_config example_records ∅
  = Some (2%nat, 2%nat).
Proof. vm_compute. reflexivity. Qed.

End LogParserProofs.

(** ** The journey tracker: proofs *)

Module JourneyTrackerProofs.
Import JourneyTracker.
Section tracker.
Context `{JsonLib} `{Store}.

Lemma length_accepted cfg (l : list (reading * json)) :
  (length (omap (accept cfg) l) <= length l)%nat.
Proof.
  induction l as [|entry l IH]; [done|]. cbn [omap list_omap].
  destruct (accept cfg entry); simpl; lia.
Qed.

(** A rejected event adds one error and leaves the writer alone. *)
Lemma write_event_reject cfg st entry :
  accept cfg entry = None →
  ∃ msg, write_event cfg st entry
         = {| written := written st; errors := errors st ++ [msg];
              buffer := buffer st; sessions := sessions st |}.
Proof.
  unfold accept, write_event.
  destruct (_validate_event cfg entry.2) as [[msg|]|e]; eauto.
  destruct (_build_dynamodb_item entry.1 entry.2); [done|eauto].
Qed.

(** An accepted event hands its item to the batch writer. *)
Lemma write_event_put cfg st entry it :
  accept cfg entry = Some it →
  write_event cfg st entry
  = match put_item it (buffer st) (sessions st) with
    | (None, held, t) =>
        {| written := S (written st); errors := errors st;
           buffer := held; sessions := t |}
    | (Some e, held, t) =>
        {| written := written st; errors := errors st ++ [exn_str e];
           buffer := held; sessions := t |}
    end.
Proof.
  unfold accept, write_event.
  destruct (_validate_event cfg entry.2) as [[msg|]|e]; try done.
  destruct (_build_dynamodb_item entry.1 entry.2); [|done]. by intros [= ->].
Qed.

Lemma requests_fuel (items : list item) (fuel fuel' : nat) :
  (length items <= fuel)%nat → (length items <= fuel')%nat →
  requests fuel items = requests fuel' items.
Proof.
  revert items fuel'. induction fuel as [|fuel IH]; intros items fuel' Hf Hf'.
  - destruct items; [|simpl in Hf; lia]. by destruct fuel'.
  - destruct items as [|it items]; [by destruct fuel'|].
    destruct fuel' as [|fuel']; [simpl in Hf'; lia|].
    cbn [requests]. f_equal.
    assert (length (drop flush_amount (it :: items)) <= length items)%nat
      by (rewrite length_drop; cbn [length]; unfold flush_amount; lia).
    simpl in Hf, Hf'. apply IH; lia.
Qed.

(** The requests of a list are carried out when a run through them finds
    no refusal. *)
Lemma carried_out_forallb (l : list (list item)) :
  forallb (λ request, bool_decide (is_Some (batch_write_error request) → False)) l = true →
  Forall (λ request, batch_write_error request = None) l.
Proof.
  intros Hl. apply Forall_forall. intros request Hin.
  rewrite forallb_forall in Hl. apply list_elem_of_In, Hl in Hin.
  apply bool_decide_eq_true in Hin.
  destruct (batch_write_error request); [|done]. destruct Hin. by eexists.
Qed.

(** A flush whose request is carried out. *)
Lemma flush_carried_out (held : list item) (t : table) :
  (length held <= flush_amount)%nat →
  batch_write_error held = None →
  _flush held t = (None, [], foldl (λ t it, store_put it t) t held).
Proof.
  intros Hlen Hok. unfold _flush.
  rewrite take_ge, drop_ge by done. by rewrite Hok.
Qed.

(** The loop and the flush on leaving, when every request is carried
    out: every accepted item is counted and put, in order. *)
Lemma write_loop_carried_out cfg (l : list (reading * json)) (st : write_state) :
  (length (buffer st) < flush_amount)%nat →
  let accepted := omap (accept cfg) l in
  let items := buffer st ++ accepted in
  Forall (λ request, batch_write_error request = None)
    (requests (length items) items) →
  let st' := foldl (write_event cfg) st l in
  written st' = (written st + length accepted)%nat
  ∧ length (errors st') = (length (errors st) + (length l - length accepted))%nat
  ∧ writer_exit (length (buffer st')) (buffer st') (sessions st')
    = (None, foldl (λ t it, store_put it t) (sessions st) items).
Proof.
  revert st. induction l as [|entry l IH]; intros st Hheld; cbv zeta.
  - cbn [omap list_omap foldl length]. rewrite app_nil_r. intros Hreq.
    split; [lia|]. split; [lia|].
    destruct (buffer st) as [|it held] eqn:Hb; [done|].
    cbn [length requests] in Hreq. apply Forall_cons in Hreq as [Hreq _].
    rewrite take_ge in Hreq by (simpl in Hheld; simpl; lia).
    cbn [length writer_exit]. rewrite flush_carried_out by (simpl in *; lia || done).
    by destruct (length held).
  - pose proof (length_accepted cfg l) as Hacc.
    cbn [omap list_omap foldl].
    destruct (accept cfg entry) as [it|] eqn:Hentry.
    + rewrite (write_event_put cfg st entry it Hentry). unfold put_item.
      intros Hreq.
      destruct (flush_amount <=? length (buffer st ++ [it]))%nat eqn:Hfull.
      * apply Nat.leb_le in Hfull. rewrite length_app in Hfull. simpl in Hfull.
        assert (length (buffer st ++ [it]) = flush_amount) as Hlen
          by (rewrite length_app; simpl; lia).
        assert (buffer st ++ it :: omap (accept cfg) l
                = (buffer st ++ [it]) ++ omap (accept cfg) l) as Hitems
          by (by rewrite <- List.app_assoc).
        rewrite Hitems in Hreq |- *.
        destruct (buffer st ++ [it]) as [|x held] eqn:Hheld'; [done|].
        rewrite length_app in Hreq. cbn [length Nat.add requests app] in Hreq.
        change (x :: held ++ omap (accept cfg) l)
          with ((x :: held) ++ omap (accept cfg) l) in Hreq.
        rewrite take_app_length', drop_app_length' in Hreq by done.
        apply Forall_cons in Hreq as [Hfirst Hrest].
        rewrite flush_carried_out by (done || lia).
        specialize (IH {| written := S (written st); errors := errors st;
                          buffer := [];
                          sessions := foldl (λ t it, store_put it t)
                                        (sessions st) (x :: held) |}).
        cbn [written errors buffer sessions app] in IH.
        destruct IH as (Hw & He & Hexit).
        { unfold flush_amount. simpl. lia. }
        { rewrite (requests_fuel _ _ (length held + length (omap (accept cfg) l)));
            [exact Hrest|done|lia]. }
        rewrite Hw, He, Hexit, foldl_app. cbn [length]. split; [lia|]. split; [lia|done].
      * apply Nat.leb_gt in Hfull.
        specialize (IH {| written := S (written st); errors := errors st;
                          buffer := buffer st ++ [it]; sessions := sessions st |}).
        cbn [written errors buffer sessions] in IH.
        rewrite <- List.app_assoc in IH. cbn [app] in IH.
        destruct (IH Hfull Hreq) as (Hw & He & Hexit).
        rewrite Hw, He, Hexit. cbn [length]. split; [lia|]. split; [lia|done].
    + destruct (write_event_reject cfg st entry Hentry) as [msg ->].
      intros Hreq.
      specialize (IH {| written := written st; errors := errors st ++ [msg];
                        buffer := buffer st; sessions := sessions st |}).
      cbn [written errors buffer sessions] in IH.
      destruct (IH Hheld Hreq) as (Hw & He & Hexit).
      rewrite Hw, He, Hexit, length_app. cbn [length]. split; [lia|]. split; [lia|done].
Qed.

Lemma write_events_configured cfg rds evs t :
  table_configured cfg = true →
  _write_events cfg rds evs t
  = let st := foldl (write_event cfg)
                {| written := 0; errors := []; buffer := []; sessions := t |}
                (entries rds evs) in
    match writer_exit (length (buffer st)) (buffer st) (sessions st) with
    | (Some e, t') => (Raise e, t')
    | (None, t') => (Ok (written st, errors st), t')
    end.
Proof.
  unfold table_configured, _write_events.
  destruct (SESSIONS_TABLE cfg) as [name|]; [|done]. by intros ->.
Qed.

Lemma write_events_unconfigured cfg rds evs t :
  table_configured cfg = false →
  _write_events cfg rds evs t
  = (Raise (ValueError "SESSIONS_TABLE environment variable not set"), t).
Proof.
  unfold table_configured, _write_events.
  destruct (SESSIONS_TABLE cfg) as [name|]; [|done]. by intros ->.
Qed.

(** [_write_events] when the table is configured and every request is
    carried out. *)
Lemma write_events_carried_out cfg rds evs t :
  table_configured cfg = true →
  let accepted := omap (accept cfg) (entries rds evs) in
  Forall (λ request, batch_write_error request = None)
    (requests (length accepted) accepted) →
  ∃ errs,
    _write_events cfg rds evs t
    = (Ok (length accepted, errs), foldl (λ t it, store_put it t) t accepted)
    ∧ length errs = (length evs - length accepted)%nat.
Proof.
  intros Hcfg accepted Hreq. rewrite write_events_configured by done. cbv zeta.
  destruct (write_loop_carried_out cfg (entries rds evs)
              {| written := 0; errors := []; buffer := []; sessions := t |})
    as (Hw & He & Hexit).
  { unfold flush_amount. simpl. lia. }
  { exact Hreq. }
  rewrite Hexit. eexists. split; [by rewrite Hw|].
  rewrite He. cbn [errors length].
  assert (length (entries rds evs) = length evs) as ->
    by (unfold entries; rewrite length_zip, length_fmap, length_seq; lia).
  done.
Qed.

Lemma length_entries rds evs : length (entries rds evs) = length evs.
Proof. unfold entries. rewrite length_zip, length_fmap, length_seq. lia. Qed.

Lemma handle_batch_eq cfg rds payload evs t :
  py_get payload "events" (JArr []) = Ok (JArr evs) →
  _handle_batch_events cfg rds payload t =
    match evs with
    | [] => (Ok (_error 400 "No events provided"), t)
    | _ =>
        if (100 <? length evs)%nat
        then (Ok (_error 400 "Maximum 100 events per batch"), t)
        else
          match _write_events cfg rds evs t with
          | (Ok result, t') =>
              (Ok (_response 200
                     (JObj [("status", JStr "ok");
                            ("written", JInt (Z.of_nat result.1));
                            ("errors", JInt (Z.of_nat (length result.2)))])),
               t')
          | (Raise e, t') => (Raise e, t')
          end
    end.
Proof. intros Hevs. unfold _handle_batch_events. rewrite Hevs. by destruct evs. Qed.

Lemma route_batch cfg rds ev t payload :
  http_method ev = "POST" → rawPath ev = "/t/batch" →
  decode_body ev = Ok (Loaded payload) →
  route cfg rds ev t = _handle_batch_events cfg rds payload t.
Proof. intros Hm Hp Hbody. unfold route. by rewrite Hm, Hp, Hbody. Qed.

Lemma single_headers cfg rds payload t r t' :
  _handle_single_event cfg rds payload t = (Ok r, t') → headers r = cors_headers.
Proof.
  unfold _handle_single_event.
  destruct (_write_events cfg rds [payload] t) as [[result|e] t1]; [|done].
  case_decide; by intros [= <- _].
Qed.

Lemma batch_headers cfg rds payload t r t' :
  _handle_batch_events cfg rds payload t = (Ok r, t') → headers r = cors_headers.
Proof.
  unfold _handle_batch_events.
  destruct (py_get payload "events" (JArr [])) as [events|e]; [|done].
  destruct (truthy events); simpl; [|by intros [= <- _]].
  destruct (py_list events) as [evs|e]; [|done].
  destruct (100 <? length evs)%nat; [by intros [= <- _]|].
  destruct (_write_events cfg rds evs t) as [[result|e] t1]; [|done].
  by intros [= <- _].
Qed.

Lemma route_headers cfg rds ev t r t' :
  route cfg rds ev t = (Ok r, t') → headers r = cors_headers.
Proof.
  unfold route. case_decide; [by intros [= <- _]|].
  case_bool_decide; simpl; [|by intros [= <- _]].
  destruct (decode_body ev) as [[payload| |e]|e]; try done.
  - case_decide; [apply single_headers|].
    case_decide; [apply batch_headers|]. by intros [= <- _].
  - by intros [= <- _].
Qed.

(** C9, amended.  Every response carries [Content-Type:
    application/json] and the CORS headers; OPTIONS yields 200 with the
    empty JSON object as body; a method other than POST and OPTIONS
    yields 405; a POST whose body text is not empty and does not decode
    as JSON yields 400; a POST whose body decodes (an empty body counts
    as the empty object) to a path other than [/t] and [/t/batch]
    yields 404; the last three carry a JSON [{error}] body. *)
Theorem http_contract cfg rds ev t :
  let resp := (lambda_handler cfg rds ev t).1 in
  headers resp = cors_headers
  ∧ (http_method ev = "OPTIONS" → statusCode resp = 200 ∧ body resp = JObj [])
  ∧ (http_method ev ≠ "OPTIONS" → http_method ev ≠ "POST" →
       statusCode resp = 405
       ∧ body resp = JObj [("error", JStr "Method not allowed")])
  ∧ (http_method ev = "POST" → decode_body ev = Ok JSONDecodeError →
       statusCode resp = 400
       ∧ body resp = JObj [("error", JStr "Invalid JSON body")])
  ∧ (http_method ev = "POST" → rawPath ev ≠ "/t" → rawPath ev ≠ "/t/batch" →
       ∀ payload, decode_body ev = Ok (Loaded payload) →
       statusCode resp = 404 ∧ body resp = JObj [("error", JStr "Not found")]).
Proof.
  cbv zeta. unfold lambda_handler. split; [|split; [|split; [|split]]].
  - destruct (route cfg rds ev t) as [[r|e] t'] eqn:Hr; [|done].
    by eapply route_headers.
  - intros Hm. unfold route. by rewrite Hm.
  - intros Ho Hp. unfold route. rewrite decide_False by done.
    by rewrite bool_decide_eq_false_2.
  - intros Hm Hbody. unfold route. by rewrite Hm, Hbody.
  - intros Hm Ht Hb payload Hbody. unfold route. rewrite Hm, Hbody. simpl.
    by rewrite !decide_False.
Qed.

(** How the body text is decoded when it is not base64-wrapped. *)
Lemma decode_body_text ev s :
  isBase64Encoded ev = false → raw_body ev = BodyText s →
  decode_body ev = Ok (if PyStr.truthy s then json_loads s else Loaded (JObj [])).
Proof.
  intros Hb Hs. unfold decode_body, body_text. rewrite Hb, Hs. simpl.
  by destruct (PyStr.truthy s).
Qed.

(** *** Valid events *)

Lemma check_required_Ok fields event_data :
  check_required fields event_data = Ok None →
  fields = [] ∨ ∀ f, f ∈ fields → py_in f event_data = Ok true.
Proof.
  induction fields as [|f fields IH]; [by left|]. simpl.
  destruct (py_in f event_data) as [[]|] eqn:Hf; simpl; try done.
  intros [->|Hall]%IH; right; intros g Hg.
  - apply list_elem_of_singleton in Hg as ->. done.
  - apply elem_of_cons in Hg as [->|Hg]; auto.
Qed.

Lemma in_strs_JStr v l : in_strs v l = true → ∃ s, v = JStr s ∧ s ∈ l.
Proof.
  unfold in_strs. intros (s & Hs & Heq)%existsb_exists.
  destruct v; simpl in Heq; try done.
  apply bool_decide_eq_true in Heq as ->. exists s. split; [done|].
  by apply list_elem_of_In.
Qed.

Lemma validate_object cfg ms :
  _validate_event cfg (JObj ms) =
    match check_required required_fields (JObj ms) with
    | Ok None =>
        let domain := default (JStr "") (lookup_member "domain" ms) in
        let event_type := default JNull (lookup_member "event_type" ms) in
        if in_strs domain (ALLOWED_DOMAINS cfg) then
          if in_strs event_type valid_types then Ok None
          else Ok (Some ("Invalid event type: " +:+ py_str event_type))
        else Ok (Some ("Domain not allowed: " +:+ py_str domain))
    | Ok (Some msg) => Ok (Some msg)
    | Raise e => Raise e
    end.
Proof.
  unfold _validate_event.
  destruct (check_required required_fields (JObj ms)) as [[msg|]|e]; try done.
  cbv zeta. unfold py_get, bind.
  destruct (in_strs _ (ALLOWED_DOMAINS cfg)); [|done].
  by destruct (in_strs _ valid_types).
Qed.

Lemma validate_Ok_inv cfg event_data :
  _validate_event cfg event_data = Ok None →
  ∃ ms session_id event_type domain path,
    event_data = JObj ms
    ∧ lookup_member "session_id" ms = Some session_id
    ∧ lookup_member "event_type" ms = Some (JStr event_type)
    ∧ event_type ∈ valid_types
    ∧ lookup_member "domain" ms = Some (JStr domain)
    ∧ domain ∈ ALLOWED_DOMAINS cfg
    ∧ lookup_member "path" ms = Some path.
Proof.
  destruct event_data as [| | | | |?|ms];
    try (unfold _validate_event;
         by destruct (check_required required_fields _) as [[msg|]|e]).
  rewrite validate_object.
  destruct (check_required required_fields (JObj ms)) as [[msg|]|e] eqn:Hreq;
    try done.
  apply check_required_Ok in Hreq as [?|Hreq]; [done|].
  assert (∀ f, f ∈ required_fields → is_Some (lookup_member f ms)) as Hin.
  { intros f Hf. specialize (Hreq f Hf). simpl in Hreq.
    injection Hreq as Hreq. by apply bool_decide_eq_true in Hreq. }
  destruct (Hin "session_id") as [sid Hsid]; [set_solver|].
  destruct (Hin "event_type") as [et Het]; [set_solver|].
  destruct (Hin "domain") as [dom Hdom]; [set_solver|].
  destruct (Hin "path") as [pth Hpth]; [set_solver|].
  rewrite Hdom, Het. cbv zeta.
  change (default (JStr "") (Some dom)) with dom.
  change (default JNull (Some et)) with et.
  destruct (in_strs dom (ALLOWED_DOMAINS cfg)) eqn:Hd; [|done].
  destruct (in_strs et valid_types) eqn:Ht; [|done].
  intros _. apply in_strs_JStr in Hd as (d & -> & Hd).
  apply in_strs_JStr in Ht as (ty & -> & Ht).
  by exists ms, sid, ty, d, pth.
Qed.

Lemma build_object rd ms session_id event_type domain path :
  lookup_member "session_id" ms = Some session_id →
  lookup_member "event_type" ms = Some event_type →
  lookup_member "domain" ms = Some domain →
  lookup_member "path" ms = Some path →
  _build_dynamodb_item rd (JObj ms) =
    bind (date_of rd (timestamp_of rd ms))
      (λ date, foldl (copy_optional (JObj ms))
                 (Ok (base_item rd session_id event_type domain path
                        (timestamp_of rd ms) (event_id_of rd ms) date))
                 optional_fields).
Proof.
  intros Hs He Hd Hp. unfold _build_dynamodb_item, py_getitem.
  rewrite Hs, He, Hd, Hp. reflexivity.
Qed.

Lemma copy_optional_object ms it field :
  copy_optional (JObj ms) (Ok it) field =
    Ok (match lookup_member field ms with
        | Some JNull | None => it
        | Some v => <[field := v]> it
        end).
Proof.
  unfold copy_optional, py_in, py_getitem, bind.
  destruct (lookup_member field ms) as [v|] eqn:Hv.
  - rewrite bool_decide_eq_true_2 by eauto. by destruct v.
  - rewrite bool_decide_eq_false_2; [done|]. by intros [? ?].
Qed.

Lemma copy_optional_fold ms fields it0 :
  ∃ it, foldl (copy_optional (JObj ms)) (Ok it0) fields = Ok it
    ∧ ∀ k, k ∉ fields → it !! k = it0 !! k.
Proof.
  revert it0. induction fields as [|f fields IH]; intros it0.
  - by exists it0.
  - cbn [foldl]. rewrite copy_optional_object.
    destruct (IH (match lookup_member f ms with
                  | Some JNull | None => it0
                  | Some v => <[f := v]> it0
                  end)) as (it & -> & Hit).
    exists it. split; [done|]. intros k Hk.
    apply not_elem_of_cons in Hk as [Hkf Hk]. rewrite Hit by done.
    destruct (lookup_member f ms) as [[]|]; try done;
      by rewrite lookup_insert_ne.
Qed.

(** A valid event is accepted, unless its timestamp is a dictionary and
    slicing a dictionary raises [KeyError]. *)
Lemma valid_event_accepted cfg rd event_data :
  _validate_event cfg event_data = Ok None →
  object_timestamp event_data = false ∨ slice_hashable = false →
  is_Some (accept cfg (rd, event_data)).
Proof.
  intros Hv Hts. unfold accept. simpl. rewrite Hv.
  apply validate_Ok_inv in Hv
    as (ms & sid & et & dom & pth & -> & Hsid & Het & _ & Hdom & _ & Hpth).
  rewrite (build_object rd ms _ _ _ _ Hsid Het Hdom Hpth).
  assert (∃ date, date_of rd (timestamp_of rd ms) = Ok date) as [date ->].
  { unfold date_of, slice10, timestamp_of, py_or in *. simpl in Hts.
    destruct (lookup_member "timestamp" ms) as [[]|]; simpl;
      repeat match goal with
        | |- context [if ?b then _ else _] => destruct b eqn:?
        end; eauto; naive_solver. }
  unfold bind. destruct (copy_optional_fold ms optional_fields
            (base_item rd sid (JStr et) (JStr dom) pth (timestamp_of rd ms)
               (event_id_of rd ms) date)) as (it & -> & _).
  by eexists.
Qed.

(** Where slicing a dictionary does not raise [KeyError], or the
    timestamp is no dictionary, the accepted events are the valid ones. *)
Lemma accepted_iff_valid cfg rd event_data :
  object_timestamp event_data = false ∨ slice_hashable = false →
  is_Some (accept cfg (rd, event_data)) ↔ valid cfg event_data = true.
Proof.
  intros Hts. unfold valid. split.
  - unfold accept. simpl.
    by destruct (_validate_event cfg event_data) as [[msg|]|e]; intros [? ?].
  - destruct (_validate_event cfg event_data) as [[msg|]|e] eqn:Hv; try done.
    intros _. apply valid_event_accepted; auto.
Qed.

Lemma count_accepted cfg (rl : list reading) (evs : list json) :
  length rl = length evs →
  Forall (λ e, object_timestamp e = false ∨ slice_hashable = false) evs →
  (length (omap (accept cfg) (zip rl evs))
   + length (filter (λ e, valid cfg e = false) evs) = length evs)%nat.
Proof.
  intros Hlen Hts. revert rl Hlen.
  induction Hts as [|e evs He _ IH]; intros [|rd rl] Hlen; try done.
  cbn [zip zip_with omap list_omap]. rewrite filter_cons.
  specialize (IH rl ltac:(simpl in Hlen; lia)).
  pose proof (accepted_iff_valid cfg rd e He) as Hiff.
  destruct (accept cfg (rd, e)) as [it|]; destruct (valid cfg e) eqn:Hv.
  - rewrite decide_False by done. simpl. lia.
  - destruct Hiff as [Hiff _]. by specialize (Hiff ltac:(eauto)).
  - destruct Hiff as [_ [? ?]]; done.
  - rewrite decide_True by done. simpl. lia.
Qed.

(** C3, amended.  For a POST to [/t/batch] whose decoded body carries a
    list of [N] events of which [K] fail validation: if [N = 0] or
    [N > 100] the response is HTTP 400 and nothing is written; otherwise,
    when [SESSIONS_TABLE] is configured, the store carries out every
    request of the batch writer and, where slicing a dictionary raises
    [KeyError], no event has a dictionary as its timestamp, the response
    is HTTP 200 with body [status "ok"], [written = N - K] and
    [errors = K], and exactly the items of the [N - K] valid events are
    put, in order; when [SESSIONS_TABLE] is not configured the response
    is HTTP 500 and nothing is written. *)
Theorem batch_semantics cfg rds ev t payload evs :
  http_method ev = "POST" →
  rawPath ev = "/t/batch" →
  decode_body ev = Ok (Loaded payload) →
  py_get payload "events" (JArr []) = Ok (JArr evs) →
  let accepted := omap (accept cfg) (entries rds evs) in
  let N := length evs in
  let K := length (filter (λ e, valid cfg e = false) evs) in
  let resp := (lambda_handler cfg rds ev t).1 in
  let t' := (lambda_handler cfg rds ev t).2 in
  ((N = 0 ∨ 100 < N)%nat → statusCode resp = 400 ∧ t' = t)
  ∧ ((1 <= N <= 100)%nat → table_configured cfg = true →
       (slice_hashable = true → Forall (λ e, object_timestamp e = false) evs) →
       Forall (λ request, batch_write_error request = None)
         (requests (length accepted) accepted) →
       statusCode resp = 200
       ∧ body resp = JObj [("status", JStr "ok");
                           ("written", JInt (Z.of_nat (N - K)));
                           ("errors", JInt (Z.of_nat K))]
       ∧ length accepted = (N - K)%nat
       ∧ t' = foldl (λ t it, store_put it t) t accepted)
  ∧ ((1 <= N <= 100)%nat → table_configured cfg = false →
       statusCode resp = 500 ∧ t' = t).
Proof.
  intros Hm Hp Hbody Hevs. cbv zeta.
  unfold lambda_handler.
  rewrite (route_batch cfg rds ev t payload) by done.
  rewrite (handle_batch_eq cfg rds payload evs) by done.
  destruct evs as [|e evs].
  { split; [intros _; split; reflexivity|]. split; intros; simpl in *; lia. }
  set (all := e :: evs) in *.
  assert (1 <= length all)%nat by (subst all; simpl; lia).
  destruct (Nat.ltb_spec 100 (length all)) as [Hbig|Hsmall].
  { split; [intros _; split; reflexivity|]. split; intros; lia. }
  split; [intros; lia|]. split.
  - intros _ Hcfg Hts Hreq.
    destruct (write_events_carried_out cfg rds all t Hcfg Hreq) as (errs & -> & Herrs).
    pose proof (count_accepted cfg (rds <$> seq 0 (length all)) all) as Hcount.
    rewrite length_fmap, length_seq in Hcount.
    assert (Forall (λ e, object_timestamp e = false ∨ slice_hashable = false) all)
      as Hts'.
    { destruct slice_hashable.
      - eapply Forall_impl; [exact (Hts eq_refl)|]. by left.
      - apply Forall_forall. by right. }
    specialize (Hcount eq_refl Hts'). fold (entries rds all) in Hcount.
    cbn [fst snd statusCode body _response]. rewrite Herrs.
    split; [done|]. split; [|split; [lia|done]].
    do 5 f_equal; [do 2 f_equal; lia|do 3 f_equal; lia].
  - intros _ Hcfg. by rewrite write_events_unconfigured by done.
Qed.

(** What the tracker stores for an accepted event: the timestamp is the
    event's own when that is truthy and otherwise, so in particular when
    it is absent, the server's UTC time in ISO-8601 followed by ["Z"]; an
    absent [event_id] is replaced by the first eight characters of a
    fresh UUID4 string; and the date in [GSI1PK] is the first ten
    characters of a string timestamp, today's UTC date being used only
    when the timestamp cannot be sliced. *)
Theorem enrichment cfg rd event_data it :
  accept cfg (rd, event_data) = Some it →
  ∃ ms domain date,
    event_data = JObj ms
    ∧ lookup_member "domain" ms = Some (JStr domain)
    ∧ it !! "timestamp" = Some (timestamp_of rd ms)
    ∧ (lookup_member "timestamp" ms = None →
         timestamp_of rd ms = JStr (utcnow_isoformat rd +:+ "Z"))
    ∧ it !! "SK"
      = Some (JStr ("EVENT#" +:+ py_str (timestamp_of rd ms) +:+ "#"
                    +:+ py_str (event_id_of rd ms)))
    ∧ (lookup_member "event_id" ms = None →
         event_id_of rd ms = JStr (PyStr.take 8 (uuid4_str rd))
         ∧ String.length (PyStr.take 8 (uuid4_str rd)) = 8%nat)
    ∧ it !! "GSI1PK" = Some (JStr ("DOMAIN#" +:+ domain +:+ "#DATE#" +:+ date))
    ∧ match timestamp_of rd ms with
      | JStr s => date = PyStr.take 10 s
      | JArr l => date = py_str (JArr (take 10 l))
      | _ => date = utcnow_date rd
      end.
Proof.
  unfold accept. simpl.
  destruct (_validate_event cfg event_data) as [[msg|]|e] eqn:Hv; try done.
  apply validate_Ok_inv in Hv
    as (ms & sid & et & dom & pth & -> & Hsid & Het & _ & Hdom & _ & Hpth).
  rewrite (build_object rd ms _ _ _ _ Hsid Het Hdom Hpth).
  destruct (date_of rd (timestamp_of rd ms)) as [date|e] eqn:Hdate; [|done].
  unfold bind. destruct (copy_optional_fold ms optional_fields
            (base_item rd sid (JStr et) (JStr dom) pth (timestamp_of rd ms)
               (event_id_of rd ms) date)) as (it' & -> & Hit).
  intros [= <-]. exists ms, dom, (py_str date).
  split; [done|]. split; [done|].
  rewrite !Hit by (unfold optional_fields; set_solver).
  unfold base_item. rewrite py_str_JStr.
  split; [by repeat (rewrite lookup_insert_ne by done); rewrite lookup_insert_eq|].
  split; [intros Hts; unfold timestamp_of; by rewrite Hts|].
  split; [by repeat (rewrite lookup_insert_ne by done); rewrite lookup_insert_eq|].
  split.
  { intros Hid. unfold event_id_of. rewrite Hid. split; [done|].
    pose proof (uuid4_str_length rd) as Hlen.
    destruct (uuid4_str rd) as [|c0 [|c1 [|c2 [|c3 [|c4 [|c5 [|c6 [|c7 u]]]]]]]];
      try discriminate. done. }
  split; [by repeat (rewrite lookup_insert_ne by done); rewrite lookup_insert_eq|].
  unfold date_of, slice10 in Hdate.
  destruct (timestamp_of rd ms) as [| | | |s|l|o]; simpl in Hdate;
    try (injection Hdate as <-; by rewrite ?py_str_JStr).
  destruct slice_hashable; [done|]. injection Hdate as <-. by rewrite py_str_JStr.
Qed.
End tracker.

(** *** The theorems at work on the example inputs *)

(** C3 at the batch of three events, the second without its path: two
    rows are put, under the keys of the first and the third event. *)
Lemma batch_semantics_witness :
  statusCode (lambda_handler example_config example_reading example_batch ∅).1 = 200
  ∧ body (lambda_handler example_config example_reading example_batch ∅).1
    = JObj [("status", JStr "ok"); ("written", JInt 2); ("errors", JInt 1)]
  ∧ size (lambda_handler example_config example_reading example_batch ∅).2 = 2%nat.
Proof.
  destruct (batch_semantics example_config example_reading example_batch ∅
              (ExampleJson.batch_value
                 [ExampleJson.first_view; ExampleJson.no_path; ExampleJson.second_view])
              (ExampleJson.object_value
                 <$> [ExampleJson.first_view; ExampleJson.no_path;
                      ExampleJson.second_view]))
    as (_ & Hok & _); try (vm_compute; reflexivity).
  destruct Hok as (Hstatus & Hbody & _).
  - vm_compute. lia.
  - reflexivity.
  - intros _. repeat constructor.
  - apply carried_out_forallb. vm_compute. reflexivity.
  - split; [exact Hstatus|]. split; [|vm_compute; reflexivity].
    rewrite Hbody. vm_compute. reflexivity.
Defined.

(** C3 as stated fails, in three ways.  Without [SESSIONS_TABLE] the
    batch of three events is answered with HTTP 500, not 200.  A batch of
    one valid event ([N = 1], [K = 0]) whose scroll depth is [55.5] is
    answered with HTTP 500 and nothing is written, the flush on leaving
    the batch writer being refused.  A batch of one valid event whose
    timestamp is a dictionary is answered with [written = 0] and
    [errors = 1], not with [written = 1] and [errors = 0], where slicing
    a dictionary raises [KeyError]. *)
Lemma batch_answers_other_than_200 :
  statusCode (lambda_handler unconfigured example_reading example_batch ∅).1 = 500
  ∧ statusCode (lambda_handler unconfigured example_reading example_batch ∅).1 ≠ 200
  ∧ decode_body scrolled_batch
    = Ok (Loaded (JObj [("events", JArr [ExampleJson.scrolled_value])]))
  ∧ valid example_config ExampleJson.scrolled_value = true
  ∧ lambda_handler example_config example_reading scrolled_batch ∅
    = (_error 500 "Internal error: TypeError", ∅)
  ∧ decode_body stamped_batch
    = Ok (Loaded (JObj [("events", JArr [ExampleJson.stamped_value])]))
  ∧ valid example_config ExampleJson.stamped_value = true
  ∧ (lambda_handler example_config example_reading stamped_batch ∅).1
    = _response 200 (JObj [("status", JStr "ok"); ("written", JInt 0);
                           ("errors", JInt 1)])
  ∧ body (lambda_handler example_config example_reading stamped_batch ∅).1
    ≠ JObj [("status", JStr "ok"); ("written", JInt 1); ("errors", JInt 0)].
Proof. repeat split; try (vm_compute; reflexivity); vm_compute; discriminate. Qed.

(** The enrichment at a page view without timestamp. *)
Lemma enrichment_witness :
  ∃ it ms,
    accept example_config
      (example_reading 0, ExampleJson.object_value ExampleJson.pageview) = Some it
    ∧ ExampleJson.object_value ExampleJson.pageview = JObj ms
    ∧ it !! "timestamp" = Some (timestamp_of (example_reading 0) ms)
    ∧ it !! "GSI1PK" = Some (JStr "DOMAIN#example.com#DATE#2024-01-15").
Proof.
  assert (is_Some (accept example_config
                     (example_reading 0, ExampleJson.object_value ExampleJson.pageview)))
    as [it Hit] by (apply valid_event_accepted; [reflexivity|by left]).
  destruct (enrichment _ _ _ _ Hit)
    as (ms & domain & date & Hms & Hdom & Hts & _ & _ & _ & Hpk & Hdate).
  exists it, ms. split; [exact Hit|]. split; [exact Hms|]. split; [exact Hts|].
  injection Hms as <-. injection Hdom as <-. rewrite Hpk.
  vm_compute in Hdate. by rewrite Hdate.
Defined.

(** C8.  The code at the failing input, a valid page view whose timestamp
    is the text [not-a-timestamp]: the event is accepted, its item keeps
    the text as timestamp, and the date in [GSI1PK] is [not-a-time], the
    first ten characters of the text, where the claim has today's date,
    [2024-01-15] on the example clock. *)
Lemma malformed_timestamp_is_sliced :
  let written_item := accept example_config (example_reading 0, malformed_event) in
  valid example_config malformed_event = true
  ∧ written_item ≫= (λ it, it !! "timestamp") = Some (JStr "not-a-timestamp")
  ∧ written_item ≫= (λ it, it !! "GSI1PK")
    = Some (JStr "DOMAIN#example.com#DATE#not-a-time")
  ∧ utcnow_date (example_reading 0) = "2024-01-15"
  ∧ written_item ≫= (λ it, it !! "GSI1PK")
    ≠ Some (JStr "DOMAIN#example.com#DATE#2024-01-15").
Proof.
  cbv zeta. repeat split; try (vm_compute; reflexivity). vm_compute. discriminate.
Qed.

(** C9 at a POST to [/t] whose body is an opening brace. *)
Lemma http_contract_witness :
  statusCode (lambda_handler example_config example_reading (post "/t" "{") ∅).1 = 400
  ∧ body (lambda_handler example_config example_reading (post "/t" "{") ∅).1
    = JObj [("error", JStr "Invalid JSON body")].
Proof.
  destruct (http_contract example_config example_reading (post "/t" "{") ∅)
    as (_ & _ & _ & Hjson & _).
  apply Hjson; reflexivity.
Defined.

(** C9 as stated fails: the empty text is not valid JSON, yet a POST with
    an empty body to an unknown path is answered with 404, not 400. *)
Lemma empty_body_is_routed :
  json_loads "" = JSONDecodeError
  ∧ statusCode (lambda_handler example_config example_reading (post "/zzz" "") ∅).1 = 404
  ∧ statusCode (lambda_handler example_config example_reading (post "/zzz" "") ∅).1 ≠ 400.
Proof. repeat split; try (vm_compute; reflexivity). vm_compute. discriminate. Qed.

End JourneyTrackerProofs.

(** * Further behaviour of the log parser *)

Module LogParserBehaviour.
Import LogParser PyStrFacts LogParserProofs.

(** ** More facts about the string primitives *)

Section strings.

Lemma str_length_app (a b : string) :
  String.length (a +:+ b) = (String.length a + String.length b)%nat.
Proof. induction a as [|c a IH]; simpl; [done|by rewrite IH]. Qed.

Lemma str_take_drop (n : nat) (s : string) : PyStr.take n s +:+ PyStr.drop n s = s.
Proof.
  revert s. induction n as [|n IH]; intros [|c s]; try done.
  cbn [PyStr.take PyStr.drop]. rewrite app_cons. f_equal. apply IH.
Qed.

Lemma str_length_drop (n : nat) (s : string) :
  String.length (PyStr.drop n s) = (String.length s - n)%nat.
Proof.
  revert s. induction n as [|n IH]; intros [|c s]; simpl; try done.
Qed.

Lemma startswith_iff (p s : string) :
  PyStr.startswith p s = true ↔ ∃ r, s = p +:+ r.
Proof.
  revert s. induction p as [|a p IH]; intros s; simpl.
  - split; [by exists s|done].
  - destruct s as [|b s].
    + split; [done|]. by intros [r ?].
    + case_decide as Hab.
      * subst b. rewrite IH. split; intros [r Hr]; exists r.
        -- by rewrite app_cons, Hr.
        -- rewrite app_cons in Hr. by injection Hr.
      * split; [done|]. intros [r Hr]. rewrite app_cons in Hr. congruence.
Qed.

Lemma endswith_iff (p s : string) :
  PyStr.endswith p s = true ↔ ∃ r, s = r +:+ p.
Proof.
  unfold PyStr.endswith. rewrite andb_true_iff, !bool_decide_eq_true. split.
  - intros [Hd _]. exists (PyStr.take (String.length s - String.length p) s).
    pose proof (str_take_drop (String.length s - String.length p) s) as Ht.
    by rewrite Hd in Ht.
  - intros [r ->]. rewrite str_length_app. split; [|lia].
    replace (String.length r + String.length p - String.length p)%nat
      with (String.length r) by lia.
    apply drop_app_length.
Qed.

Lemma split_length (sep : ascii) (s : string) :
  length (PyStr.split sep s) = S (PyStr.count_char sep s).
Proof.
  induction s as [|c s IH]; simpl; [done|].
  case_decide; simpl; [by rewrite IH|].
  destruct (PyStr.split sep s); simpl in *; lia.
Qed.

Lemma count_char_lstrip (c : ascii) (s : string) :
  (PyStr.count_char c (PyStr.lstrip s) <= PyStr.count_char c s)%nat.
Proof.
  induction s as [|a s IH]; simpl; [done|].
  destruct (PyStr.isspace a); simpl; lia.
Qed.

Lemma count_char_rstrip (c : ascii) (s : string) :
  (PyStr.count_char c (PyStr.rstrip s) <= PyStr.count_char c s)%nat.
Proof.
  induction s as [|a s IH]; simpl; [done|].
  destruct (PyStr.rstrip s) as [|b r] eqn:Hr.
  - destruct (PyStr.isspace a); simpl in *; lia.
  - simpl in *. lia.
Qed.

Lemma count_char_strip (c : ascii) (s : string) :
  (PyStr.count_char c (PyStr.strip s) <= PyStr.count_char c s)%nat.
Proof.
  unfold PyStr.strip.
  etrans; [apply count_char_rstrip|apply count_char_lstrip].
Qed.

Lemma join_cons (sep : ascii) (f g : string) (fs : list string) :
  PyStr.join (String sep "") (f :: g :: fs)
  = f +:+ String sep (PyStr.join (String sep "") (g :: fs)).
Proof. reflexivity. Qed.

Lemma split_join (sep : ascii) (fs : list string) :
  fs ≠ [] → Forall (λ f, PyStr.has_char sep f = false) fs →
  PyStr.split sep (PyStr.join (String sep "") fs) = fs.
Proof.
  intros Hne Hfs. induction Hfs as [|f fs Hf Hfs IH]; [done|].
  destruct fs as [|g fs].
  - simpl. by apply split_no_sep.
  - rewrite join_cons, split_app_sep by done. f_equal. by apply IH.
Qed.

(** The first segment of a split holds no separator and is followed, in
    the text, by nothing or by a separator. *)
Lemma split_first (sep : ascii) (s : string) :
  ∃ d rest, PyStr.split sep s = d :: rest
    ∧ PyStr.has_char sep d = false
    ∧ (s = d ∧ rest = [] ∨ ∃ r, s = d +:+ String sep r ∧ rest = PyStr.split sep r).
Proof.
  induction s as [|c s (d & rest & Hs & Hd & Hshape)]; simpl.
  - exists "", []. split_and!; auto.
  - case_decide as Hc.
    + subst c. exists "", (PyStr.split sep s). split_and!; [done..|].
      right. by exists s.
    + rewrite Hs. exists (String c d), rest. split_and!; [done| |].
      * simpl. rewrite Hd. by rewrite bool_decide_eq_false_2.
      * destruct Hshape as [[-> ->]|(r & -> & ->)]; [by left|].
        right. by exists r.
Qed.

End strings.

(** ** The parser, the key and the path filter *)

Section lines.
Context `{UrlLib}.

(** X1.  A line that starts with ["#"], or that holds fewer than 19 tab
    characters, yields no event: it cannot have 20 fields, whatever
    [strip] removes.  So the empty line and the header lines of a log file
    are dropped. *)
Theorem comment_or_short_line_is_dropped (line : string) :
  PyStr.startswith "#" line = true ∨ (PyStr.count_char PyStr.tab line < 19)%nat →
  _parse_cloudfront_log_line line = None.
Proof.
  intros Hline. rewrite parse_eq.
  destruct (PyStr.startswith "#" line) eqn:Hc; [done|].
  destruct Hline as [|Hshort]; [done|].
  assert (length (fields_of line) < 20)%nat as Hlen.
  { unfold fields_of. rewrite split_length.
    pose proof (count_char_strip PyStr.tab line). lia. }
  apply Nat.ltb_lt in Hlen. by rewrite Hlen.
Qed.

(** X2.  Reading back a line: when at least 20 fields without a tab are
    joined by tabs into a line that does not start with ["#"] and has no
    white space to strip at either end, the parser returns the event made
    of exactly these fields: [domain] is field 6, [date] field 0,
    [timestamp] is [date], ["T"], field 1 and ["Z"], and so on. *)
Theorem parse_of_joined_fields (fs : list string) :
  (20 <= length fs)%nat →
  Forall (λ f, PyStr.has_char PyStr.tab f = false) fs →
  PyStr.strip (line_of fs) = line_of fs →
  PyStr.startswith "#" (line_of fs) = false →
  _parse_cloudfront_log_line (line_of fs) = Some (event_of_fields fs).
Proof.
  intros Hlen Hfs Hstrip Hc.
  assert (fields_of (line_of fs) = fs) as Hfields.
  { unfold fields_of. rewrite Hstrip. apply split_join; [|done].
    intros ->. simpl in Hlen. lia. }
  rewrite parse_eq, Hc, Hfields.
  apply Nat.ltb_ge in Hlen. by rewrite Hlen.
Qed.

(** X3.  [_extract_domain_from_s3_key] never returns [None]: for every
    key it returns the text before the first ["/"], which is the whole key
    when the key holds no ["/"] and the empty string when the key starts
    with one. *)
Theorem extract_domain_is_first_segment (key : string) :
  ∃ d, _extract_domain_from_s3_key key = Some d
    ∧ PyStr.has_char "/" d = false
    ∧ (key = d ∨ ∃ rest, key = d +:+ "/" +:+ rest).
Proof.
  destruct (split_first "/" key) as (d & rest & Hs & Hd & Hshape).
  exists d. unfold _extract_domain_from_s3_key. rewrite Hs.
  split_and!; [done..|].
  destruct Hshape as [[-> _]|(r & -> & _)]; [by left|].
  right. by exists r.
Qed.

(** X4.  A path is excluded exactly when its lowercased form ends with one
    of the configured extensions, taken as they are, or starts with the
    lowercased form of one of the configured prefixes. *)
Theorem should_exclude_path_iff (cfg : config) (p : string) :
  _should_exclude_path cfg p = true ↔
    (∃ ext front, ext ∈ EXCLUDED_EXTENSIONS cfg ∧ lower p = front +:+ ext)
    ∨ (∃ prefix rest, prefix ∈ EXCLUDED_PATHS cfg ∧ lower p = lower prefix +:+ rest).
Proof.
  unfold _should_exclude_path.
  destruct (existsb _ (EXCLUDED_EXTENSIONS cfg)) eqn:He.
  - split; [intros _|done]. left.
    apply existsb_exists in He as (ext & Hin & (front & ?)%endswith_iff).
    exists ext, front. by rewrite list_elem_of_In.
  - destruct (existsb _ (EXCLUDED_PATHS cfg)) eqn:Hp.
    + split; [intros _|done]. right.
      apply existsb_exists in Hp as (prefix & Hin & (rest & ?)%startswith_iff).
      exists prefix, rest. by rewrite list_elem_of_In.
    + split; [done|]. intros [(ext & front & Hin & Heq)|(prefix & rest & Hin & Heq)].
      * assert (existsb (λ ext, PyStr.endswith ext (lower p)) (EXCLUDED_EXTENSIONS cfg) = true)
          as Ht; [|congruence].
        apply existsb_exists. exists ext. rewrite <- list_elem_of_In.
        split; [done|]. apply endswith_iff. by exists front.
      * assert (existsb (λ prefix, PyStr.startswith (lower prefix) (lower p))
                  (EXCLUDED_PATHS cfg) = true) as Ht; [|congruence].
        apply existsb_exists. exists prefix. rewrite <- list_elem_of_In.
        split; [done|]. apply startswith_iff. by exists rest.
Qed.

Lemma filter_blank (l : list string) :
  Forall (λ e, PyStr.strip e = "") l →
  filter (λ e, PyStr.truthy (PyStr.strip e) = true) l = [].
Proof.
  induction 1 as [|e l He _ IH]; [done|].
  rewrite filter_cons_False; [done|]. by rewrite He.
Qed.

(** X5.  Blank entries of the two environment variables are ignored: when
    every comma-separated entry of both is empty or white space, as it is
    when the variables are unset or empty, no path is excluded. *)
Theorem blank_exclusions_exclude_nothing (extensions paths : option string) (p : string) :
  Forall (λ e, PyStr.strip e = "") (PyStr.split "," (default "" extensions)) →
  Forall (λ e, PyStr.strip e = "") (PyStr.split "," (default "" paths)) →
  _should_exclude_path (config_of_env extensions paths) p = false.
Proof.
  intros He Hp. unfold _should_exclude_path, config_of_env; simpl.
  unfold excluded_extensions_of_env, excluded_paths_of_env.
  by rewrite !filter_blank.
Qed.

(** X6.  The events kept from one object are, in order, those of the lines
    that parse and are not excluded; each carries the domain of the S3 key
    in place of the host field and a path that is not excluded, and the
    running total grows by their number. *)
Theorem collected_items_are_kept_lines (cfg : config) (actual_domain content : string)
    (total : nat) :
  let items := omap (kept_event cfg actual_domain) (PyStr.split PyStr.newline content) in
  (collect_items cfg actual_domain content total).1.1 = items
  ∧ (collect_items cfg actual_domain content total).2 = (total + length items)%nat
  ∧ Forall (λ it, domain it = actual_domain
                  ∧ _should_exclude_path cfg (path it) = false) items.
Proof.
  cbv zeta. destruct (collect_items_kept cfg actual_domain content total) as [H1 H2].
  split_and!; [done..|].
  apply Forall_forall. intros it Hit.
  apply list_elem_of_omap in Hit as (line & _ & Hk).
  unfold kept_event in Hk.
  destruct (_parse_cloudfront_log_line line) as [parsed|]; simpl in Hk; [|done].
  destruct (_should_exclude_path cfg (path parsed)) eqn:Hex; simplify_eq.
  by split.
Qed.

End lines.

Lemma comment_or_short_line_is_dropped_witness :
  _parse_cloudfront_log_line "#Fields: date time" = None
  ∧ _parse_cloudfront_log_line "" = None.
Proof.
  split; apply comment_or_short_line_is_dropped.
  - left. reflexivity.
  - right. simpl. lia.
Defined.

Lemma parse_of_joined_fields_witness :
  _parse_cloudfront_log_line example_line = Some (event_of_fields example_fields).
Proof.
  apply parse_of_joined_fields.
  - simpl. lia.
  - repeat constructor.
  - reflexivity.
  - reflexivity.
Defined.

Lemma blank_exclusions_exclude_nothing_witness :
  _should_exclude_path (config_of_env None (Some " , ")) "/index.html" = false.
Proof.
  apply blank_exclusions_exclude_nothing; repeat constructor.
Defined.

(** ** The event writer *)

Section event_rows.
Context `{UrlLib}.

Lemma write_batch_snoc (clock : nat → Z) (l : list event) (x : event) (st : table * nat) :
  write_batch clock (l ++ [x]) st
  = (<[event_key x := build_db_item x (ttl_of (clock (write_batch clock l st).2))]>
       (write_batch clock l st).1,
     S (write_batch clock l st).2).
Proof.
  rewrite write_batch_app. destruct (write_batch clock l st) as [t1 n1].
  simpl. by rewrite put_build_db_item.
Qed.

Lemma write_batch_pair (clock : nat → Z) (l : list event) (t : table) :
  write_batch clock l (t, 0%nat) = ((write_batch clock l (t, 0%nat)).1, length l).
Proof.
  pose proof (write_batch_count clock l t 0) as Hn.
  destruct (write_batch clock l (t, 0%nat)). simpl in *. by subst.
Qed.


(** X8.  Reading back what was written: when the items of one call have
    pairwise distinct keys, the row stored under the key of the item at
    position [i] is the item built for it, with the [ttl] of the clock
    reading taken at its turn. *)
Theorem written_item_is_stored (clock : nat → Z) (items : list event) (t : table)
    (i : nat) (item : event) :
  NoDup (event_key <$> items) →
  items !! i = Some item →
  (_batch_write_to_dynamodb clock items t).1 !! event_key item
  = Some (build_db_item item (ttl_of (clock i))).
Proof.
  rewrite batch_write_eq. revert i item.
  induction items as [|x items IH] using rev_ind; intros i item Hnd Hi; [done|].
  rewrite fmap_app in Hnd. apply NoDup_app in Hnd as (Hnd & Hx & _).
  rewrite write_batch_snoc, (write_batch_pair clock items t). cbn [fst snd].
  destruct (decide (i < length items)%nat) as [Hlt|Hge].
  - rewrite lookup_app_l in Hi by done.
    rewrite lookup_insert_ne; [by apply IH|].
    intros Heq. apply (Hx (event_key item)); [|rewrite <- Heq; set_solver].
    apply list_elem_of_fmap. exists item. split; [done|].
    by eapply list_elem_of_lookup_2.
  - rewrite lookup_app_r in Hi by lia.
    apply list_lookup_singleton_Some in Hi as [Hi <-].
    replace i with (length items) by lia.
    by rewrite lookup_insert_eq.
Qed.



End event_rows.

Lemma written_item_is_stored_witness :
  (_batch_write_to_dynamodb (λ n, Z.of_nat n) [example_event] ∅).1
    !! event_key example_event
  = Some (build_db_item example_event (ttl_of 0)).
Proof.
  apply (written_item_is_stored (λ n, Z.of_nat n) [example_event] ∅ 0 example_event).
  - apply NoDup_singleton.
  - reflexivity.
Defined.


(** ** The rollup writer *)

Section rollup_rows.

Lemma upd_key_eta (u : upd) : ((upd_key u).1, (upd_key u).2) = upd_key u.
Proof. by destruct u. Qed.

Lemma run_upd_lookup (ttl : Z) (t : table) (u : upd) (k : string * string) :
  run_upd ttl t u !! k
  = if decide (upd_key u = k) then row_step ttl u (t !! k) else t !! k.
Proof.
  unfold run_upd, try_update_item. rewrite update_item_eq, upd_key_eta.
  unfold row_step. case_decide as Hk.
  - subst k. destruct (run_adds _ _); simpl; [by rewrite lookup_insert_eq|done].
  - destruct (run_adds _ _); simpl; [by rewrite lookup_insert_ne|done].
Qed.

Lemma foldl_run_upd_lookup (ttl : Z) (us : list upd) (t : table) (k : string * string) :
  foldl (run_upd ttl) t us !! k
  = foldl (λ r u, row_step ttl u r) (t !! k) (filter (λ u, upd_key u = k) us).
Proof.
  revert t. induction us as [|u us IH]; intros t; [done|].
  cbn [foldl]. rewrite IH, run_upd_lookup, filter_cons.
  by case_decide.
Qed.

End rollup_rows.

Section rollup_keys.

Lemma str_app_inv_head (p a b : string) : p +:+ a = p +:+ b → a = b.
Proof.
  induction p as [|c p IH]; [done|].
  rewrite !app_cons. intros [=]. auto.
Qed.

Lemma split_max_nonempty (sep : ascii) (s : string) (n : nat) :
  PyStr.split_max sep s n ≠ [].
Proof.
  pose proof (split_max_length sep s n) as Hlen.
  by destruct (PyStr.split_max sep s n).
Qed.

Lemma join_head (sep : ascii) (c : ascii) (w : string) (ws : list string) :
  PyStr.join (String sep "") (String c w :: ws)
  = String c (PyStr.join (String sep "") (w :: ws)).
Proof. by destruct ws. Qed.

(** [sep.join(s.split(sep, n)) == s] *)
Lemma split_max_join (sep : ascii) (s : string) (n : nat) :
  PyStr.join (String sep "") (PyStr.split_max sep s n) = s.
Proof.
  revert n. induction s as [|c s IH]; intros n; [done|].
  destruct n as [|m]; [done|]. cbn [PyStr.split_max].
  case_decide as Hc.
  - subst c. specialize (IH m).
    pose proof (split_max_nonempty sep s m) as Hne.
    destruct (PyStr.split_max sep s m) as [|w ws]; [done|].
    rewrite join_cons. by rewrite IH.
  - specialize (IH (S m)).
    pose proof (split_max_nonempty sep s (S m)) as Hne.
    destruct (PyStr.split_max sep s (S m)) as [|w ws]; [done|].
    rewrite join_head. by rewrite IH.
Qed.

Lemma split_max_app_sep (sep : ascii) (a b : string) (n : nat) :
  PyStr.has_char sep a = false →
  PyStr.split_max sep (a +:+ String sep b) (S n) = a :: PyStr.split_max sep b n.
Proof.
  induction a as [|c a IH]; intros Ha.
  - rewrite app_nil_l. cbn [PyStr.split_max]. by rewrite decide_True.
  - simpl in Ha. apply orb_false_iff in Ha as [Hc Ha].
    apply bool_decide_eq_false in Hc.
    rewrite app_cons. cbn [PyStr.split_max].
    rewrite decide_False by done. by rewrite IH.
Qed.

Lemma split_max_0 (sep : ascii) (s : string) : PyStr.split_max sep s 0 = [s].
Proof. by destruct s. Qed.

Lemma count_char_tail (a b : string) :
  PyStr.has_char PyStr.hash a = false →
  PyStr.count_char PyStr.hash (a +:+ "#" +:+ b) = S (PyStr.count_char PyStr.hash b).
Proof.
  intros Ha. rewrite count_char_app.
  assert (PyStr.count_char PyStr.hash a = 0%nat) as ->.
  { induction a as [|c a IH]; [done|]. simpl in *.
    apply orb_false_iff in Ha as [Hc Ha]. apply bool_decide_eq_false in Hc.
    rewrite decide_False by done. by rewrite IH. }
  reflexivity.
Qed.

(** The update of a daily entry under the key [d#dt]. *)
Lemma daily_upd_hit (d dt : string) (v : Z * gset string) :
  PyStr.has_char PyStr.hash d = false →
  daily_upd (d +:+ "#" +:+ dt, v) = UDaily ("ROLLUP#" +:+ d) ("STATS#" +:+ dt) v.1 v.2.
Proof.
  intros Hd. unfold daily_upd. cbn [fst snd].
  change (d +:+ "#" +:+ dt) with (d +:+ String PyStr.hash dt).
  by rewrite split_max_app_sep, split_max_0.
Qed.

Lemma daily_upd_inv (k d dt : string) (v : Z * gset string) :
  upd_key (daily_upd (k, v)) = ("ROLLUP#" +:+ d, "STATS#" +:+ dt) →
  k = d +:+ "#" +:+ dt.
Proof.
  unfold daily_upd. cbn [fst snd].
  pose proof (split_max_join PyStr.hash k 1) as Hj.
  destruct (PyStr.split_max PyStr.hash k 1) as [|a [|b [|c l]]];
    cbn [upd_key]; try by intros [=].
  intros Heq. injection Heq as Hpk Hsk.
  rewrite !app_nil_l in Hpk, Hsk. by subst.
Qed.

(** The update of a counting entry under the key [d#tail]. *)
Lemma count_upd_hit (fam d tail : string) (v : Z) :
  PyStr.has_char PyStr.hash d = false →
  (2 <= PyStr.count_char PyStr.hash (d +:+ "#" +:+ tail))%nat →
  count_upd fam (d +:+ "#" +:+ tail, v) = UCount ("ROLLUP#" +:+ d) (fam +:+ tail) v.
Proof.
  intros Hd Hn. rewrite count_char_tail in Hn by done.
  unfold count_upd. cbn [fst snd].
  change (d +:+ "#" +:+ tail) with (d +:+ String PyStr.hash tail).
  rewrite split_max_app_sep by done.
  pose proof (split_max_join PyStr.hash tail 1) as Hj.
  pose proof (split_max_length PyStr.hash tail 1) as Hlen.
  destruct (PyStr.split_max PyStr.hash tail 1) as [|b [|c [|e l]]];
    cbn [length] in Hlen; try lia.
  simpl in Hj. by rewrite <- Hj.
Qed.

Lemma count_upd_inv (fam k d tail : string) (v : Z) :
  upd_key (count_upd fam (k, v)) = ("ROLLUP#" +:+ d, fam +:+ tail) →
  k = d +:+ "#" +:+ tail.
Proof.
  unfold count_upd. cbn [fst snd].
  pose proof (split_max_join PyStr.hash k 2) as Hj.
  destruct (PyStr.split_max PyStr.hash k 2) as [|a [|b [|c [|e l]]]];
    cbn [upd_key]; try by intros [=].
  intros Heq. injection Heq as Hpk Hsk.
  rewrite !app_nil_l in Hpk. apply str_app_inv_head in Hsk.
  by subst.
Qed.

End rollup_keys.

Section accumulate.

Lemma dict_update_keys {V} (dflt : V) (f : V → V) (k : string)
    (d : list (string * V)) (j : string) :
  j ∈ (dict_update dflt f k d).*1 ↔ j = k ∨ j ∈ d.*1.
Proof.
  induction d as [|[k' v] d IH]; simpl.
  - set_solver.
  - case_decide; csimpl; set_solver.
Qed.

Lemma dict_update_NoDup {V} (dflt : V) (f : V → V) (k : string)
    (d : list (string * V)) :
  NoDup d.*1 → NoDup (dict_update dflt f k d).*1.
Proof.
  induction d as [|[k' v] d IH]; simpl; intros Hnd.
  - apply NoDup_singleton.
  - csimpl in Hnd. apply NoDup_cons in Hnd as [Hk' Hnd].
    case_decide; csimpl; apply NoDup_cons; [done|].
    split; [|by auto]. rewrite dict_update_keys. naive_solver.
Qed.

Lemma dict_get_None {V} (k : string) (d : list (string * V)) :
  k ∉ d.*1 → dict_get k d = None.
Proof.
  induction d as [|[k' v] d IH]; simpl; [done|].
  csimpl. intros Hk. rewrite decide_False by set_solver. apply IH. set_solver.
Qed.

Lemma dict_get_elem_of {V} (k : string) (v : V) (d : list (string * V)) :
  dict_get k d = Some v → (k, v) ∈ d.
Proof.
  induction d as [|[k' v'] d IH]; simpl; [done|].
  case_decide; intros; simplify_eq; set_solver.
Qed.

Lemma filter_dict_miss {V} (f : string * V → upd) (key : string * string)
    (k : string) (d : list (string * V)) :
  (∀ k' v', upd_key (f (k', v')) = key → k' = k) →
  k ∉ d.*1 →
  filter (λ u, upd_key u = key) (f <$> d) = [].
Proof.
  intros Hinj. induction d as [|[k' v'] d IH]; [done|].
  csimpl. intros Hk. rewrite filter_cons_False; [apply IH; set_solver|].
  intros Heq. apply Hinj in Heq. set_solver.
Qed.

(** Among the updates of one accumulator, the one that addresses a given
    row is that of the entry whose key names the row. *)
Lemma filter_dict {V} (f : string * V → upd) (key : string * string)
    (k : string) (d : list (string * V)) :
  (∀ k' v', upd_key (f (k', v')) = key → k' = k) →
  (∀ v, (k, v) ∈ d → upd_key (f (k, v)) = key) →
  NoDup d.*1 →
  filter (λ u, upd_key u = key) (f <$> d)
  = match dict_get k d with
    | Some v => [f (k, v)]
    | None => []
    end.
Proof.
  intros Hinj. induction d as [|[k' v'] d IH]; [done|].
  csimpl. intros Hhit [Hk' Hnd]%NoDup_cons. case_decide as Hk.
  - subst k'. rewrite filter_cons_True by (apply Hhit; set_solver).
    f_equal. by apply filter_dict_miss with k.
  - rewrite filter_cons_False; [apply IH; [|done]|].
    + intros v Hv. apply Hhit. set_solver.
    + intros Heq. apply Hinj in Heq. done.
Qed.

Lemma family_counts_aggregate (f : family) (acc : accumulators) (it : event) :
  family_counts f (aggregate acc it)
  = match family_key f it with
    | Some k => dict_update 0 (Z.add 1) k (family_counts f acc)
    | None => family_counts f acc
    end.
Proof.
  destruct f; try reflexivity.
  unfold family_key, ref_key, aggregate. cbn [family_counts referrer_counts].
  destruct (referrer_domain it) as [rd|]; [|done]. by destruct (PyStr.truthy rd).
Qed.

Lemma family_counts_NoDup (f : family) (items : list event) (acc : accumulators) :
  NoDup (family_counts f acc).*1 →
  NoDup (family_counts f (foldl aggregate acc items)).*1.
Proof.
  revert acc. induction items as [|it items IH]; intros acc Hnd; [done|].
  cbn [foldl]. apply IH. rewrite family_counts_aggregate.
  destruct (family_key f it); [by apply dict_update_NoDup|done].
Qed.

(** After the aggregation loop, the count under a key is the number of
    events with that key. *)
Lemma family_counts_fold (f : family) (items : list event) (acc : accumulators)
    (k : string) :
  dict_get k (family_counts f (foldl aggregate acc items))
  = match filter (λ it, family_key f it = Some k) items with
    | [] => dict_get k (family_counts f acc)
    | hits =>
        Some (default 0 (dict_get k (family_counts f acc)) + Z.of_nat (length hits))
    end.
Proof.
  revert acc. induction items as [|it items IH]; intros acc; [done|].
  cbn [foldl]. rewrite IH, family_counts_aggregate, filter_cons.
  case_decide as Hit.
  - rewrite Hit, dict_get_update_eq.
    destruct (filter _ items) as [|h hits]; cbn [default length]; unfold id;
      f_equal; lia.
  - destruct (family_key f it) as [k'|]; [|done].
    rewrite dict_get_update_ne by congruence. done.
Qed.

Lemma client_ips_cons (it : event) (items : list event) :
  client_ips (it :: items)
  = (if PyStr.truthy (client_ip it) then {[client_ip it]} else ∅) ∪ client_ips items.
Proof.
  unfold client_ips. csimpl. rewrite filter_cons.
  destruct (PyStr.truthy (client_ip it)); simpl; [done|set_solver].
Qed.

Lemma daily_stats_aggregate (acc : accumulators) (it : event) (k : string) :
  dict_get k (daily_stats (aggregate acc it))
  = if decide (daily_key it = k)
    then Some ((default (0, ∅) (dict_get k (daily_stats acc))).1 + 1,
               (if PyStr.truthy (client_ip it) then {[client_ip it]} else ∅)
               ∪ (default (0, ∅) (dict_get k (daily_stats acc))).2)
    else dict_get k (daily_stats acc).
Proof.
  unfold aggregate, daily_key. cbn [daily_stats].
  destruct (PyStr.truthy (client_ip it)); case_decide as Hk.
  - subst k. rewrite !dict_get_update_eq. cbn [default fst snd]. done.
  - by rewrite !dict_get_update_ne by done.
  - subst k. rewrite !dict_get_update_eq. cbn [default fst snd].
    do 2 f_equal. set_solver.
  - by rewrite !dict_get_update_ne by done.
Qed.

Lemma daily_stats_NoDup (items : list event) (acc : accumulators) :
  NoDup (daily_stats acc).*1 → NoDup (daily_stats (foldl aggregate acc items)).*1.
Proof.
  revert acc. induction items as [|it items IH]; intros acc Hnd; [done|].
  cbn [foldl]. apply IH. unfold aggregate. cbn [daily_stats].
  destruct (PyStr.truthy (client_ip it)); repeat apply dict_update_NoDup; done.
Qed.

(** After the aggregation loop, the entry of a daily key holds the number
    of events with that key and their non-empty client addresses. *)
Lemma daily_stats_fold (items : list event) (acc : accumulators) (k : string) :
  dict_get k (daily_stats (foldl aggregate acc items))
  = match filter (λ it, daily_key it = k) items with
    | [] => dict_get k (daily_stats acc)
    | hits =>
        Some ((default (0, ∅) (dict_get k (daily_stats acc))).1 + Z.of_nat (length hits),
              client_ips hits ∪ (default (0, ∅) (dict_get k (daily_stats acc))).2)
    end.
Proof.
  revert acc. induction items as [|it items IH]; intros acc; [done|].
  cbn [foldl]. rewrite IH, daily_stats_aggregate, filter_cons.
  case_decide as Hit; [|done].
  destruct (filter _ items) as [|h hits].
  - cbn [default fst snd length]. rewrite client_ips_cons.
    assert (client_ips [] = ∅) as -> by done.
    do 2 f_equal; first [lia|set_solver].
  - cbn [default fst snd length]. unfold id. cbn [fst snd].
    rewrite (client_ips_cons it (h :: hits)).
    do 2 f_equal; first [lia|set_solver].
Qed.

End accumulate.

Section rollup_counts.

Lemma key_row_lookup (k : string * string) (name : string) :
  name ≠ "PK" → name ≠ "SK" → key_row k !! name = None.
Proof.
  intros. unfold key_row. by rewrite !lookup_insert_ne, lookup_empty by done.
Qed.

Lemma start_row_lookup (ttl : Z) (k : string * string) (r : option row) (name : string) :
  name ≠ "PK" → name ≠ "SK" → name ≠ "ttl" →
  <["ttl" := ANum ttl]> (default (key_row k) r) !! name = r ≫= (.!! name).
Proof.
  intros. rewrite lookup_insert_ne by done.
  destruct r as [r|]; simpl; [done|]. by apply key_row_lookup.
Qed.

(** What a counting update does to its row. *)
Lemma row_step_count (ttl : Z) (pk sk : string) (n n0 : Z) (r : option row) :
  num_attr "count" r = Some n0 →
  ∃ r', row_step ttl (UCount pk sk n) r = Some r'
    ∧ r' !! "count" = Some (ANum (n0 + n))
    ∧ r' !! "ttl" = Some (ANum ttl).
Proof.
  intros Hn. unfold row_step, run_adds. cbn [upd_adds upd_key foldl mbind option_bind].
  unfold apply_add. rewrite start_row_lookup by done.
  unfold num_attr in Hn.
  destruct (r ≫= (.!! "count")) as [[s|m|ss]|]; simplify_eq;
    eexists; (split; [done|]);
    rewrite lookup_insert_eq, lookup_insert_ne, lookup_insert_eq by done; done.
Qed.

(** What a daily update does to its row. *)
Lemma row_step_daily (ttl : Z) (pk sk : string) (n n0 : Z) (ips s0 : gset string)
    (r : option row) :
  num_attr "requests" r = Some n0 →
  set_attr "unique_ips" r = Some s0 →
  ∃ r', row_step ttl (UDaily pk sk n ips) r = Some r'
    ∧ r' !! "requests" = Some (ANum (n0 + n))
    ∧ set_attr "unique_ips" (Some r') = Some (s0 ∪ ips)
    ∧ r' !! "ttl" = Some (ANum ttl).
Proof.
  intros Hn Hs. unfold row_step. cbn [upd_adds upd_key].
  set (r0 := <["ttl" := ANum ttl]> (default (key_row (pk, sk)) r)).
  assert (r0 !! "requests" = r ≫= (.!! "requests")) as Hreq
    by (by apply start_row_lookup).
  assert (r0 !! "unique_ips" = r ≫= (.!! "unique_ips")) as Hips
    by (by apply start_row_lookup).
  assert (r0 !! "ttl" = Some (ANum ttl)) as Httl by apply lookup_insert_eq.
  unfold num_attr in Hn. unfold set_attr in Hs.
  rewrite <- Hreq in Hn. rewrite <- Hips in Hs. clearbody r0.
  assert (∃ r1, apply_add (AddNum "requests" n) r0 = Some r1
            ∧ r1 !! "requests" = Some (ANum (n0 + n))
            ∧ r1 !! "unique_ips" = r0 !! "unique_ips"
            ∧ r1 !! "ttl" = Some (ANum ttl)) as (r1 & Hr1 & Hreq1 & Hips1 & Httl1).
  { unfold apply_add.
    destruct (r0 !! "requests") as [[s|m|ss]|]; simplify_eq;
      eexists; (split; [done|]);
      rewrite lookup_insert_eq, !lookup_insert_ne by done; done. }
  rewrite run_adds_cons, Hr1. cbn [mbind option_bind].
  rewrite <- Hips1 in Hs.
  destruct (decide (ips = ∅)) as [->|Hne].
  - exists r1. split; [done|]. split; [done|]. split; [|done].
    unfold set_attr. cbn [mbind option_bind].
    destruct (r1 !! "unique_ips") as [[s|m|ss]|]; simplify_eq; f_equal; set_solver.
  - unfold run_adds. cbn [foldl mbind option_bind]. unfold apply_add.
    destruct (r1 !! "unique_ips") as [[s|m|ss]|] eqn:Hold; simplify_eq;
      eexists; (split; [done|]);
      unfold set_attr; cbn [mbind option_bind];
      rewrite lookup_insert_eq, !lookup_insert_ne by done;
      (split; [done|]); (split; [|done]); f_equal; set_solver.
Qed.

Lemma foldl_filter_none (ttl : Z) (us : list upd) (t : table) (k : string * string) :
  filter (λ u, upd_key u = k) us = [] →
  foldl (run_upd ttl) t us !! k = t !! k.
Proof. intros Hf. by rewrite foldl_run_upd_lookup, Hf. Qed.

Lemma filter_daily_other (fam d tail : string) (l : list (string * (Z * gset string))) :
  (∀ x y, "STATS#" +:+ x ≠ fam +:+ y) →
  filter (λ u, upd_key u = ("ROLLUP#" +:+ d, fam +:+ tail)) (daily_upd <$> l) = [].
Proof.
  intros Hfam. induction l as [|e l IH]; [done|].
  csimpl. rewrite filter_cons_False; [done|].
  unfold daily_upd. destruct (PyStr.split_max PyStr.hash e.1 1) as [|a [|b [|c l']]];
    cbn [upd_key]; try (by intros [=]).
  intros [= _ Hsk]. by apply Hfam in Hsk.
Qed.

Lemma filter_count_other (fam fam' d tail : string) (l : list (string * Z)) :
  (∀ x y, fam +:+ x ≠ fam' +:+ y) →
  filter (λ u, upd_key u = ("ROLLUP#" +:+ d, fam' +:+ tail)) (count_upd fam <$> l) = [].
Proof.
  intros Hfam. induction l as [|e l IH]; [done|].
  csimpl. rewrite filter_cons_False; [done|].
  unfold count_upd. destruct (PyStr.split_max PyStr.hash e.1 2) as [|a [|b [|c [|x l']]]];
    cbn [upd_key]; try (by intros [=]).
  intros [= _ Hsk]. by apply Hfam in Hsk.
Qed.

Lemma filter_count_same (fam d tail : string) (l : list (string * Z)) :
  PyStr.has_char PyStr.hash d = false →
  keys_ok 2 l → NoDup l.*1 →
  filter (λ u, upd_key u = ("ROLLUP#" +:+ d, fam +:+ tail)) (count_upd fam <$> l)
  = match dict_get (d +:+ "#" +:+ tail) l with
    | Some v => [UCount ("ROLLUP#" +:+ d) (fam +:+ tail) v]
    | None => []
    end.
Proof.
  intros Hd Hok Hnd.
  rewrite (filter_dict (count_upd fam) _ (d +:+ "#" +:+ tail)); [| | |done].
  - destruct (dict_get _ l) as [v|] eqn:Hv; [|done].
    rewrite count_upd_hit; [done..|].
    apply dict_get_elem_of in Hv.
    unfold keys_ok in Hok. rewrite Forall_forall in Hok. by apply Hok in Hv.
  - intros k' v'. apply count_upd_inv.
  - intros v Hv. rewrite count_upd_hit; [done..|].
    unfold keys_ok in Hok. rewrite Forall_forall in Hok. by apply Hok in Hv.
Qed.

Lemma filter_daily_same (d dt : string) (l : list (string * (Z * gset string))) :
  PyStr.has_char PyStr.hash d = false →
  NoDup l.*1 →
  filter (λ u, upd_key u = ("ROLLUP#" +:+ d, "STATS#" +:+ dt)) (daily_upd <$> l)
  = match dict_get (d +:+ "#" +:+ dt) l with
    | Some v => [UDaily ("ROLLUP#" +:+ d) ("STATS#" +:+ dt) v.1 v.2]
    | None => []
    end.
Proof.
  intros Hd Hnd.
  rewrite (filter_dict daily_upd _ (d +:+ "#" +:+ dt)); [| | |done].
  - destruct (dict_get _ l) as [v|]; [|done]. by rewrite daily_upd_hit.
  - intros k' v'. apply daily_upd_inv.
  - intros v _. by rewrite daily_upd_hit.
Qed.

End rollup_counts.

Section rollup_theorems.

Lemma update_rollups_plan (now : Z) (items : list event) (t : table) :
  _update_rollups now items t
  = Some (foldl (run_upd (ttl_of now)) t (plan (foldl aggregate no_accumulators items))).
Proof. rewrite update_rollups_eq. by destruct items. Qed.

Lemma daily_upd_partition (e : string * (Z * gset string)) :
  (1 <= PyStr.count_char PyStr.hash e.1)%nat →
  PyStr.startswith "ROLLUP#" (upd_key (daily_upd e)).1 = true.
Proof.
  intros He. unfold daily_upd.
  pose proof (split_max_length PyStr.hash e.1 1) as Hlen.
  destruct (PyStr.split_max PyStr.hash e.1 1) as [|a [|b [|c l]]];
    cbn [length] in Hlen; try lia.
  apply startswith_iff. by exists a.
Qed.

Lemma count_upd_partition (fam : string) (e : string * Z) :
  (2 <= PyStr.count_char PyStr.hash e.1)%nat →
  PyStr.startswith "ROLLUP#" (upd_key (count_upd fam e)).1 = true.
Proof.
  intros He. unfold count_upd.
  pose proof (split_max_length PyStr.hash e.1 2) as Hlen.
  destruct (PyStr.split_max PyStr.hash e.1 2) as [|a [|b [|c [|x l]]]];
    cbn [length] in Hlen; try lia.
  apply startswith_iff. by exists a.
Qed.

Lemma plan_partition (acc : accumulators) :
  acc_ok acc →
  Forall (λ u, PyStr.startswith "ROLLUP#" (upd_key u).1 = true) (plan acc).
Proof.
  intros (Hd & Hp & Hr & Hh). unfold plan, keys_ok in *.
  rewrite !Forall_app, !Forall_fmap. split_and!.
  - eapply Forall_impl; [exact Hd|]. intros e. apply daily_upd_partition.
  - eapply Forall_impl; [exact Hp|]. intros e. apply count_upd_partition.
  - eapply Forall_impl; [exact Hr|]. intros e. apply count_upd_partition.
  - eapply Forall_impl; [exact Hh|]. intros e. apply count_upd_partition.
Qed.

Lemma filter_none (us : list upd) (k : string * string) :
  Forall (λ u, upd_key u ≠ k) us → filter (λ u, upd_key u = k) us = [].
Proof.
  induction 1 as [|u us Hu _ IH]; [done|]. by rewrite filter_cons_False.
Qed.

(** X10.  The rollup writer always returns, whatever the events hold and
    whatever the store rejects; it removes no row, and it leaves every row
    whose partition key does not start with ["ROLLUP#"] as it was. *)
Theorem rollups_touch_only_rollup_rows (now : Z) (items : list event) (t : table) :
  ∃ t', _update_rollups now items t = Some t'
    ∧ dom t ⊆ dom t'
    ∧ ∀ k, PyStr.startswith "ROLLUP#" k.1 = false → t' !! k = t !! k.
Proof.
  rewrite update_rollups_plan. eexists. split; [done|].
  split; [apply foldl_run_upd_dom|]. intros k Hk.
  apply foldl_filter_none, filter_none.
  eapply Forall_impl;
    [apply plan_partition, aggregate_all_ok, no_accumulators_ok|].
  intros u Hu Heq. cbv beta in Hu. rewrite Heq, Hk in Hu. done.
Qed.

(** X11.  The daily rollup: for a domain [d] without ["#"], one run of the
    rollup writer adds to [requests] of the row [ROLLUP#d / STATS#dt] the
    number of events whose daily key [domain#date] is [d#dt], unites
    [unique_ips] with their non-empty client addresses and stamps [ttl]
    from the clock, provided the row, when it exists, holds a number and a
    string set there; without such an event the row is left as it was. *)
Theorem daily_rollup_counts (now : Z) (items : list event) (t : table)
    (d dt : string) (n0 : Z) (s0 : gset string) :
  PyStr.has_char PyStr.hash d = false →
  let key := ("ROLLUP#" +:+ d, "STATS#" +:+ dt) in
  let hits := filter (λ it, daily_key it = d +:+ "#" +:+ dt) items in
  num_attr "requests" (t !! key) = Some n0 →
  set_attr "unique_ips" (t !! key) = Some s0 →
  ∃ t', _update_rollups now items t = Some t'
    ∧ (hits = [] → t' !! key = t !! key)
    ∧ (hits ≠ [] →
         ∃ r', t' !! key = Some r'
           ∧ r' !! "requests" = Some (ANum (n0 + Z.of_nat (length hits)))
           ∧ set_attr "unique_ips" (Some r') = Some (s0 ∪ client_ips hits)
           ∧ r' !! "ttl" = Some (ANum (ttl_of now))).
Proof.
  intros Hd key hits Hn Hs. rewrite update_rollups_plan. eexists. split; [done|].
  rewrite foldl_run_upd_lookup. unfold plan. rewrite !filter_app.
  subst key.
  rewrite !filter_count_other by (by intros x y [=]).
  rewrite filter_daily_same by (by try apply daily_stats_NoDup, NoDup_nil).
  rewrite daily_stats_fold. fold hits. cbn [daily_stats no_accumulators dict_get].
  rewrite !app_nil_r.
  split.
  - intros ->. done.
  - intros Hne. destruct hits as [|h hits'] eqn:Hhits; [done|].
    cbn [default fst snd foldl].
    destruct (row_step_daily (ttl_of now) ("ROLLUP#" +:+ d) ("STATS#" +:+ dt)
                (0 + Z.of_nat (length (h :: hits'))) n0
                (client_ips (h :: hits') ∪ ∅) s0 _ Hn Hs)
      as (r' & Hr' & Hreq & Hips & Httl).
    exists r'. split; [done|]. split; [by rewrite Hreq|]. split; [|done].
    rewrite Hips. f_equal. set_solver.
Qed.

(** X12.  The counting rollups: for a domain [d] without ["#"], one run of
    the rollup writer adds to [count] of the row [ROLLUP#d / PAGE#tail]
    the number of events whose page key [domain#date#path] is [d#tail],
    and likewise for [REF#tail] with the events that have a non-empty
    [referrer_domain] and the key [domain#date#referrer_domain], and for
    [HOUR#tail] with the key [domain#date#hour]; it stamps [ttl] from the
    clock, and leaves the row as it was without such an event. *)
Theorem family_rollup_counts (f : family) (now : Z) (items : list event) (t : table)
    (d tail : string) (n0 : Z) :
  PyStr.has_char PyStr.hash d = false →
  let key := ("ROLLUP#" +:+ d, family_prefix f +:+ tail) in
  let hits := filter (λ it, family_key f it = Some (d +:+ "#" +:+ tail)) items in
  num_attr "count" (t !! key) = Some n0 →
  ∃ t', _update_rollups now items t = Some t'
    ∧ (hits = [] → t' !! key = t !! key)
    ∧ (hits ≠ [] →
         ∃ r', t' !! key = Some r'
           ∧ r' !! "count" = Some (ANum (n0 + Z.of_nat (length hits)))
           ∧ r' !! "ttl" = Some (ANum (ttl_of now))).
Proof.
  intros Hd key hits Hn. rewrite update_rollups_plan. eexists. split; [done|].
  rewrite foldl_run_upd_lookup. unfold plan. rewrite !filter_app.
  set (acc := foldl aggregate no_accumulators items).
  assert (acc_ok acc) as (_ & Hp & Hr & Hh)
    by apply aggregate_all_ok, no_accumulators_ok.
  pose proof (family_counts_NoDup f items no_accumulators) as Hnd.
  pose proof (family_counts_fold f items no_accumulators (d +:+ "#" +:+ tail)) as Hfold.
  fold acc in Hnd, Hfold. fold hits in Hfold.
  assert (dict_get (d +:+ "#" +:+ tail) (family_counts f no_accumulators) = None) as Hnone
    by (by destruct f).
  rewrite Hnone in Hfold. subst key.
  assert (foldl (λ r u, row_step (ttl_of now) u r) (t !! ("ROLLUP#" +:+ d, family_prefix f +:+ tail))
            (filter (λ u, upd_key u = ("ROLLUP#" +:+ d, family_prefix f +:+ tail))
               (count_upd (family_prefix f) <$> family_counts f acc))
          = match hits with
            | [] => t !! ("ROLLUP#" +:+ d, family_prefix f +:+ tail)
            | _ => row_step (ttl_of now)
                     (UCount ("ROLLUP#" +:+ d) (family_prefix f +:+ tail)
                        (0 + Z.of_nat (length hits)))
                     (t !! ("ROLLUP#" +:+ d, family_prefix f +:+ tail))
            end) as Hsame.
  { rewrite filter_count_same; [|done| |apply Hnd; destruct f; apply NoDup_nil_2].
    - rewrite Hfold. by destruct hits.
    - by destruct f. }
  assert (foldl (λ r u, row_step (ttl_of now) u r)
            (t !! ("ROLLUP#" +:+ d, family_prefix f +:+ tail))
            (filter (λ u, upd_key u = ("ROLLUP#" +:+ d, family_prefix f +:+ tail))
               (daily_upd <$> daily_stats acc)
             ++ filter (λ u, upd_key u = ("ROLLUP#" +:+ d, family_prefix f +:+ tail))
                  (count_upd "PAGE#" <$> page_counts acc)
             ++ filter (λ u, upd_key u = ("ROLLUP#" +:+ d, family_prefix f +:+ tail))
                  (count_upd "REF#" <$> referrer_counts acc)
             ++ filter (λ u, upd_key u = ("ROLLUP#" +:+ d, family_prefix f +:+ tail))
                  (count_upd "HOUR#" <$> hourly_counts acc))
          = match hits with
            | [] => t !! ("ROLLUP#" +:+ d, family_prefix f +:+ tail)
            | _ => row_step (ttl_of now)
                     (UCount ("ROLLUP#" +:+ d) (family_prefix f +:+ tail)
                        (0 + Z.of_nat (length hits)))
                     (t !! ("ROLLUP#" +:+ d, family_prefix f +:+ tail))
            end) as ->.
  { rewrite <- Hsame. clear Hsame Hfold.
    destruct f; cbn [family_prefix family_counts];
      rewrite filter_daily_other by (by intros x y [=]).
    - rewrite (filter_count_other "REF#"), (filter_count_other "HOUR#")
        by (by intros x y [=]).
      by rewrite !app_nil_r.
    - rewrite (filter_count_other "PAGE#"), (filter_count_other "HOUR#")
        by (by intros x y [=]).
      by rewrite !app_nil_r.
    - by rewrite (filter_count_other "PAGE#"), (filter_count_other "REF#")
        by (by intros x y [=]). }
  split.
  - by intros ->.
  - intros Hne. destruct hits as [|h hits'] eqn:Hhits; [done|].
    destruct (row_step_count (ttl_of now) ("ROLLUP#" +:+ d) (family_prefix f +:+ tail)
                (0 + Z.of_nat (length (h :: hits'))) n0 _ Hn)
      as (r' & Hr' & Hcount & Httl).
    exists r'. split; [done|]. split; [by rewrite Hcount|done].
Qed.

End rollup_theorems.

Lemma daily_rollup_counts_witness :
  let key := ("ROLLUP#" +:+ "example.com", "STATS#" +:+ "2024-01-15") in
  let hits :=
    filter (λ it, daily_key it = "example.com" +:+ "#" +:+ "2024-01-15")
      [example_event] in
  ∃ t', _update_rollups 0 [example_event] ∅ = Some t'
    ∧ (hits = [] → t' !! key = (∅ : table) !! key)
    ∧ (hits ≠ [] →
         ∃ r', t' !! key = Some r'
           ∧ r' !! "requests" = Some (ANum (0 + Z.of_nat (length hits)))
           ∧ set_attr "unique_ips" (Some r') = Some (∅ ∪ client_ips hits)
           ∧ r' !! "ttl" = Some (ANum (ttl_of 0))).
Proof.
  apply (daily_rollup_counts 0 [example_event] ∅ "example.com" "2024-01-15" 0 ∅);
    reflexivity.
Defined.

Lemma family_rollup_counts_witness :
  let key :=
    ("ROLLUP#" +:+ "example.com", family_prefix Referrer +:+ "2024-01-15#google.com") in
  let hits :=
    filter (λ it, family_key Referrer it
                  = Some ("example.com" +:+ "#" +:+ "2024-01-15#google.com"))
      [example_event] in
  ∃ t', _update_rollups 0 [example_event] ∅ = Some t'
    ∧ (hits = [] → t' !! key = (∅ : table) !! key)
    ∧ (hits ≠ [] →
         ∃ r', t' !! key = Some r'
           ∧ r' !! "count" = Some (ANum (0 + Z.of_nat (length hits)))
           ∧ r' !! "ttl" = Some (ANum (ttl_of 0))).
Proof.
  apply (family_rollup_counts Referrer 0 [example_event] ∅ "example.com"
           "2024-01-15#google.com" 0); reflexivity.
Defined.

(** ** The ingestion controller *)

Section deliveries.
Context `{UrlLib}.


Lemma for_each_is_Some {A S} (body : S → A → option S) (l : list A) (s : S) :
  Forall (λ a, ∀ s, is_Some (body s a)) l → is_Some (for_each body l s).
Proof.
  intros Hall. revert s. induction Hall as [|a l Ha _ IH]; intros s.
  - by rewrite for_each_nil.
  - rewrite for_each_cons. destruct (Ha s) as [s' ->]. apply IH.
Qed.

Lemma Forall_numbered {A} (P : A → Prop) (l : list A) (n : nat) :
  Forall P l → Forall (λ p, P p.2) (zip (seq n (length l)) l).
Proof.
  intros Hl. revert n. induction Hl as [|a l Ha _ IH]; intros n; [done|].
  simpl. constructor; [done|apply IH].
Qed.




Lemma process_record_idle (w : world) (cfg : config) (st st' : totals)
    (n : nat) (rec : option (string * string)) :
  process_record w cfg st (n, rec) = Some st' →
  kept_of_record w cfg rec = [] → st' = st.
Proof.
  unfold process_record, kept_of_record.
  destruct rec as [[bucket key]|]; [|done]. simpl.
  destruct (get_object w bucket key) as [content|]; [|done]. simpl.
  destruct (_extract_domain_from_s3_key key) as [actual_domain|];
    [|intros; by simplify_eq].
  destruct (PyStr.truthy actual_domain); [|intros; by simplify_eq].
  destruct (collect_items_kept cfg actual_domain content (total_processed st))
    as [Hitems Htotal].
  destruct (collect_items cfg actual_domain content (total_processed st))
    as [[items skipped] total] eqn:Hc.
  simpl in Hitems, Htotal. rewrite <- Hitems in Htotal. rewrite <- Hitems.
  destruct items as [|it items]; [|done].
  intros; simplify_eq. destruct st; simpl in *. f_equal. lia.
Qed.

Lemma for_each_idle (w : world) (cfg : config)
    (records : list (option (string * string))) (n : nat) (st st' : totals) :
  for_each (process_record w cfg) (zip (seq n (length records)) records) st = Some st' →
  Forall (λ rec, kept_of_record w cfg rec = []) records → st' = st.
Proof.
  revert n st. induction records as [|rec records IH]; intros n st.
  - cbn [length seq zip zip_with]. rewrite for_each_nil. intros; by simplify_eq.
  - intros Hrest [Hrec Hrecords]%Forall_cons.
    cbn [length seq zip zip_with] in Hrest. rewrite for_each_cons in Hrest.
    destruct (process_record w cfg st (n, rec)) as [st1|] eqn:Hrec1; [|done].
    simpl in Hrest. apply IH in Hrest; [|done].
    apply process_record_idle in Hrec1; [|done]. congruence.
Qed.

(** X14.  A delivery in which no object has a line to keep, because its
    key starts with ["/"] or is empty, or because each of its lines is a
    comment, too short or excluded, writes nothing: the table is the one
    before, and the response reports 0 processed and 0 written. *)
Theorem delivery_without_kept_lines (w : world) (cfg : config)
    (records : list (option (string * string))) (t : table) :
  Forall (λ rec, readable w rec = true ∧ kept_of_record w cfg rec = []) records →
  lambda_handler w cfg records t
  = Some ({| statusCode := 200; message := "Success"; processed := 0; written := 0 |}, t).
Proof.
  intros Hall. apply Forall_and in Hall as [Hread Hkept].
  unfold lambda_handler.
  destruct (for_each_is_Some (process_record w cfg)
              (zip (seq 0 (length records)) records)
              {| total_processed := 0; total_written := 0; store := t |}) as [st Hst].
  - eapply Forall_impl;
      [exact (Forall_numbered (λ rec, readable w rec = true) records 0 Hread)|].
    intros [n [[bucket key]|]] Hrec st; simpl in Hrec; [|done].
    apply bool_decide_eq_true in Hrec as [content Hc].
    by eapply process_record_Some.
  - rewrite Hst. apply for_each_idle in Hst; [|done]. by subst st.
Qed.

End deliveries.

Lemma delivery_without_kept_lines_witness :
  lambda_handler header_world example_config header_records ∅
  = Some ({| statusCode := 200; message := "Success"; processed := 0; written := 0 |}, ∅).
Proof.
  apply delivery_without_kept_lines.
  repeat constructor; vm_compute; reflexivity.
Defined.

End LogParserBehaviour.

(** * Further behaviour of the journey tracker *)

Module JourneyTrackerBehaviour.
Import JourneyTracker JourneyTrackerProofs.

Section validation.
Context `{JsonLib}.

Lemma in_strs_iff (s : string) (l : list string) : in_strs (JStr s) l = true ↔ s ∈ l.
Proof.
  unfold in_strs. rewrite existsb_exists. setoid_rewrite <- list_elem_of_In.
  unfold eq_str. split.
  - intros (x & Hx & ->%bool_decide_eq_true). done.
  - intros Hs. exists s. by rewrite bool_decide_eq_true.
Qed.

Lemma check_required_present (fields : list string) (ms : list (string * json)) :
  Forall (λ f, is_Some (lookup_member f ms)) fields →
  check_required fields (JObj ms) = Ok None.
Proof.
  induction 1 as [|f fields Hf _ IH]; [done|].
  cbn [check_required py_in bind]. by rewrite bool_decide_eq_true_2.
Qed.

Lemma check_required_missing (pre post : list string) (f : string)
    (ms : list (string * json)) :
  Forall (λ g, is_Some (lookup_member g ms)) pre →
  lookup_member f ms = None →
  check_required (pre ++ f :: post) (JObj ms)
  = Ok (Some ("Missing required field: " +:+ f)).
Proof.
  intros Hpre Hf. induction Hpre as [|g pre Hg _ IH].
  - cbn [app check_required py_in bind].
    rewrite bool_decide_eq_false_2; [done|]. rewrite Hf. by intros [? ?].
  - cbn [app check_required py_in bind]. by rewrite bool_decide_eq_true_2.
Qed.

(** X15.  An event passes validation exactly when it is an object that
    has the four required members, whose [domain] is a string on the list
    of allowed domains, compared as it is, and whose [event_type] is one
    of the seven known type names. *)
Theorem validate_event_ok_iff (cfg : config) (event_data : json) :
  _validate_event cfg event_data = Ok None ↔
    ∃ ms domain event_type,
      event_data = JObj ms
      ∧ is_Some (lookup_member "session_id" ms)
      ∧ is_Some (lookup_member "path" ms)
      ∧ lookup_member "domain" ms = Some (JStr domain)
      ∧ domain ∈ ALLOWED_DOMAINS cfg
      ∧ lookup_member "event_type" ms = Some (JStr event_type)
      ∧ event_type ∈ valid_types.
Proof.
  split.
  - intros (ms & sid & et & dom & pth & -> & Hsid & Het & Hty & Hdom & Hal & Hpth)
      %validate_Ok_inv.
    exists ms, dom, et. by rewrite Hsid, Hpth.
  - intros (ms & dom & et & -> & Hsid & Hpth & Hdom & Hal & Het & Hty).
    rewrite validate_object, check_required_present.
    + rewrite Hdom, Het. cbv zeta. cbn [default]. unfold id.
      apply in_strs_iff in Hal, Hty. by rewrite Hal, Hty.
    + unfold required_fields.
      repeat apply Forall_cons_2; [done|by rewrite Het|by rewrite Hdom|done|done].
Qed.

(** X16.  An object that lacks a required member is rejected with the
    message that names the first one missing, in the order [session_id],
    [event_type], [domain], [path], whatever else is wrong with it. *)
Theorem first_missing_field_is_reported (cfg : config) (ms : list (string * json))
    (pre post : list string) (f : string) :
  required_fields = pre ++ f :: post →
  Forall (λ g, is_Some (lookup_member g ms)) pre →
  lookup_member f ms = None →
  _validate_event cfg (JObj ms) = Ok (Some ("Missing required field: " +:+ f)).
Proof.
  intros Hfields Hpre Hf.
  by rewrite validate_object, Hfields, check_required_missing.
Qed.

(** X17.  With [ALLOWED_DOMAINS] unset or empty the list of allowed
    domains is the one empty string, so an event with the four required
    members and a non-empty [domain] is rejected as not allowed. *)
Theorem unset_allowed_domains_reject (sessions_table allowed : option string)
    (ms : list (string * json)) (d : string) :
  default "" allowed = "" →
  Forall (λ g, is_Some (lookup_member g ms)) required_fields →
  lookup_member "domain" ms = Some (JStr d) →
  d ≠ "" →
  _validate_event (config_of_env sessions_table allowed) (JObj ms)
  = Ok (Some ("Domain not allowed: " +:+ d)).
Proof.
  intros Hal Hreq Hdom Hd.
  rewrite validate_object, check_required_present by done.
  rewrite Hdom. cbv zeta. cbn [ALLOWED_DOMAINS config_of_env]. rewrite Hal.
  cbn [default]. unfold id.
  destruct (in_strs (JStr d) (PyStr.split "," "")) eqn:Hin.
  - apply in_strs_iff in Hin. simpl in Hin. set_solver.
  - by rewrite py_str_JStr.
Qed.

End validation.

Section items.
Context `{JsonLib}.

Lemma optional_fields_NoDup : NoDup optional_fields.
Proof. apply (bool_decide_unpack _). by vm_compute. Qed.

Lemma optional_not_base : Forall (λ f, f ∉ base_names) optional_fields.
Proof. apply (bool_decide_unpack _). by vm_compute. Qed.

(** The loop over the optional fields: a listed attribute is set when the
    event has a value other than [null] for it, and nothing else
    changes. *)
Lemma copy_optional_fold_lookup (ms : list (string * json)) (fields : list string)
    (it0 : item) :
  NoDup fields →
  ∃ it, foldl (copy_optional (JObj ms)) (Ok it0) fields = Ok it
    ∧ (∀ k, k ∉ fields → it !! k = it0 !! k)
    ∧ (∀ f, f ∈ fields →
         it !! f = match lookup_member f ms with
                   | Some JNull | None => it0 !! f
                   | Some v => Some v
                   end).
Proof.
  intros Hnd. revert it0. induction Hnd as [|f fields Hf _ IH]; intros it0.
  - exists it0. split; [done|]. split; [done|]. intros f Hf. by apply elem_of_nil in Hf.
  - cbn [foldl]. rewrite copy_optional_object.
    set (it1 := match lookup_member f ms with
                | Some JNull | None => it0
                | Some v => <[f := v]> it0
                end).
    destruct (IH it1) as (it & -> & Hout & Hin).
    assert (∀ k, k ≠ f → it1 !! k = it0 !! k) as Hit1.
    { intros k Hk. subst it1.
      destruct (lookup_member f ms) as [[]|]; try done; by rewrite lookup_insert_ne. }
    exists it. split; [done|]. split.
    + intros k [Hkf Hk]%not_elem_of_cons. by rewrite Hout, Hit1.
    + intros g [->|Hg]%elem_of_cons.
      * rewrite Hout by done. subst it1.
        destruct (lookup_member f ms) as [[]|]; try done; by rewrite lookup_insert_eq.
      * rewrite Hin by done. rewrite Hit1; [done|]. by intros ->.
Qed.

(** What stands behind an accepted event. *)
Lemma accept_inv (cfg : config) (rd : reading) (event_data : json) (it : item) :
  accept cfg (rd, event_data) = Some it →
  ∃ ms sid et dom pth date,
    event_data = JObj ms
    ∧ lookup_member "session_id" ms = Some sid
    ∧ lookup_member "event_type" ms = Some (JStr et)
    ∧ lookup_member "domain" ms = Some (JStr dom)
    ∧ lookup_member "path" ms = Some pth
    ∧ foldl (copy_optional (JObj ms))
        (Ok (base_item rd sid (JStr et) (JStr dom) pth (timestamp_of rd ms)
               (event_id_of rd ms) date))
        optional_fields = Ok it.
Proof.
  unfold accept. cbn [fst snd].
  destruct (_validate_event cfg event_data) as [[msg|]|e] eqn:Hv; try done.
  apply validate_Ok_inv in Hv
    as (ms & sid & et & dom & pth & -> & Hsid & Het & _ & Hdom & _ & Hpth).
  rewrite (build_object rd ms _ _ _ _ Hsid Het Hdom Hpth).
  destruct (date_of rd (timestamp_of rd ms)) as [date|e] eqn:Hdate; [|done].
  unfold bind.
  destruct (foldl _ _ optional_fields) as [it'|e] eqn:Hfold; [|done].
  intros [= <-]. by exists ms, sid, et, dom, pth, date.
Qed.

Lemma base_not_optional : Forall (λ k, k ∉ optional_fields) base_names.
Proof. apply (bool_decide_unpack _). by vm_compute. Qed.

(** The loop over the optional fields leaves the twelve attributes every
    item has as they were built. *)
Lemma accepted_base_lookup (ms : list (string * json)) (it0 it : item) (k : string) :
  foldl (copy_optional (JObj ms)) (Ok it0) optional_fields = Ok it →
  k ∈ base_names →
  it !! k = it0 !! k.
Proof.
  intros Hfold Hk.
  destruct (copy_optional_fold ms optional_fields it0) as (it' & Hfold' & Hit).
  rewrite Hfold in Hfold'. injection Hfold' as <-.
  apply Hit. pose proof base_not_optional as Hbase.
  rewrite Forall_forall in Hbase. by apply Hbase.
Qed.

Lemma base_item_other (rd : reading) (sid et dom pth ts eid date : json) (k : string) :
  k ∉ base_names → base_item rd sid et dom pth ts eid date !! k = None.
Proof.
  unfold base_names. intros Hk.
  repeat (apply not_elem_of_cons in Hk as [? Hk]).
  unfold base_item. by rewrite !lookup_insert_ne, lookup_empty by done.
Qed.

(** X18.  The index keys of a session event: for an accepted event the
    item has [PK] and [GSI1SK] equal to ["SESSION#"] and the session id,
    [GSI2PK] made of the domain and the path, [GSI2SK] equal to its
    [timestamp], a [ttl] of 7776000 seconds (90 days) after the clock
    reading, and the four required members as they came. *)
Theorem item_keys_and_ttl (cfg : config) (rd : reading) (ms : list (string * json))
    (it : item) :
  accept cfg (rd, JObj ms) = Some it →
  ∃ sid dom pth,
    lookup_member "session_id" ms = Some sid
    ∧ lookup_member "domain" ms = Some (JStr dom)
    ∧ lookup_member "path" ms = Some pth
    ∧ it !! "PK" = Some (JStr ("SESSION#" +:+ py_str sid))
    ∧ it !! "GSI1SK" = Some (JStr ("SESSION#" +:+ py_str sid))
    ∧ it !! "GSI2PK" = Some (JStr ("DOMAIN#" +:+ dom +:+ "#PATH#" +:+ py_str pth))
    ∧ it !! "GSI2SK" = it !! "timestamp"
    ∧ it !! "ttl" = Some (JInt (time_time rd + 7776000))
    ∧ it !! "session_id" = Some sid
    ∧ it !! "event_type" = lookup_member "event_type" ms
    ∧ it !! "domain" = Some (JStr dom)
    ∧ it !! "path" = Some pth.
Proof.
  intros (ms' & sid & et & dom & pth & date & [= <-] & Hsid & Het & Hdom & Hpth & Hfold)
    %accept_inv.
  assert (∀ k, k ∈ base_names →
            it !! k = base_item rd sid (JStr et) (JStr dom) pth (timestamp_of rd ms)
                        (event_id_of rd ms) date !! k) as Hit
    by (intros k Hk; exact (accepted_base_lookup ms _ _ k Hfold Hk)).
  assert (it !! "timestamp" = Some (timestamp_of rd ms)) as Hts.
  { rewrite Hit by (apply (bool_decide_unpack _); by vm_compute).
    unfold base_item.
    by repeat (rewrite lookup_insert_ne by done); rewrite lookup_insert_eq. }
  exists sid, dom, pth. rewrite Het, Hts.
  split; [done|]. split; [done|]. split; [done|].
  split_and!;
    (rewrite Hit by (apply (bool_decide_unpack _); by vm_compute));
    unfold base_item; rewrite ?py_str_JStr;
    by repeat (rewrite lookup_insert_ne by done); rewrite lookup_insert_eq.
Qed.

(** X19.  The optional attributes of a session event: for an accepted
    event, each of the eleven optional fields is stored exactly when the
    event has a value other than [null] for it, with that value; and the
    item has no attribute besides the twelve it always has and these
    eleven, whatever else the event carries. *)
Theorem optional_attributes_are_copied (cfg : config) (rd : reading)
    (ms : list (string * json)) (it : item) :
  accept cfg (rd, JObj ms) = Some it →
  (∀ f, f ∈ optional_fields →
     it !! f = match lookup_member f ms with
               | Some JNull | None => None
               | Some v => Some v
               end)
  ∧ (∀ k, k ∉ optional_fields → k ∉ base_names → it !! k = None).
Proof.
  intros (ms' & sid & et & dom & pth & date & [= <-] & Hsid & Het & Hdom & Hpth & Hfold)
    %accept_inv.
  destruct (copy_optional_fold_lookup ms optional_fields
              (base_item rd sid (JStr et) (JStr dom) pth (timestamp_of rd ms)
                 (event_id_of rd ms) date) optional_fields_NoDup)
    as (it' & Hfold' & Hout & Hin).
  rewrite Hfold in Hfold'. injection Hfold' as <-. split.
  - intros f Hf. rewrite Hin by done.
    pose proof optional_not_base as Hbase. rewrite Forall_forall in Hbase.
    rewrite base_item_other by auto. done.
  - intros k Hk Hb. rewrite Hout by done. by apply base_item_other.
Qed.

End items.

Section writer.
Context `{JsonLib} `{Store}.

(** While fewer than [flush_amount] items are held, the loop only fills
    the buffer. *)
Lemma write_loop_held (cfg : config) (l : list (reading * json)) (st : write_state) :
  (length (buffer st) + length (omap (accept cfg) l) < flush_amount)%nat →
  ∃ errs,
    foldl (write_event cfg) st l
    = {| written := (written st + length (omap (accept cfg) l))%nat;
         errors := errors st ++ errs;
         buffer := buffer st ++ omap (accept cfg) l;
         sessions := sessions st |}
    ∧ length errs = (length l - length (omap (accept cfg) l))%nat.
Proof.
  revert st. induction l as [|entry l IH]; intros st Hlen.
  - exists []. cbn [foldl omap list_omap length]. rewrite !app_nil_r, Nat.add_0_r.
    split; [by destruct st|done].
  - pose proof (length_accepted cfg l) as Hacc.
    cbn [foldl omap list_omap] in *.
    destruct (accept cfg entry) as [it|] eqn:Hentry.
    + rewrite (write_event_put cfg st entry it Hentry). unfold put_item.
      cbn [length] in Hlen.
      rewrite (proj2 (Nat.leb_gt _ _)) by (rewrite length_app; simpl; lia).
      destruct (IH {| written := S (written st); errors := errors st;
                      buffer := buffer st ++ [it]; sessions := sessions st |})
        as (errs & -> & Herrs).
      { cbn [buffer]. rewrite length_app. simpl. lia. }
      exists errs. cbn [written errors buffer sessions length]. split; [|lia].
      f_equal; [lia|by rewrite <- List.app_assoc].
    + destruct (write_event_reject cfg st entry Hentry) as [msg ->].
      destruct (IH {| written := written st; errors := errors st ++ [msg];
                      buffer := buffer st; sessions := sessions st |})
        as (errs & -> & Herrs); [done|].
      exists (msg :: errs). cbn [written errors buffer sessions length].
      split; [by rewrite <- List.app_assoc|lia].
Qed.

(** Leaving the writer with one last request that is refused. *)
Lemma writer_exit_refused (held : list item) (t : table) :
  held ≠ [] → (length held <= flush_amount)%nat →
  is_Some (batch_write_error held) →
  ∃ e, batch_write_error held = Some e
       ∧ writer_exit (length held) held t = (Some e, t).
Proof.
  intros Hne Hlen [e He]. exists e. split; [done|].
  destruct held as [|it held]; [done|].
  cbn [length writer_exit]. unfold _flush. rewrite take_ge by done. by rewrite He.
Qed.

(** [_write_events] when fewer than [flush_amount] items are accepted and
    the one request on leaving is refused. *)
Lemma write_events_refused (cfg : config) (rds : nat → reading) (evs : list json)
    (t : table) :
  table_configured cfg = true →
  let accepted := omap (accept cfg) (entries rds evs) in
  (length accepted < flush_amount)%nat →
  is_Some (batch_write_error accepted) →
  accepted ≠ [] →
  ∃ e, batch_write_error accepted = Some e
       ∧ _write_events cfg rds evs t = (Raise e, t).
Proof.
  intros Hcfg accepted Hlen Hre Hne. subst accepted.
  rewrite write_events_configured by done.
  destruct (write_loop_held cfg (entries rds evs)
              {| written := 0; errors := []; buffer := []; sessions := t |})
    as (errs & Hloop & _); [exact Hlen|].
  cbv zeta. rewrite Hloop. cbn [written errors buffer sessions app].
  destruct (writer_exit_refused _ t Hne) as (e & He & ->); [lia|done|].
  by exists e.
Qed.

(** X20.  A float fails the whole batch: when a batch of at most 100
    events has fewer than 25 valid ones and the item of one of them holds
    a float, such as a scroll depth of [55.5], the batch is answered with
    HTTP 500 and nothing is written, the valid events without a float
    included. *)
Theorem float_fails_the_batch (cfg : config) (rds : nat → reading) (ev : http_event)
    (t : table) (payload : json) (evs : list json) :
  http_method ev = "POST" →
  rawPath ev = "/t/batch" →
  decode_body ev = Ok (Loaded payload) →
  py_get payload "events" (JArr []) = Ok (JArr evs) →
  table_configured cfg = true →
  (length evs <= 100)%nat →
  let accepted := omap (accept cfg) (entries rds evs) in
  (length accepted < flush_amount)%nat →
  (∃ it k v, it ∈ accepted ∧ it !! k = Some v ∧ holds_float v = true) →
  statusCode (lambda_handler cfg rds ev t).1 = 500
  ∧ (lambda_handler cfg rds ev t).2 = t.
Proof.
  intros Hm Hp Hbody Hevs Hcfg Hn accepted Hlen (it & k & v & Hit & Hk & Hv).
  unfold lambda_handler.
  rewrite (route_batch cfg rds ev t payload) by done.
  rewrite (handle_batch_eq cfg rds payload evs) by done.
  destruct (write_events_refused cfg rds evs t Hcfg Hlen) as (e & _ & Hw).
  { by eapply float_refused. }
  { intros Hnil. fold accepted in Hnil. rewrite Hnil in Hit. by apply elem_of_nil in Hit. }
  destruct evs as [|e0 evs]; [by apply elem_of_nil in Hit|].
  rewrite (proj2 (Nat.ltb_ge _ _)) by done. by rewrite Hw.
Qed.

(** X21.  A single event: with [SESSIONS_TABLE] configured, a POST to
    [/t] whose event is accepted is answered with 200 and [status "ok"]
    and its item is put when the store carries out the request, and with
    HTTP 500 and nothing written when the store refuses it, as it does
    when the item holds a float; an event that is not accepted is
    answered with HTTP 400 and nothing is written, the message being the
    one of the validation when that fails. *)
Theorem single_event_semantics (cfg : config) (rds : nat → reading) (ev : http_event)
    (t : table) (payload : json) :
  http_method ev = "POST" →
  rawPath ev = "/t" →
  decode_body ev = Ok (Loaded payload) →
  table_configured cfg = true →
  let resp := (lambda_handler cfg rds ev t).1 in
  let t' := (lambda_handler cfg rds ev t).2 in
  match accept cfg (rds 0%nat, payload) with
  | Some it =>
      match batch_write_error [it] with
      | None => resp = _response 200 (JObj [("status", JStr "ok")]) ∧ t' = store_put it t
      | Some e => resp = _error 500 ("Internal error: " +:+ exn_str e) ∧ t' = t
      end
      ∧ (∀ k v, it !! k = Some v → holds_float v = true →
           statusCode resp = 500 ∧ t' = t)
  | None =>
      ∃ msg, resp = _error 400 msg ∧ t' = t
             ∧ ∀ m, _validate_event cfg payload = Ok (Some m) → msg = m
  end.
Proof.
  intros Hm Hp Hbody Hcfg. cbv zeta. unfold lambda_handler, route.
  rewrite Hm, Hp, Hbody. rewrite decide_False by done.
  rewrite bool_decide_eq_true_2 by done. cbn [negb]. rewrite decide_True by done.
  unfold _handle_single_event. rewrite write_events_configured by done.
  cbv zeta. unfold entries. cbn [length seq fmap list_fmap zip zip_with foldl].
  destruct (accept cfg (rds 0%nat, payload)) as [it|] eqn:Hacc.
  - rewrite (write_event_put cfg _ _ it Hacc).
    cbn [buffer sessions written errors]. unfold put_item. cbn [app length].
    change (flush_amount <=? 1)%nat with false.
    cbn [buffer sessions written errors length writer_exit]. unfold _flush.
    change (take flush_amount [it]) with [it].
    change (drop flush_amount [it]) with (@nil item).
    pose proof (λ k v, float_refused [it] it k v ltac:(by left)) as Hfloat.
    destruct (batch_write_error [it]) as [e|] eqn:He.
    + cbn [fst snd]. split; [done|]. intros k v Hk Hv. done.
    + cbn [foldl writer_exit fst snd]. rewrite decide_True by done. split; [done|].
      intros k v Hk Hv. destruct (Hfloat k v Hk Hv) as [e' ?]. done.
  - unfold accept in Hacc. unfold write_event. cbn [fst snd] in *.
    destruct (_validate_event cfg payload) as [[msg|]|e] eqn:Hv.
    + cbn [buffer sessions written errors length writer_exit app fst snd].
      rewrite decide_False by done. exists msg. split; [done|]. split; [done|].
      by intros m [= ->].
    + destruct (_build_dynamodb_item (rds 0%nat) payload) as [it|e]; [done|].
      cbn [buffer sessions written errors length writer_exit app fst snd].
      rewrite decide_False by done. by eexists.
    + cbn [buffer sessions written errors length writer_exit app fst snd].
      rewrite decide_False by done. by eexists.
Qed.

(** A refused request inside the loop: the items it held are lost and
    one error is counted. *)
Lemma write_loop_refused (cfg : config) (l : list (reading * json)) (st : write_state) :
  (length (buffer st) < flush_amount)%nat →
  (length (buffer st) + length (omap (accept cfg) l) = flush_amount)%nat →
  is_Some (batch_write_error (buffer st ++ omap (accept cfg) l)) →
  let st' := foldl (write_event cfg) st l in
  S (written st') = (written st + length (omap (accept cfg) l))%nat
  ∧ length (errors st')
    = (length (errors st) + (length l - length (omap (accept cfg) l)) + 1)%nat
  ∧ buffer st' = []
  ∧ sessions st' = sessions st.
Proof.
  revert st. induction l as [|entry l IH]; intros st Hheld Hlen Hre; cbv zeta.
  - cbn [omap list_omap length] in Hlen. lia.
  - pose proof (length_accepted cfg l) as Hacc.
    cbn [foldl omap list_omap] in *.
    destruct (accept cfg entry) as [it|] eqn:Hentry.
    + rewrite (write_event_put cfg st entry it Hentry). unfold put_item.
      cbn [length] in Hlen.
      destruct (flush_amount <=? length (buffer st ++ [it]))%nat eqn:Hfull.
      * apply Nat.leb_le in Hfull. rewrite length_app in Hfull. cbn [length] in Hfull.
        assert (omap (accept cfg) l = []) as Hnone
          by (apply length_zero_iff_nil; lia).
        rewrite Hnone in Hre |- *. unfold _flush.
        rewrite take_ge, drop_ge by (rewrite length_app; cbn [length]; lia).
        destruct Hre as [e ->].
        destruct (write_loop_held cfg l
                    {| written := written st; errors := errors st ++ [exn_str e];
                       buffer := []; sessions := sessions st |})
          as (errs & -> & Herrs).
        { rewrite Hnone. unfold flush_amount. simpl. lia. }
        rewrite Hnone in Herrs |- *.
        cbn [written errors buffer sessions length app].
        rewrite !length_app. cbn [length] in *. split_and!; [lia|lia|done|done].
      * apply Nat.leb_gt in Hfull. rewrite length_app in Hfull. cbn [length] in Hfull.
        destruct (IH {| written := S (written st); errors := errors st;
                        buffer := buffer st ++ [it]; sessions := sessions st |})
          as (Hw & He & Hb & Hs).
        { cbn [buffer]. rewrite length_app. cbn [length]. lia. }
        { cbn [buffer]. rewrite length_app. cbn [length]. lia. }
        { cbn [buffer]. by rewrite <- List.app_assoc. }
        cbn [written errors buffer sessions length] in *.
        split_and!; [lia|lia|done|done].
    + destruct (write_event_reject cfg st entry Hentry) as [msg ->].
      specialize (IH {| written := written st; errors := errors st ++ [msg];
                        buffer := buffer st; sessions := sessions st |}).
      cbn [written errors buffer sessions] in IH.
      destruct IH as (Hw & He & Hb & Hs); [done..|].
      rewrite length_app in He. cbn [length] in *. split_and!; [lia|lia|done|done].
Qed.

(** X22.  The counts of a batch can overstate what is stored: when
    exactly 25 events of a batch are valid and the store refuses their
    request, which the 25th put sets off inside the loop, the response is
    still HTTP 200; it reports 24 events written and one error beside the
    invalid events, and no row is written. *)
Theorem refused_flush_is_one_error (cfg : config) (rds : nat → reading)
    (payload : json) (evs : list json) (t : table) :
  py_get payload "events" (JArr []) = Ok (JArr evs) →
  table_configured cfg = true →
  (length evs <= 100)%nat →
  let accepted := omap (accept cfg) (entries rds evs) in
  length accepted = flush_amount →
  is_Some (batch_write_error accepted) →
  _handle_batch_events cfg rds payload t
  = (Ok (_response 200
           (JObj [("status", JStr "ok"); ("written", JInt 24);
                  ("errors", JInt (Z.of_nat (length evs - 24)))])), t).
Proof.
  intros Hevs Hcfg Hn accepted Hlen Hre. subst accepted.
  rewrite (handle_batch_eq cfg rds payload evs) by done.
  destruct evs as [|e0 evs]; [done|].
  rewrite (proj2 (Nat.ltb_ge _ _)) by done.
  rewrite write_events_configured by done. cbv zeta.
  destruct (write_loop_refused cfg (entries rds (e0 :: evs))
              {| written := 0; errors := []; buffer := []; sessions := t |})
    as (Hw & He & Hb & Hs).
  { unfold flush_amount. simpl. lia. }
  { exact Hlen. }
  { exact Hre. }
  pose proof (length_accepted cfg (entries rds (e0 :: evs))) as Hacc.
  rewrite length_entries in He, Hacc.
  rewrite Hb, Hs. cbn [length writer_exit fst snd written errors sessions] in *.
  unfold flush_amount in *.
  set (st' := foldl (write_event cfg) _ _) in *.
  assert (written st' = 24%nat) as -> by lia.
  assert (length (errors st') = (S (length evs) - 24)%nat) as -> by lia.
  done.
Qed.

(** *** What a request can do to the table *)

Lemma store_put_eq (it : item) (t : table) :
  store_put it t = match item_key it with
                   | Some k => <[k := it]> t
                   | None => t
                   end.
Proof.
  unfold store_put, item_key.
  by destruct (it !! "PK") as [[]|], (it !! "SK") as [[]|].
Qed.

Lemma related_refl (cfg : config) (t : table) : related cfg t t.
Proof. intros k. by left. Qed.

Lemma related_put (cfg : config) (t t1 : table) (it : item) :
  related cfg t t1 → built cfg it → related cfg t (store_put it t1).
Proof.
  intros Hrel Hit k. rewrite store_put_eq.
  destruct (item_key it) as [k'|] eqn:Hkey; [|apply Hrel].
  destruct (decide (k = k')) as [->|Hne].
  - right. exists it. by rewrite lookup_insert_eq.
  - rewrite lookup_insert_ne by done. apply Hrel.
Qed.

Lemma related_puts (cfg : config) (t t1 : table) (items : list item) :
  related cfg t t1 → Forall (built cfg) items →
  related cfg t (foldl (λ t it, store_put it t) t1 items).
Proof.
  revert t1. induction items as [|it items IH]; intros t1 Hrel Hall; [done|].
  apply Forall_cons in Hall as [Hit Hall]. cbn [foldl].
  apply IH; [by apply related_put|done].
Qed.

Lemma flush_related (cfg : config) (t t1 : table) (held : list item) :
  related cfg t t1 → Forall (built cfg) held →
  related cfg t (_flush held t1).2 ∧ Forall (built cfg) (_flush held t1).1.2.
Proof.
  intros Hrel Hall. unfold _flush.
  destruct (batch_write_error (take flush_amount held)); cbn [fst snd];
    (split; [|by apply Forall_drop]); [done|].
  apply related_puts; [done|by apply Forall_take].
Qed.

Lemma put_item_related (cfg : config) (t t1 : table) (it : item) (held : list item) :
  related cfg t t1 → Forall (built cfg) held → built cfg it →
  related cfg t (put_item it held t1).2
  ∧ Forall (built cfg) (put_item it held t1).1.2.
Proof.
  intros Hrel Hall Hit. unfold put_item.
  assert (Forall (built cfg) (held ++ [it])) as Hall'
    by (apply Forall_app; split; [done|by apply Forall_singleton]).
  destruct (flush_amount <=? length (held ++ [it]))%nat; [by apply flush_related|].
  done.
Qed.

Lemma writer_exit_related (cfg : config) (t : table) (fuel : nat) (held : list item)
    (t1 : table) :
  related cfg t t1 → Forall (built cfg) held →
  related cfg t (writer_exit fuel held t1).2.
Proof.
  revert held t1. induction fuel as [|fuel IH]; intros held t1 Hrel Hall; [done|].
  destruct held as [|it held]; [done|]. cbn [writer_exit].
  destruct (flush_related cfg t t1 (it :: held) Hrel Hall) as [Hrel' Hall'].
  destruct (_flush (it :: held) t1) as [[[e|] rest] t2]; cbn [fst snd] in *; [done|].
  by apply IH.
Qed.

Lemma write_event_related (cfg : config) (t : table) (st : write_state)
    (entry : reading * json) :
  related cfg t (sessions st) → Forall (built cfg) (buffer st) →
  related cfg t (sessions (write_event cfg st entry))
  ∧ Forall (built cfg) (buffer (write_event cfg st entry)).
Proof.
  intros Hrel Hall. destruct (accept cfg entry) as [it|] eqn:Hentry.
  - rewrite (write_event_put cfg st entry it Hentry).
    assert (built cfg it) as Hit by (destruct entry as [rd e]; by exists rd, e).
    destruct (put_item_related cfg t (sessions st) it (buffer st) Hrel Hall Hit)
      as [Hrel' Hall'].
    by destruct (put_item it (buffer st) (sessions st)) as [[[e|] held] t2].
  - by destruct (write_event_reject cfg st entry Hentry) as [msg ->].
Qed.

Lemma write_events_related (cfg : config) (rds : nat → reading) (evs : list json)
    (t : table) :
  related cfg t (_write_events cfg rds evs t).2.
Proof.
  unfold _write_events.
  destruct (SESSIONS_TABLE cfg) as [name|]; [|apply related_refl].
  destruct (PyStr.truthy name); [|apply related_refl].
  assert (∀ l st, related cfg t (sessions st) → Forall (built cfg) (buffer st) →
            related cfg t (sessions (foldl (write_event cfg) st l))
            ∧ Forall (built cfg) (buffer (foldl (write_event cfg) st l))) as Hloop.
  { induction l as [|entry l IH]; intros st Hrel Hall; [done|].
    cbn [foldl]. destruct (write_event_related cfg t st entry Hrel Hall).
    by apply IH. }
  destruct (Hloop (zip (rds <$> seq 0 (length evs)) evs)
              {| written := 0; errors := []; buffer := []; sessions := t |})
    as [Hrel Hall]; [apply related_refl|done|].
  set (st := foldl (write_event cfg) _ _) in *.
  pose proof (writer_exit_related cfg t (length (buffer st)) (buffer st) (sessions st)
                Hrel Hall) as Hexit.
  by destruct (writer_exit _ _ _) as [[e|] t'].
Qed.

Lemma route_related (cfg : config) (rds : nat → reading) (ev : http_event) (t : table) :
  related cfg t (route cfg rds ev t).2.
Proof.
  unfold route. case_decide; [apply related_refl|].
  case_bool_decide; cbn [negb]; [|apply related_refl].
  destruct (decode_body ev) as [[payload| |e]|e]; try apply related_refl.
  case_decide.
  - unfold _handle_single_event.
    pose proof (write_events_related cfg rds [payload] t) as Hw.
    by destruct (_write_events cfg rds [payload] t) as [[result|e] t1].
  - case_decide; [|apply related_refl]. unfold _handle_batch_events.
    destruct (py_get payload "events" (JArr [])) as [events|e]; [|apply related_refl].
    destruct (truthy events); cbn [negb]; [|apply related_refl].
    destruct (py_list events) as [evs|e]; [|apply related_refl].
    destruct (100 <? length evs)%nat; [apply related_refl|].
    pose proof (write_events_related cfg rds evs t) as Hw.
    by destruct (_write_events cfg rds evs t) as [[result|e] t1].
Qed.

Lemma route_elsewhere (cfg : config) (rds : nat → reading) (ev : http_event) (t : table) :
  http_method ev ≠ "POST" ∨ (rawPath ev ≠ "/t" ∧ rawPath ev ≠ "/t/batch") →
  (route cfg rds ev t).2 = t.
Proof.
  intros Hev. unfold route. case_decide; [done|].
  case_bool_decide; cbn [negb]; [|done].
  destruct Hev as [Hm|[Hp Hb]]; [done|].
  destruct (decode_body ev) as [[payload| |e]|e]; try done.
  by rewrite !decide_False.
Qed.

(** X23.  Whatever the request and whatever the store does, the handler
    deletes no row and changes a row only by putting, under its own key,
    the item of an event that passed validation; a request other than a
    POST to [/t] or [/t/batch] leaves the table as it is. *)
Theorem rows_are_kept_or_built (cfg : config) (rds : nat → reading) (ev : http_event)
    (t : table) :
  let t' := (lambda_handler cfg rds ev t).2 in
  (∀ k, t' !! k = t !! k
        ∨ ∃ it, built cfg it ∧ item_key it = Some k ∧ t' !! k = Some it)
  ∧ dom t ⊆ dom t'
  ∧ (http_method ev ≠ "POST" ∨ (rawPath ev ≠ "/t" ∧ rawPath ev ≠ "/t/batch") →
     t' = t).
Proof.
  cbv zeta.
  assert ((lambda_handler cfg rds ev t).2 = (route cfg rds ev t).2) as ->
    by (unfold lambda_handler; by destruct (route cfg rds ev t) as [[r|e] t1]).
  pose proof (route_related cfg rds ev t) as Hrel.
  split; [exact Hrel|]. split; [|apply route_elsewhere].
  intros k [r Hk]%elem_of_dom. apply elem_of_dom.
  destruct (Hrel k) as [->|(it & _ & _ & ->)]; by eexists.
Qed.

(** X24.  A body marked as base64 is decoded before it is read: the
    request is answered as the same request with the decoded text as its
    plain body; when the text is not base64 or does not decode to UTF-8,
    a POST is answered with HTTP 500 and nothing is written. *)
Theorem base64_body_is_decoded (cfg : config) (rds : nat → reading) (ev : http_event)
    (t : table) (s : string) :
  isBase64Encoded ev = true →
  raw_body ev = BodyText s →
  match b64decode_utf8 s with
  | Ok s' => lambda_handler cfg rds ev t = lambda_handler cfg rds (with_plain_body ev s') t
  | Raise e =>
      http_method ev = "POST" →
      lambda_handler cfg rds ev t = (_error 500 ("Internal error: " +:+ exn_str e), t)
  end.
Proof.
  intros Hb Hs. unfold lambda_handler, route, decode_body, body_text.
  rewrite Hb, Hs. cbn [with_plain_body http_method rawPath raw_body isBase64Encoded].
  destruct (b64decode_utf8 s) as [s'|e]; cbn [bind]; [done|].
  intros ->. rewrite decide_False by done. by rewrite bool_decide_eq_true_2.
Qed.

End writer.

(** *** The theorems at work on the example inputs *)

(** In the example store an item with a float is found by a run through
    the items. *)
Lemma float_found (items : list item) :
  existsb ExampleStore.item_holds_float items = true →
  ∃ it k v, it ∈ items ∧ it !! k = Some v ∧ holds_float v = true.
Proof.
  intros (it & Hit & Hf)%existsb_exists.
  apply existsb_exists in Hf as (v & Hv & Hfloat).
  apply list_elem_of_In, list_elem_of_fmap in Hv as ([k v'] & -> & Hkv).
  apply elem_of_map_to_list in Hkv.
  exists it, k, v'. split; [by apply list_elem_of_In|done].
Qed.

(** X16 at the page view without its path. *)
Lemma first_missing_field_is_reported_witness :
  _validate_event example_config
    (JObj [("session_id", JStr "s1"); ("event_type", JStr "pageview");
           ("domain", JStr "example.com")])
  = Ok (Some "Missing required field: path").
Proof.
  apply (first_missing_field_is_reported example_config _
           ["session_id"; "event_type"; "domain"] [] "path").
  - reflexivity.
  - repeat constructor; by eexists.
  - reflexivity.
Defined.

(** X17 at the page view, with [ALLOWED_DOMAINS] not set. *)
Lemma unset_allowed_domains_reject_witness :
  _validate_event (config_of_env (Some "sessions") None)
    (ExampleJson.object_value ExampleJson.pageview)
  = Ok (Some "Domain not allowed: example.com").
Proof.
  apply (unset_allowed_domains_reject (Some "sessions") None
           ((λ kv, (kv.1, JStr kv.2)) <$> ExampleJson.pageview) "example.com").
  - reflexivity.
  - repeat constructor; by eexists.
  - reflexivity.
  - discriminate.
Defined.

(** X18 at the page view, accepted at clock reading [1705320000]. *)
Lemma item_keys_and_ttl_witness :
  ∃ it,
    accept example_config
      (example_reading 0, ExampleJson.object_value ExampleJson.pageview) = Some it
    ∧ it !! "PK" = Some (JStr "SESSION#s1")
    ∧ it !! "GSI2PK" = Some (JStr "DOMAIN#example.com#PATH#/")
    ∧ it !! "ttl" = Some (JInt 1713096000).
Proof.
  assert (is_Some (accept example_config
                     (example_reading 0, ExampleJson.object_value ExampleJson.pageview)))
    as [it Hit] by (apply valid_event_accepted; [reflexivity|by left]).
  destruct (item_keys_and_ttl example_config (example_reading 0) _ it Hit)
    as (sid & dom & pth & Hsid & Hdom & Hpth & Hpk & _ & Hpk2 & _ & Httl & _).
  injection Hsid as <-. injection Hdom as <-. injection Hpth as <-.
  exists it. split; [exact Hit|]. split; [exact Hpk|]. split; [exact Hpk2|exact Httl].
Defined.

(** X19 at the page view with a scroll depth of [55.5]. *)
Lemma optional_attributes_are_copied_witness :
  ∃ it,
    accept example_config (example_reading 0, ExampleJson.scrolled_value) = Some it
    ∧ it !! "scroll_depth" = Some (JFloat 55.5%float)
    ∧ it !! "referrer" = None
    ∧ it !! "scrolled" = None.
Proof.
  assert (is_Some (accept example_config (example_reading 0, ExampleJson.scrolled_value)))
    as [it Hit] by (apply valid_event_accepted; [reflexivity|by left]).
  destruct (optional_attributes_are_copied example_config (example_reading 0) _ it Hit)
    as [Hin Hout].
  exists it. split; [exact Hit|]. split; [|split].
  - rewrite Hin by (apply (bool_decide_unpack _); by vm_compute). reflexivity.
  - rewrite Hin by (apply (bool_decide_unpack _); by vm_compute). reflexivity.
  - apply Hout; apply (bool_decide_unpack _); by vm_compute.
Defined.

(** X20 at the batch of one page view with a scroll depth of [55.5]. *)
Lemma float_fails_the_batch_witness :
  statusCode (lambda_handler example_config example_reading scrolled_batch ∅).1 = 500
  ∧ (lambda_handler example_config example_reading scrolled_batch ∅).2 = ∅.
Proof.
  apply (float_fails_the_batch example_config example_reading scrolled_batch ∅
           (JObj [("events", JArr [ExampleJson.scrolled_value])])
           [ExampleJson.scrolled_value]).
  - reflexivity.
  - reflexivity.
  - vm_compute. reflexivity.
  - reflexivity.
  - reflexivity.
  - simpl. lia.
  - vm_compute. lia.
  - apply float_found. vm_compute. reflexivity.
Defined.

(** X21 at the page view: its item is put. *)
Lemma single_event_semantics_witness :
  ∃ it,
    accept example_config
      (example_reading 0, ExampleJson.object_value ExampleJson.pageview) = Some it
    ∧ lambda_handler example_config example_reading
        (post "/t" (ExampleJson.object_text ExampleJson.pageview)) ∅
      = (_response 200 (JObj [("status", JStr "ok")]), store_put it ∅).
Proof.
  assert (is_Some (accept example_config
                     (example_reading 0, ExampleJson.object_value ExampleJson.pageview)))
    as [it Hit] by (apply valid_event_accepted; [reflexivity|by left]).
  assert (decode_body (post "/t" (ExampleJson.object_text ExampleJson.pageview))
          = Ok (Loaded (ExampleJson.object_value ExampleJson.pageview))) as Hbody
    by (vm_compute; reflexivity).
  pose proof (single_event_semantics example_config example_reading
                (post "/t" (ExampleJson.object_text ExampleJson.pageview)) ∅ _
                eq_refl eq_refl Hbody eq_refl) as Hs.
  cbv zeta in Hs. rewrite Hit in Hs. destruct Hs as [Hs _].
  assert (match accept example_config
                  (example_reading 0, ExampleJson.object_value ExampleJson.pageview) with
          | Some it => batch_write_error [it]
          | None => None
          end = None) as Hok by (vm_compute; reflexivity).
  rewrite Hit in Hok.
  rewrite Hok in Hs. destruct Hs as [Hresp Htable].
  exists it. split; [exact Hit|].
  rewrite <- Hresp, <- Htable. by destruct (lambda_handler _ _ _ _).
Defined.

(** X22 at the batch of 24 page views and the one with a scroll depth of
    [55.5]: the response reports 24 events written, and the table is
    empty. *)
Lemma refused_flush_is_one_error_witness :
  _handle_batch_events example_config example_reading full_batch ∅
  = (Ok (_response 200
           (JObj [("status", JStr "ok"); ("written", JInt 24); ("errors", JInt 1)])), ∅).
Proof.
  set (evs := (numbered_view <$> seq 0 24) ++ [ExampleJson.scrolled_value]).
  assert (length evs <= 100)%nat as Hn by (vm_compute; lia).
  assert (length (omap (accept example_config) (entries example_reading evs))
          = flush_amount) as Hlen by (vm_compute; reflexivity).
  assert (is_Some (batch_write_error
                     (omap (accept example_config) (entries example_reading evs))))
    as Hre.
  { destruct (float_found (omap (accept example_config) (entries example_reading evs)))
      as (it & k & v & Hit & Hk & Hv); [vm_compute; reflexivity|].
    by eapply float_refused. }
  exact (refused_flush_is_one_error example_config example_reading full_batch evs ∅
           eq_refl eq_refl Hn Hlen Hre).
Defined.

(** X24 at a POST whose body [e30=] is the base64 form of [{}]. *)
Lemma base64_body_is_decoded_witness :
  lambda_handler example_config example_reading
    {| http_method := "POST"; rawPath := "/t"; raw_body := BodyText "e30=";
       isBase64Encoded := true |} ∅
  = lambda_handler example_config example_reading (post "/t" "{}") ∅.
Proof.
  exact (base64_body_is_decoded example_config example_reading
           {| http_method := "POST"; rawPath := "/t"; raw_body := BodyText "e30=";
              isBase64Encoded := true |} ∅ "e30=" eq_refl eq_refl).
Defined.

End JourneyTrackerBehaviour.
